(** * Stochastic simulation of AMPA receptor dynamics: the reaction parser,
      the propensity calculator, the event sampler, the simulation engine,
      the trajectory statistics, the main program and the plotted quantity
      of [initialiseReceptors.py].

    Conventions of the embedding.
    - A Python [str] is a list of characters ([str]).  [Py.isdigit] and
      [Py.int] are those of Python on ASCII text of at most 4300
      characters ([legible]); outside ASCII they are not ([str.isdigit] is
      also true of superscript digits, [int] also reads the decimal digits
      of other scripts), and the interpreter refuses a literal of more
      than 4300 digits, so a theorem that reads a token with them asks for
      legible text.
    - A Python integer is a [Z]; a cell of the integer matrices of NumPy
      holds 64 bits, and storing a number outside them raises
      OverflowError ([cell64]).  The memory of the machine is left out.
    - The engine works on real numbers ([R]) where the program works on
      binary64 floats; a float that is not finite is written out ([PInf],
      [NaN]) where the program can produce one: [1/a0] is [inf] when [a0]
      is zero, NumPy only warns.  What a theorem on the reals says of the
      program is what the program does when no operation rounds.  Two
      places where rounding changes what the program does are modelled on
      the floats of the machine as well: the scan of [next_values]
      ([scan64], where a rounded deficit can stay positive past the last
      cell), and the propensities it is called on ([propensities64]).  The
      number of combinations [calculate_hi] returns is an integer here and
      a float product in the program: the two agree below 2^53.
    - A raised exception is the outcome [Raised e]; the exception keeps
      what the message of the Python exception names. *)

From Stdlib Require Import Floats.
From Stdlib Require Import List ZArith Bool Ascii String Lia Arith.
From Stdlib Require Import Reals Lra.
Import ListNotations.

Set Implicit Arguments.

(** ** Outcomes *)

Definition str := list ascii.

(** [ValueError s]: invalid literal for int() with base 10: s;
    [ShapeError]: a ValueError of NumPy, operands could not be broadcast
    together; [OverflowError]: Python int too large to convert to C long;
    [OutOfFuel] is not an exception of the program: the engine's loop is
    run on a step budget, which is proved never to run out. *)
Inductive exn : Type :=
| IndexError
| ValueError (literal : str)
| ShapeError
| ZeroDivisionError
| OverflowError
| OutOfFuel.

Inductive result (A : Type) : Type :=
| Returned (a : A)
| Raised (e : exn).

Arguments Returned {A} a.
Arguments Raised {A} e.

Definition bind {A B : Type} (m : result A) (k : A -> result B) : result B :=
  match m with
  | Returned a => k a
  | Raised e => Raised e
  end.

Notation "x <- m ;; k" := (bind m (fun x => k))
  (at level 61, m at next level, right associativity).
Notation "' p <- m ;; k" := (bind m (fun p => k))
  (at level 61, p pattern, m at next level, right associativity).

(** ** Python's string and list primitives *)

Module Py.

Definition lit (s : string) : str := list_ascii_of_string s.

(** [s.split(sep)] for a separator of one character. *)
Fixpoint split (sep : ascii) (s : str) : list str :=
  match s with
  | [] => [[]]
  | c :: s' =>
      if Ascii.eqb c sep then [] :: split sep s'
      else match split sep s' with
           | [] => [[c]]
           | w :: ws => (c :: w) :: ws
           end
  end.

(** [s.split("->")]: the occurrences of the separator are found from the
    left and do not overlap. *)
Fixpoint split_arrow (s : str) : list str :=
  match s with
  | [] => [[]]
  | c :: s' =>
      match s' with
      | c' :: s'' =>
          if Ascii.eqb c "-" && Ascii.eqb c' ">" then [] :: split_arrow s''
          else match split_arrow s' with
               | [] => [[c]]
               | w :: ws => (c :: w) :: ws
               end
      | [] => [[c]]
      end
  end.

(** The characters of ASCII, codes 0 to 127. *)
Definition is_ascii (c : ascii) : bool := (nat_of_ascii c <? 128)%nat.

Definition is_digit (c : ascii) : bool :=
  (48 <=? nat_of_ascii c)%nat && (nat_of_ascii c <=? 57)%nat.

Definition digit_val (c : ascii) : Z := Z.of_nat (nat_of_ascii c) - 48.

(** [s.isdigit()] on ASCII text: at least one character, and all of them
    digits. *)
Definition isdigit (s : str) : bool :=
  match s with
  | [] => false
  | _ => forallb is_digit s
  end.

(** The whitespace [int] skips at both ends of an ASCII literal. *)
Definition is_space (c : ascii) : bool :=
  let n := nat_of_ascii c in
  ((9 <=? n)%nat && (n <=? 13)%nat) || (n =? 32)%nat.

Fixpoint lstrip (s : str) : str :=
  match s with
  | c :: s' => if is_space c then lstrip s' else s
  | [] => []
  end.

Definition strip (s : str) : str := rev (lstrip (rev (lstrip s))).

(** The digits of an integer literal, a single underscore allowed between
    two digits. *)
Fixpoint int_digits (acc : Z) (after_digit : bool) (s : str) : option Z :=
  match s with
  | [] => if after_digit then Some acc else None
  | c :: s' =>
      if is_digit c then int_digits (10 * acc + digit_val c) true s'
      else if Ascii.eqb c "_" && after_digit then int_digits acc false s'
      else None
  end.

(** [int(s)] on ASCII text. *)
Definition int (s : str) : result Z :=
  let v :=
    match strip s with
    | c :: d =>
        if Ascii.eqb c "-" then option_map Z.opp (int_digits 0 false d)
        else if Ascii.eqb c "+" then int_digits 0 false d
        else int_digits 0 false (c :: d)
    | [] => None
    end in
  match v with
  | Some z => Returned z
  | None => Raised (ValueError s)
  end.

(** [l[i]] for reading: a negative index counts from the end. *)
Definition index {A : Type} (l : list A) (i : Z) : result A :=
  let n := Z.of_nat (List.length l) in
  let k := if (i <? 0)%Z then (n + i)%Z else i in
  if ((0 <=? k) && (k <? n))%Z then
    match nth_error l (Z.to_nat k) with
    | Some a => Returned a
    | None => Raised IndexError
    end
  else Raised IndexError.

(** The list [l] with cell [k] replaced; [l] itself out of range. *)
Fixpoint set_nth {A : Type} (k : nat) (v : A) (l : list A) {struct l}
  : list A :=
  match l, k with
  | [], _ => []
  | _ :: l', O => v :: l'
  | a :: l', S k' => a :: set_nth k' v l'
  end.

(** [l[i] = v] *)
Definition store {A : Type} (l : list A) (i : Z) (v : A) : result (list A) :=
  let n := Z.of_nat (List.length l) in
  let k := if (i <? 0)%Z then (n + i)%Z else i in
  if ((0 <=? k) && (k <? n))%Z then Returned (set_nth (Z.to_nat k) v l)
  else Raised IndexError.

End Py.

(** ** The reaction parser ([reactions_stoch]) *)

(** A NumPy integer matrix: its rows, and its number of columns (which a
    matrix without rows still has). *)
Record matrix : Type := Matrix { ncols : nat; rows : list (list Z) }.

Definition zeros (r c : nat) : matrix := Matrix c (repeat (repeat 0%Z c) r).

(** One item [[number, species]] of [sub_number_reaction]. *)
Definition item : Type := (Z * Z)%type.

(** The body of the loop over the terms [j] of one side: the item of the
    term, if its split on X has two parts, and [total_number_species]. *)
Definition read_term (total : Z) (j : str) : result (option item * Z) :=
  let parts := Py.split "X" j in
  number <- (if Py.isdigit (hd [] parts) then Py.int (hd [] parts)
             else Returned 1%Z) ;;
  match parts with
  | [_; j1] =>
      species <- Py.int j1 ;;
      Returned (Some (number, species),
                if (species >? total)%Z then species else total)
  | _ => Returned (None, total)
  end.

(** The loop over the terms of one side: [sub_one_reaction]. *)
Fixpoint read_side (total : Z) (terms : list str)
  : result (list item * Z) :=
  match terms with
  | [] => Returned ([], total)
  | j :: terms' =>
      '(it, total1) <- read_term total j ;;
      '(items, total2) <- read_side total1 terms' ;;
      Returned (match it with
                | Some x => x :: items
                | None => items
                end, total2)
  end.

(** The loop over the sides: a side is appended to [sub_number_reaction]
    only when it has at least one item. *)
Fixpoint read_sides (total : Z) (sides : list (list str))
  : result (list (list item) * Z) :=
  match sides with
  | [] => Returned ([], total)
  | i :: sides' =>
      '(one_reaction, total1) <- read_side total i ;;
      '(number_reaction, total2) <- read_sides total1 sides' ;;
      Returned (match one_reaction with
                | [] => number_reaction
                | _ :: _ => one_reaction :: number_reaction
                end, total2)
  end.

(** The first loop: each reaction is split on the arrow, part 0 is the
    substrate side and part 1 the product side. *)
Fixpoint split_reactions (one_reaction : list str)
  : result (list str * list str) :=
  match one_reaction with
  | [] => Returned ([], [])
  | i :: rest =>
      let s_p := Py.split_arrow i in
      s0 <- Py.index s_p 0 ;;
      s1 <- Py.index s_p 1 ;;
      '(substrates, products) <- split_reactions rest ;;
      Returned (s0 :: substrates, s1 :: products)
  end.

(** The value a cell of an integer matrix takes: a Python integer outside
    the 64 bits of the cell is refused. *)
Definition cell64 (v : Z) : result Z :=
  if ((- 2 ^ 63 <=? v) && (v <? 2 ^ 63))%Z then Returned v
  else Raised OverflowError.

(** [for species in items: row[species[1]-1] = sign * species[0]]; NumPy
    looks the cell up before it converts the value. *)
Fixpoint fill_row (sign : Z) (items : list item) (row : list Z)
  : result (list Z) :=
  match items with
  | [] => Returned row
  | (number, species) :: items' =>
      row' <- Py.store row (species - 1) (sign * number)%Z ;;
      _ <- cell64 (sign * number)%Z ;;
      fill_row sign items' row'
  end.

(** [for reaction in range(len(number_reaction))]: item list number
    [reaction] fills row number [reaction]. *)
Fixpoint fill (sign : Z) (number_reaction : list (list item))
  (stoch : list (list Z)) : result (list (list Z)) :=
  match number_reaction, stoch with
  | [], _ => Returned stoch
  | _ :: _, [] => Raised IndexError
  | items :: number_reaction', row :: stoch' =>
      row' <- fill_row sign items row ;;
      stoch'' <- fill sign number_reaction' stoch' ;;
      Returned (row' :: stoch'')
  end.

Definition reactions_stoch (reactions : str) : result (matrix * matrix) :=
  let one_reaction := Py.split "," reactions in
  '(substrates, products) <- split_reactions one_reaction ;;
  let sub_without_plus := map (Py.split "+") substrates in
  let prod_without_plus := map (Py.split "+") products in
  '(sub_number_reaction, total1) <- read_sides 0%Z sub_without_plus ;;
  '(prod_number_reaction, total_number_species)
     <- read_sides total1 prod_without_plus ;;
  let shape := zeros (List.length one_reaction)
                     (Z.to_nat total_number_species) in
  sub_stoch <- fill (-1) sub_number_reaction (rows shape) ;;
  prod_stoch <- fill 1 prod_number_reaction (rows shape) ;;
  Returned (Matrix (ncols shape) sub_stoch, Matrix (ncols shape) prod_stoch).

(** ** Floats *)

(** A float: a real number, plus infinity or not-a-number. *)
Inductive xreal : Type :=
| Fin (x : R)
| PInf
| NaN.

Definition xadd (x y : xreal) : xreal :=
  match x, y with
  | Fin a, Fin b => Fin (a + b)
  | NaN, _ | _, NaN => NaN
  | _, _ => PInf
  end.

(** [x < y] for a float [x] and a finite [y]. *)
Definition xlt (x : xreal) (y : R) : bool :=
  match x with
  | Fin a => if Rlt_dec a y then true else false
  | PInf | NaN => false
  end.

(** Python's [sum]: the cells are added to 0 from the left. *)
Definition sum (a : list R) : R := fold_left Rplus a 0%R.

(** [l[k]] for an index that is never negative. *)
Definition cell_of {A : Type} (l : list A) (k : nat) : result A :=
  match nth_error l k with
  | Some a => Returned a
  | None => Raised IndexError
  end.

(** The loop [for j in js], threading the loop's variable. *)
Fixpoint for_each {A : Type} (js : list nat) (body : A -> nat -> result A)
  (acc : A) : result A :=
  match js with
  | [] => Returned acc
  | j :: js' => acc' <- body acc j ;; for_each js' body acc'
  end.

(** The list of [body i] for [i in is]. *)
Fixpoint collect {A : Type} (indices : list nat) (body : nat -> result A)
  : result (list A) :=
  match indices with
  | [] => Returned []
  | i :: indices' =>
      x <- body i ;; xs <- collect indices' body ;; Returned (x :: xs)
  end.

Definition range (n : nat) : list nat := seq 0 n.

(** NumPy's broadcasting of two sizes. *)
Definition broadcast (m n : nat) : option nat :=
  if (m =? n)%nat then Some m
  else if (m =? 1)%nat then Some n
  else if (n =? 1)%nat then Some m
  else None.

Fixpoint map2 {A B C : Type} (f : A -> B -> C) (xs : list A) (ys : list B)
  : list C :=
  match xs, ys with
  | x :: xs', y :: ys' => f x y :: map2 f xs' ys'
  | _, _ => []
  end.

(** A binary operation on two arrays whose sizes broadcast. *)
Definition bzip {A B C : Type} (f : A -> B -> C) (xs : list A) (ys : list B)
  : list C :=
  if (List.length xs =? List.length ys)%nat then map2 f xs ys
  else match xs, ys with
       | [x], _ => map (f x) ys
       | _, [y] => map (fun x => f x y) xs
       | _, _ => []
       end.

(** [sub_stoch + prod_stoch] *)
Definition mat_add (m1 m2 : matrix) : result matrix :=
  match broadcast (List.length (rows m1)) (List.length (rows m2)),
        broadcast (ncols m1) (ncols m2) with
  | Some _, Some c =>
      Returned (Matrix c (bzip (bzip Z.add) (rows m1) (rows m2)))
  | _, _ => Raised ShapeError
  end.

(** [m[i,j]] *)
Definition entry (m : matrix) (i j : nat) : result Z :=
  row <- cell_of (rows m) i ;; cell_of row j.

(** ** The propensity calculator ([calculate_hi] and step 1 of the loop) *)

(** [while j>0: b[j]+=b[j-1]; j-=1] *)
Fixpoint pascal_inner (j : nat) (b : list Z) : list Z :=
  match j with
  | O => b
  | S j' =>
      pascal_inner j' (Py.set_nth j (nth j b 0 + nth j' b 0)%Z b)
  end.

(** [count] rounds of the loop over [i], from [i] on. *)
Fixpoint pascal_outer (count i : nat) (b : list Z) : list Z :=
  match count with
  | O => b
  | S count' =>
      pascal_outer count' (S i) (pascal_inner (i - 1) (Py.set_nth i 1%Z b))
  end.

(** [scipy.special.factorial]: 0 for a negative argument.  The program
    gets a float, which holds the factorial exactly while it is below
    2^53 (up to 18!). *)
Definition factorial (m : Z) : Z :=
  if (m <? 0)%Z then 0%Z else Z.of_nat (fact (Z.to_nat m)).

(** The number of combinations, as an integer; the program returns the
    float [b[m]*factorial(m)], the same number while it is below 2^53. *)
Definition calculate_hi (n m : Z) : result Z :=
  let b := repeat 0%Z (Z.to_nat (n + 1)) in
  b <- Py.store b 0 1%Z ;;
  let b := pascal_outer (Z.to_nat n) 1 b in
  bm <- Py.index b m ;;
  Returned (bm * factorial m)%Z.

(** The body of the loop over the species [j] for reaction [i]. *)
Definition hi_body (sub_stoch : matrix) (current_species : list Z)
  (i : nat) (hi : Z) (j : nat) : result Z :=
  s <- entry sub_stoch i j ;;
  if (s =? 0)%Z then Returned hi
  else
    n <- cell_of current_species j ;;
    if (n <=? 0)%Z then Returned 0%Z
    else h <- calculate_hi n (Z.abs s) ;; Returned (hi * h)%Z.

(** [a[i]] *)
Definition propensity (sub_stoch : matrix) (rates : list R)
  (current_species : list Z) (number_species i : nat) : result R :=
  hi <- for_each (range number_species)
          (hi_body sub_stoch current_species i) 1%Z ;;
  rate <- cell_of rates i ;;
  Returned (IZR hi * rate)%R.

(** Step 1: the array [a]. *)
Definition propensities (sub_stoch : matrix) (rates : list R)
  (current_species : list Z) (number_reactions number_species : nat)
  : result (list R) :=
  collect (range number_reactions)
    (propensity sub_stoch rates current_species number_species).

(** ** The event sampler ([next_values]) *)

(** [while N > 0: mu += 1; N = N - a[mu]], [rest] being the cells of [a]
    after [mu]; on the reals here, and on floats in [scan64] below. *)
Fixpoint scan (N : R) (mu : nat) (rest : list R) : result nat :=
  if Rlt_dec 0 N then
    match rest with
    | [] => Raised IndexError
    | a_mu :: rest' => scan (N - a_mu) (S mu) rest'
    end
  else Returned mu.

Definition next_values (a0 : R) (a : list R) (r1 r2 : R)
  : result (xreal * nat) :=
  let new_time_difference :=
    if Req_dec_T a0 0 then PInf else Fin ((1 / a0) * ln (1 / r1)) in
  a_0 <- cell_of a 0 ;;
  mu <- scan (r2 * a0 - a_0) 0 (tl a) ;;
  Returned (new_time_difference, mu).

(** *** The selection on binary64 floats *)

(** The sum and the scan as the machine computes them: every operation
    rounds to the nearest float.  [N > 0] is false of a NaN. *)
Definition sum64 (a : list float) : float :=
  fold_left PrimFloat.add a 0%float.

Fixpoint scan64 (N : float) (mu : nat) (rest : list float) : result nat :=
  if PrimFloat.ltb 0%float N then
    match rest with
    | [] => Raised IndexError
    | a_mu :: rest' => scan64 (PrimFloat.sub N a_mu) (S mu) rest'
    end
  else Returned mu.

(** The index [mu] of [next_values]; the waiting time needs [np.log] and
    is left to the reals. *)
Definition next_r64 (a0 : float) (a : list float) (r2 : float)
  : result nat :=
  a_0 <- cell_of a 0 ;;
  scan64 (PrimFloat.sub (PrimFloat.mul r2 a0) a_0) 0 (tl a).

(** The float of an integer from 0 to 2^63 - 1, exact below 2^53. *)
Definition float_of (z : Z) : float := PrimFloat.of_uint63 (Uint63.of_Z z).

(** Step 1 on floats: [hi] is a float as soon as it is multiplied by the
    float [calculate_hi] returns, which is [float_of] the number of
    combinations while that number and the factorial are below 2^53. *)
Definition hi_body64 (sub_stoch : matrix) (current_species : list Z)
  (i : nat) (hi : float) (j : nat) : result float :=
  s <- entry sub_stoch i j ;;
  if (s =? 0)%Z then Returned hi
  else
    n <- cell_of current_species j ;;
    if (n <=? 0)%Z then Returned 0%float
    else h <- calculate_hi n (Z.abs s) ;;
         Returned (PrimFloat.mul hi (float_of h)).

Definition propensity64 (sub_stoch : matrix) (rates : list float)
  (current_species : list Z) (number_species i : nat) : result float :=
  hi <- for_each (range number_species)
          (hi_body64 sub_stoch current_species i) 1%float ;;
  rate <- cell_of rates i ;;
  Returned (PrimFloat.mul hi rate).

Definition propensities64 (sub_stoch : matrix) (rates : list float)
  (current_species : list Z) (number_reactions number_species : nat)
  : result (list float) :=
  collect (range number_reactions)
    (propensity64 sub_stoch rates current_species number_species).

(** ** The simulation engine ([gillespie_algo]) *)

(** The variables of the loop. *)
Record engine : Type := Engine {
  current_time : xreal;
  current_species : list Z;
  n_counter : nat;
  store_time : list xreal;
  store_number_molecules : list (list Z);
  store_time_difference : list (list xreal)
}.

(** [store_number_molecules[n,:] = current_species] *)
Definition store_row (store : list (list Z)) (number_species n : nat)
  (current_species : list Z) : result (list (list Z)) :=
  match broadcast (List.length current_species) number_species with
  | Some w =>
      if (w =? number_species)%nat then
        Py.store store (Z.of_nat n)
          (bzip (fun x _ => x) current_species (repeat tt number_species))
      else Raised ShapeError
  | None => Raised ShapeError
  end.

(** [current_species += delta] *)
Definition iadd (current_species delta : list Z) : result (list Z) :=
  match broadcast (List.length current_species) (List.length delta) with
  | Some w =>
      if (w =? List.length current_species)%nat
      then Returned (bzip Z.add current_species delta)
      else Raised ShapeError
  | None => Raised ShapeError
  end.

Section Engine.

Variables (rates : list R) (sub_stoch stoch : matrix).
Variables (tmax : R) (n_max : nat) (r1 r2 : list R).
Variables (number_reactions number_species number_synapses : nat).

(** The condition of the [while]. *)
Definition running (e : engine) : bool :=
  xlt (current_time e) tmax && (n_counter e <? n_max - 1)%nat.

(** One round of the [while]: steps 1 to 3. *)
Definition step (e : engine) : result engine :=
  a <- propensities sub_stoch rates (current_species e)
         number_reactions number_species ;;
  let a0 := sum a in
  r1_n <- cell_of r1 (n_counter e) ;;
  r2_n <- cell_of r2 (n_counter e) ;;
  '(new_time_difference, next_r) <-
     match a with
     | [] => Raised ZeroDivisionError
     | _ :: _ => next_values a0 a r1_n r2_n
     end ;;
  differences <- Py.store (store_time_difference e) (Z.of_nat (n_counter e))
                   (repeat new_time_difference number_synapses) ;;
  let time := xadd (current_time e) new_time_difference in
  delta <- cell_of (rows stoch) next_r ;;
  species <- iadd (current_species e) delta ;;
  let n := S (n_counter e) in
  times <- Py.store (store_time e) (Z.of_nat n) time ;;
  molecules <- store_row (store_number_molecules e) number_species n species ;;
  Returned (Engine time species n times molecules differences).

Fixpoint run (fuel : nat) (e : engine) : result engine :=
  if running e then
    match fuel with
    | O => Raised OutOfFuel
    | S fuel' => e' <- step e ;; run fuel' e'
    end
  else Returned e.

(** The variables after [k] rounds of the [while], if the loop makes that
    many from [e]. *)
Fixpoint rounds (k : nat) (e : engine) : option engine :=
  match k with
  | O => Some e
  | S k' =>
      if running e then
        match step e with
        | Returned e' => rounds k' e'
        | Raised _ => None
        end
      else None
  end.

End Engine.

(** ** The trajectory statistics (the end of [gillespie_algo]) *)

Definition finite (x : xreal) : option R :=
  match x with
  | Fin a => Some a
  | PInf | NaN => None
  end.

Fixpoint all_finite (xs : list xreal) : option (list R) :=
  match xs with
  | [] => Some []
  | x :: xs' =>
      match finite x, all_finite xs' with
      | Some a, Some l => Some (a :: l)
      | _, _ => None
      end
  end.

Fixpoint all_finite_rows (m : list (list xreal)) : option (list (list R)) :=
  match m with
  | [] => Some []
  | row :: m' =>
      match all_finite row, all_finite_rows m' with
      | Some r, Some l => Some (r :: l)
      | _, _ => None
      end
  end.

(** Python's [sum] of the rows of an array of [w] columns. *)
Definition sum_rows (w : nat) (m : list (list R)) : list R :=
  fold_left (map2 Rplus) m (repeat 0%R w).

(** One cell of [sqrt(total)*100/average]. *)
Definition cv_cell (total average : R) : xreal :=
  if Rlt_dec total 0 then NaN
  else if Req_dec_T average 0 then
    (if Req_dec_T (sqrt total) 0 then NaN else PInf)
  else Fin (sqrt total * 100 / average).

(** The statistics on a trajectory of finite floats, whose clock is not 0. *)
Definition cv_finite (w : nat) (differences : list (list R))
  (mol_cv : list (list R)) (time : R) : list xreal :=
  let average :=
    map (fun x => (x / time)%R)
        (sum_rows w (map2 (bzip Rmult) differences mol_cv)) in
  let deviations :=
    map (fun row => map (fun x => (x ^ 2)%R) (bzip Rminus row average)) mol_cv in
  let weights := map (map (fun x => (x / time)%R)) differences in
  map2 cv_cell (sum_rows w (map2 (bzip Rmult) deviations weights)) average.

(** [average] and [coefficient_variation]; with no row the sum is the
    integer 0 and so is the clock; a float that is not finite, or a clock
    that is 0, leaves not-a-number in every cell. *)
Definition coefficient_variation (number_synapses tracked : nat)
  (differences : list (list xreal)) (mol_cv : list (list Z))
  (time : xreal) : result (list xreal) :=
  match broadcast number_synapses tracked with
  | None => Raised ShapeError
  | Some w =>
      match mol_cv with
      | [] => Raised ZeroDivisionError
      | _ :: _ =>
          match time, all_finite_rows differences with
          | Fin t, Some d =>
              if Req_dec_T t 0 then Returned (repeat NaN w)
              else Returned (cv_finite w d (map (map IZR) mol_cv) t)
          | _, _ => Returned (repeat NaN w)
          end
      end
  end.

(** [number_synapses = int((len(init)-1)/2)] *)
Definition synapses (init : list Z) : nat :=
  Z.to_nat (Z.quot (Z.of_nat (List.length init) - 1) 2).

(** Step 0 and the loop: the variables at the end of the [while]. *)
Definition simulate (init : list Z) (rates : list R)
  (sub_stoch stoch : matrix) (tmax : R) (n_max : nat) (r1 r2 : list R)
  : result engine :=
  let number_reactions := List.length (rows stoch) in
  let number_species := ncols stoch in
  let number_synapses := synapses init in
  times <- Py.store (repeat (Fin 0) n_max) 0 (Fin 0) ;;
  molecules <- store_row (repeat (repeat 0%Z number_species) n_max)
                 number_species 0 init ;;
  let differences := repeat (repeat (Fin 0) number_synapses) n_max in
  run rates sub_stoch stoch tmax n_max r1 r2
    number_reactions number_species number_synapses n_max
    (Engine (Fin 0) init 0 times molecules differences).

(** [r1] and [r2] stand for the two arrays of [n_max] draws of step 0. *)
Definition gillespie_algo (s_i init : list Z) (rates : list R)
  (sub_stoch prod_stoch : matrix) (tmax : R) (n_max : nat)
  (r1 r2 : list R)
  : result (list xreal * list (list Z) * list xreal) :=
  stoch <- mat_add sub_stoch prod_stoch ;;
  let number_species := ncols stoch in
  let number_synapses := synapses init in
  e <- simulate init rates sub_stoch stoch tmax n_max r1 r2 ;;
  let store_time := firstn (n_counter e) (store_time e) in
  let store_number_molecules :=
    firstn (n_counter e) (store_number_molecules e) in
  let store_time_difference :=
    firstn (n_counter e) (store_time_difference e) in
  let mol_cv := map (firstn 4) store_number_molecules in
  cv <- coefficient_variation number_synapses (Nat.min 4 number_species)
          store_time_difference mol_cv (current_time e) ;;
  Returned (store_time, store_number_molecules, cv).

(** ** The quantities the specification names *)

(** The binomial coefficient C(n,m), by Pascal's rule. *)
Fixpoint binomial (n m : nat) : Z :=
  match n, m with
  | _, O => 1%Z
  | O, S _ => 0%Z
  | S n', S m' => (binomial n' m' + binomial n' m)%Z
  end.

(** h(n,m) = C(n,m) * m! *)
Definition h (n m : nat) : Z := (binomial n m * Z.of_nat (fact m))%Z.

(** The product of h(n_s, |m_s|) over the species [s] whose entry [m_s] in
    the substrate row is not zero. *)
Fixpoint combinations (sub_row state : list Z) : Z :=
  match sub_row, state with
  | m :: sub_row', n :: state' =>
      ((if (m =? 0) then 1 else h (Z.to_nat n) (Z.to_nat (Z.abs m)))
       * combinations sub_row' state')%Z
  | _, _ => 1%Z
  end.

(** A required species has none of its molecules, or enough of them. *)
Definition supplied (m n : Z) : Prop :=
  m = 0%Z \/ (n <= 0)%Z \/ (Z.abs m <= n)%Z.

(** The cumulative sum a[0] + ... + a[mu]. *)
Definition cumulative (a : list R) (mu : nat) : R := sum (firstn (S mu) a).

(** Every row of a matrix has the matrix's number of columns. *)
Definition well_shaped (m : matrix) : Prop :=
  Forall (fun row => List.length row = ncols m) (rows m).

(** The dot product of a weighting vector and a state or a delta. *)
Fixpoint dot (v x : list Z) : Z :=
  match v, x with
  | a :: v', b :: x' => (a * b + dot v' x')%Z
  | _, _ => 0%Z
  end.

(** The values of species [s] along a trajectory. *)
Definition column (s : nat) (states : list (list Z)) : list R :=
  map (fun row => IZR (nth s row 0%Z)) states.

(** The sum over the steps of [f waitTime value]. *)
Fixpoint sum_steps (f : R -> R -> R) (waits values : list R) : R :=
  match waits, values with
  | d :: waits', v :: values' => (f d v + sum_steps f waits' values')%R
  | _, _ => 0%R
  end.

Definition weighted_mean (waits values : list R) (total : R) : R :=
  (sum_steps (fun d v => d * v) waits values / total)%R.

Definition weighted_cv (waits values : list R) (total : R) : R :=
  let mean := weighted_mean waits values total in
  (100 * sqrt (sum_steps (fun d v => (v - mean) ^ 2 * (d / total))
                 waits values) / mean)%R.

(** An input of the engine on which no step of the model can fail: arrays
    of the sizes the network gives, a number of species whose statistics
    broadcast ([tracked_fit]: 0, 1, 3, 4, 9 or 10 species), substrate
    coefficients 0 or 1, rate constants that are not negative, a horizon
    and a budget that let one event fire, and draws in (0,1).  It serves to
    exhibit runs that return. *)
Record valid_input (init : list Z) (rates : list R)
  (sub_stoch prod_stoch : matrix) (tmax : R) (n_max : nat)
  (r1 r2 : list R) : Prop := {
  sub_shaped : well_shaped sub_stoch;
  prod_shaped : well_shaped prod_stoch;
  same_rows : List.length (rows sub_stoch) = List.length (rows prod_stoch);
  same_cols : ncols sub_stoch = ncols prod_stoch;
  some_reaction : rows sub_stoch <> [];
  one_count_per_species : List.length init = ncols sub_stoch;
  tracked_fit :
    broadcast (synapses init) (Nat.min 4 (ncols sub_stoch)) <> None;
  one_rate_per_reaction : List.length rates = List.length (rows sub_stoch);
  rates_nonneg : Forall (fun c => (0 <= c)%R) rates;
  unit_coefficients :
    Forall (Forall (fun m => (-1 <= m <= 1)%Z)) (rows sub_stoch);
  horizon_positive : (0 < tmax)%R;
  budget_two : (2 <= n_max)%nat;
  r1_drawn : List.length r1 = n_max /\ Forall (fun r => (0 < r < 1)%R) r1;
  r2_drawn : List.length r2 = n_max /\ Forall (fun r => (0 < r < 1)%R) r2
}.

(** *** The grammar of the reaction text *)

(** A term [<coefficient>X<species>], as its two tokens. *)
Record term : Type := Term { coefficient : str; species : str }.

Definition side : Type := list term.
Definition reaction : Type := (side * side)%type.

(** [sep.join(pieces)] *)
Fixpoint join (sep : str) (pieces : list str) : str :=
  match pieces with
  | [] => []
  | [p] => p
  | p :: pieces' => p ++ sep ++ join sep pieces'
  end.

Definition term_text (t : term) : str :=
  coefficient t ++ "X"%char :: species t.

Definition side_text (ts : side) : str :=
  join ["+"%char] (map term_text ts).

Definition reaction_text (r : reaction) : str :=
  side_text (fst r) ++ "-"%char :: ">"%char :: side_text (snd r).

Definition network_text (net : list reaction) : str :=
  join [","%char] (map reaction_text net).

(** The number a string of digits writes in base 10. *)
Definition numeral (digits : str) : Z :=
  fold_left (fun acc c => (10 * acc + Py.digit_val c)%Z) digits 0%Z.

(** The coefficient of a term: 1 when the token is not a number. *)
Definition coefficient_value (t : term) : Z :=
  if Py.isdigit (coefficient t) then numeral (coefficient t) else 1%Z.


(** The number of molecules of species [k] a side consumes or produces:
    the coefficients of the terms that name [k], added up. *)
Definition side_coefficient (k : Z) (ts : side) : Z :=
  fold_left (fun acc t =>
               if (numeral (species t) =? k)%Z then (acc + coefficient_value t)%Z
               else acc) ts 0%Z.




(** A character that is none of the separators of the text. *)
Definition plain (c : ascii) : bool :=
  negb (Ascii.eqb c ","%char || Ascii.eqb c "+"%char || Ascii.eqb c "-"%char
        || Ascii.eqb c ">"%char || Ascii.eqb c "X"%char).



(** A text that [Py.isdigit] and [Py.int] read as Python does: ASCII
    characters, and no more of them than the 4300 digits the interpreter
    accepts in a literal. *)
Definition legible (s : str) : Prop :=
  forallb Py.is_ascii s = true /\ (Z.of_nat (List.length s) <= 4300)%Z.



(** Whether [s] holds the separator [->]. *)
Fixpoint has_arrow (s : str) : bool :=
  match s with
  | c :: s' =>
      match s' with
      | c' :: _ => (Ascii.eqb c "-" && Ascii.eqb c' ">") || has_arrow s'
      | [] => false
      end
  | [] => false
  end.

(** ** Notions of the proofs *)

(** A text without the character [sep]. *)
Definition free (sep : ascii) (s : str) : Prop := Forall (fun c => c <> sep) s.




(** The body of the loop over the species on floats, with the outcome of
    [calculate_hi] written out: h(n,m) when the state holds the [m]
    molecules, IndexError when it holds fewer. *)
Definition hi_step64 (sub_stoch : matrix) (current_species : list Z)
  (i : nat) (hi : float) (j : nat) : result float :=
  s <- entry sub_stoch i j ;;
  if (s =? 0)%Z then Returned hi
  else
    n <- cell_of current_species j ;;
    if (n <=? 0)%Z then Returned 0%float
    else if (Z.abs s <=? n)%Z then
      Returned (PrimFloat.mul hi
                  (float_of (h (Z.to_nat n) (Z.to_nat (Z.abs s)))))
    else Raised IndexError.

Definition propensities_step64 (sub_stoch : matrix) (rates : list float)
  (current_species : list Z) (number_reactions number_species : nat)
  : result (list float) :=
  collect (range number_reactions)
    (fun i =>
       hi <- for_each (range number_species)
               (hi_step64 sub_stoch current_species i) 1%float ;;
       rate <- cell_of rates i ;;
       Returned (PrimFloat.mul hi rate)).

(** An outcome of the program: anything but the loop's budget used up. *)
Definition genuine (A : Type) (m : result A) : Prop := m <> Raised OutOfFuel.

(** The variables when the loop is entered. *)
Definition start (init : list Z) (n_max number_species number_synapses : nat)
  : engine :=
  Engine (Fin 0) init 0
    (Py.set_nth 0 (Fin 0) (repeat (Fin 0) n_max))
    (Py.set_nth 0 init (repeat (repeat 0%Z number_species) n_max))
    (repeat (repeat (Fin 0) number_synapses) n_max).

(** Round [k] of a run stalls: the loop comes to its round [k] and there
    the propensities, none of them negative, add up to 0. *)
Definition stalls (init : list Z) (rates : list R)
  (sub_stoch stoch : matrix) (tmax : R) (n_max : nat) (r1 r2 : list R)
  (k : nat) (e : engine) : Prop :=
  rounds rates sub_stoch stoch tmax n_max r1 r2 (List.length (rows stoch))
    (ncols stoch) (synapses init) k
    (start init n_max (ncols stoch) (synapses init)) = Some e /\
  running tmax n_max e = true /\
  exists a,
    propensities sub_stoch rates (current_species e)
      (List.length (rows stoch)) (ncols stoch) = Returned a /\
    Forall (fun p => (0 <= p)%R) a /\ sum a = 0%R.

(** The sizes of the arrays, which no round changes. *)
Definition sized (stoch : matrix) (n_max : nat) (e : engine) : Prop :=
  List.length (store_time e) = n_max /\
  List.length (store_number_molecules e) = n_max /\
  List.length (store_time_difference e) = n_max /\
  List.length (current_species e) = ncols stoch.

(** The clock is the last stamp, and every earlier stamp is below the
    horizon. *)
Definition stamped (tmax : R) (e : engine) : Prop :=
  nth_error (store_time e) (n_counter e) = Some (current_time e) /\
  forall k, (k < n_counter e)%nat ->
            exists t, nth_error (store_time e) k = Some t /\ xlt t tmax = true.

(** The rows recorded so far and the state hold the conserved total. *)
Definition conserved (v : list Z) (total : Z) (e : engine) : Prop :=
  dot v (current_species e) = total /\
  forall k, (k <= n_counter e)%nat ->
            exists x, nth_error (store_number_molecules e) k = Some x /\
                      dot v x = total.

Ltac fields :=
  cbn [current_time current_species n_counter store_time
       store_number_molecules store_time_difference] in *.

(** ** The network of the program *)

(** [all_reactions]: binding, unbinding, and the exchange of the pool. *)
Definition all_reactions : str :=
  Py.lit "X5+X9->X1,X6+X9->X2,X7+X9->X3,X8+X9->X4,X1->X5+X9,X2->X6+X9,X3->X7+X9,X4->X8+X9,X9->0X9,0X9->X9".

Definition receptor_sub : matrix :=
  Matrix 9
    [[0; 0; 0; 0; -1; 0; 0; 0; -1]; [0; 0; 0; 0; 0; -1; 0; 0; -1];
     [0; 0; 0; 0; 0; 0; -1; 0; -1]; [0; 0; 0; 0; 0; 0; 0; -1; -1];
     [-1; 0; 0; 0; 0; 0; 0; 0; 0]; [0; -1; 0; 0; 0; 0; 0; 0; 0];
     [0; 0; -1; 0; 0; 0; 0; 0; 0]; [0; 0; 0; -1; 0; 0; 0; 0; 0];
     [0; 0; 0; 0; 0; 0; 0; 0; -1]; [0; 0; 0; 0; 0; 0; 0; 0; 0]]%Z.

Definition receptor_prod : matrix :=
  Matrix 9
    [[1; 0; 0; 0; 0; 0; 0; 0; 0]; [0; 1; 0; 0; 0; 0; 0; 0; 0];
     [0; 0; 1; 0; 0; 0; 0; 0; 0]; [0; 0; 0; 1; 0; 0; 0; 0; 0];
     [0; 0; 0; 0; 1; 0; 0; 0; 1]; [0; 0; 0; 0; 0; 1; 0; 0; 1];
     [0; 0; 0; 0; 0; 0; 1; 0; 1]; [0; 0; 0; 0; 0; 0; 0; 1; 1];
     [0; 0; 0; 0; 0; 0; 0; 0; 0]; [0; 0; 0; 0; 0; 0; 0; 0; 1]]%Z.

(** [init1] for [start = 0], and the slots of synapse 1 as a weighting. *)
Definition receptor_init : list Z := [0; 0; 0; 0; 20; 40; 60; 80; 0]%Z.

(** The stamp [u] comes after the time [a]. *)
Definition after (a : R) (u : xreal) : Prop :=
  match u with
  | Fin b => (a < b)%R
  | PInf => True
  | NaN => False
  end.

(** The stamps recorded so far climb from 0, and the clock is the last. *)
Definition climbing (e : engine) : Prop :=
  nth_error (store_time e) 0 = Some (Fin 0) /\
  nth_error (store_time e) (n_counter e) = Some (current_time e) /\
  forall k, (k < n_counter e)%nat ->
            exists a u, nth_error (store_time e) k = Some (Fin a) /\
                        nth_error (store_time e) (S k) = Some u /\
                        after a u.

(** The rows recorded so far are a path of the network from [init], and
    the state is the last. *)
Definition chained (stoch : matrix) (init : list Z) (e : engine) : Prop :=
  nth_error (store_number_molecules e) 0 = Some init /\
  nth_error (store_number_molecules e) (n_counter e) =
    Some (current_species e) /\
  forall k, (k < n_counter e)%nat ->
            exists x delta,
              nth_error (store_number_molecules e) k = Some x /\
              In delta (rows stoch) /\
              nth_error (store_number_molecules e) (S k) =
                Some (map2 Z.add x delta).



(** A wait of the sampler: positive, or without end. *)
Definition waiting (d : xreal) : Prop :=
  match d with
  | Fin x => (0 < x)%R
  | PInf => True
  | NaN => False
  end.

(** The clock after the waits [ds]. *)
Definition clock_of (ds : list xreal) : xreal := fold_left xadd ds (Fin 0).

(** The waits [ds] of the rounds run so far fill the recorded time
    differences, and add up to the stamps and to the clock. *)
Definition timed (nsyn : nat) (e : engine) (ds : list xreal) : Prop :=
  List.length ds = n_counter e /\
  Forall waiting ds /\
  firstn (n_counter e) (store_time_difference e) =
    map (fun d => repeat d nsyn) ds /\
  current_time e = clock_of ds /\
  forall k, (k <= n_counter e)%nat ->
            nth_error (store_time e) k = Some (clock_of (firstn k ds)).

(** ** The main program *)

(** The names of the main program are kept apart from those of the
    functions: [Main.tmax] is the horizon the program passes for [tmax]. *)
Module Main.

Definition s_i : list Z := [20; 40; 60; 80]%Z.

(** [s = np.sum(s_i)] *)
Definition s : Z := fold_left Z.add s_i 0%Z.

Definition phi : R := 2.67.
Definition F : R := 0.9.
Definition beta : R := 60 / 43.
Definition alpha : R := beta / (phi * IZR s * (1 - F)).
Definition delta : R := 1 / 14.
Definition gamma : R := delta * (IZR s * phi - beta / alpha).

Definition tmax : R := 60.
Definition n_max : nat := Z.to_nat 40000.

(** [rates]: [alpha] and [beta] once per synapse, [delta] and [gamma]. *)
Definition rates : list R :=
  ((map (fun one => one * alpha)%R (repeat 1%R (List.length s_i)) ++
    map (fun one => one * beta)%R (repeat 1%R (List.length s_i)))
   ++ [delta]) ++ [gamma].

Definition init1 (start : Z) : list Z :=
  [0; 0; 0; 0; 20; 40; 60; 80; start]%Z.

(** The rate constants as the machine computes them, in binary64. *)
#[warnings="-inexact-float"]
Definition phi64 : float := 2.67%float.
#[warnings="-inexact-float"]
Definition F64 : float := 0.9%float.
Definition beta64 : float := (60 / 43)%float.
Definition alpha64 : float :=
  (beta64 / (phi64 * float_of s * (1 - F64)))%float.
Definition delta64 : float := (1 / 14)%float.
Definition gamma64 : float :=
  (delta64 * (float_of s * phi64 - beta64 / alpha64))%float.

Definition rates64 : list float :=
  ((map (fun one => one * alpha64)%float
      (repeat 1%float (List.length s_i)) ++
    map (fun one => one * beta64)%float
      (repeat 1%float (List.length s_i)))
   ++ [delta64]) ++ [gamma64].

(** The weighting of synapse [i]: its bound receptors and its free slots. *)
Definition slots (i : nat) : list Z :=
  map (fun j => if ((j =? i) || (j =? i + 4))%nat then 1%Z else 0%Z)
      (seq 0 9).

(** The text is parsed and the engine is called on a copy of [init1]; one
    simulation is run for a value of [start] ([times_sim_av] is 1).  The
    average [cv] of one simulation and the text files the results are
    written to are left out. *)
Definition simulation (start : Z) (r1 r2 : list R)
  : result (list xreal * list (list Z) * list xreal) :=
  '(sub_stoch, prod_stoch) <- reactions_stoch all_reactions ;;
  gillespie_algo s_i (init1 start) rates sub_stoch prod_stoch tmax n_max
    r1 r2.

(** [np.delete(m, obj, 1)] *)
Definition delete_column (obj : nat) (m : matrix) : result matrix :=
  if (obj <? ncols m)%nat then
    Returned (Matrix (ncols m - 1)
                (map (fun row => firstn obj row ++ skipn (S obj) row)
                   (rows m)))
  else Raised IndexError.

(** [np.sum(m, axis=1)] *)
Definition sum_columns (m : matrix) : list Z :=
  map (fun row => fold_left Z.add row 0%Z) (rows m).

(** [r], the plotted number of receptors: column 4 of the recorded states
    is deleted four times and the rows are summed. *)
Definition receptors (wi : matrix) : result (list Z) :=
  r <- delete_column 4 wi ;;
  r <- delete_column 4 r ;;
  r <- delete_column 4 r ;;
  r <- delete_column 4 r ;;
  Returned (sum_columns r).

End Main.

(** * The reaction parser *)


Lemma eqb_free_head sep c : c <> sep -> Ascii.eqb c sep = false.
Proof. intro H. apply Ascii.eqb_neq. exact H. Qed.

Lemma split_nonempty sep s : Py.split sep s <> [].
Proof.
  destruct s as [|c s]; simpl; [discriminate|].
  destruct (Ascii.eqb c sep); [discriminate|].
  destruct (Py.split sep s); discriminate.
Qed.

Lemma split_free sep s : free sep s -> Py.split sep s = [s].
Proof.
  induction 1 as [|c s Hc _ IH]; simpl; [reflexivity|].
  rewrite (eqb_free_head Hc), IH. reflexivity.
Qed.

Lemma split_app sep p rest :
  free sep p -> Py.split sep (p ++ sep :: rest) = p :: Py.split sep rest.
Proof.
  induction 1 as [|c s Hc _ IH]; simpl.
  - rewrite Ascii.eqb_refl. reflexivity.
  - rewrite (eqb_free_head Hc), IH. reflexivity.
Qed.



Lemma split_arrow_app p rest :
  free "-"%char p ->
  Py.split_arrow (p ++ "-"%char :: ">"%char :: rest) = p :: Py.split_arrow rest.
Proof.
  induction 1 as [|c s Hc Hs IH]; [reflexivity|].
  remember (s ++ "-"%char :: ">"%char :: rest) as t eqn:Et.
  destruct t as [|c' t'].
  - destruct s; discriminate.
  - change (Py.split_arrow ((c :: s) ++ "-"%char :: ">"%char :: rest))
      with (Py.split_arrow (c :: s ++ "-"%char :: ">"%char :: rest)).
    rewrite <- Et.
    change (Py.split_arrow (c :: c' :: t')) with
      (if Ascii.eqb c "-" && Ascii.eqb c' ">" then [] :: Py.split_arrow t'
       else match Py.split_arrow (c' :: t') with
            | [] => [[c]]
            | w :: ws => (c :: w) :: ws
            end).
    rewrite (eqb_free_head Hc), IH. reflexivity.
Qed.

Lemma free_app sep s t : free sep s -> free sep t -> free sep (s ++ t).
Proof. intros. apply Forall_app. split; assumption. Qed.


Lemma free_forallb (p : ascii -> bool) sep s :
  p sep = false -> forallb p s = true -> free sep s.
Proof.
  intros Hsep Hs. apply Forall_forall. intros c Hin ->.
  rewrite forallb_forall in Hs. specialize (Hs _ Hin). congruence.
Qed.



Lemma isdigit_forallb s : Py.isdigit s = true -> forallb Py.is_digit s = true.
Proof. destruct s; [discriminate|]. intro H. exact H. Qed.



(** ** Reading the literals *)

Lemma lstrip_head c s : Py.is_space c = false -> Py.lstrip (c :: s) = c :: s.
Proof. intro H. simpl. rewrite H. reflexivity. Qed.

Lemma digit_not_space c : Py.is_digit c = true -> Py.is_space c = false.
Proof.
  destruct c as [[] [] [] [] [] [] [] []]; intro H; try reflexivity;
    discriminate H.
Qed.

Lemma strip_digits s : forallb Py.is_digit s = true -> Py.strip s = s.
Proof.
  intro H. unfold Py.strip.
  assert (Hl : forall t, forallb Py.is_digit t = true -> Py.lstrip t = t).
  { intros [|c t] Ht; [reflexivity|]. apply lstrip_head, digit_not_space.
    simpl in Ht. apply andb_prop in Ht. tauto. }
  rewrite (Hl s H). rewrite Hl.
  - apply rev_involutive.
  - rewrite forallb_forall in *. intros c Hc. apply H, in_rev, Hc.
Qed.

Lemma int_digits_fold s : forall acc b,
  forallb Py.is_digit s = true -> s <> [] ->
  Py.int_digits acc b s =
  Some (fold_left (fun a c => (10 * a + Py.digit_val c)%Z) s acc).
Proof.
  induction s as [|c s IH]; intros acc b H Hne; [congruence|].
  simpl in H. apply andb_prop in H. destruct H as [Hc Hs].
  simpl. rewrite Hc. destruct s as [|c' s'].
  - reflexivity.
  - apply IH; [exact Hs|discriminate].
Qed.

Lemma digit_not_sign c :
  Py.is_digit c = true -> Ascii.eqb c "-" = false /\ Ascii.eqb c "+" = false.
Proof.
  destruct c as [[] [] [] [] [] [] [] []]; intro H; try (split; reflexivity);
    discriminate H.
Qed.

Lemma int_numeral s : Py.isdigit s = true -> Py.int s = Returned (numeral s).
Proof.
  intro H. pose proof (isdigit_forallb _ H) as Hd.
  unfold Py.int. rewrite (strip_digits _ Hd).
  destruct s as [|c d]; [discriminate|].
  assert (Hc : Py.is_digit c = true) by (simpl in Hd; apply andb_prop in Hd; tauto).
  destruct (digit_not_sign _ Hc) as [-> ->].
  rewrite int_digits_fold by (assumption || discriminate). reflexivity.
Qed.

(** ** Cells within range *)

Lemma store_within (A : Type) (l : list A) i v :
  (0 <= i < Z.of_nat (List.length l))%Z ->
  Py.store l i v = Returned (Py.set_nth (Z.to_nat i) v l).
Proof.
  intro H. unfold Py.store.
  destruct (Z.ltb_spec i 0); [lia|].
  destruct (Z.leb_spec 0 i); [|lia].
  destruct (Z.ltb_spec i (Z.of_nat (List.length l))); [|lia].
  reflexivity.
Qed.

Lemma store_nat (A : Type) (l : list A) k v :
  (k < List.length l)%nat ->
  Py.store l (Z.of_nat k) v = Returned (Py.set_nth k v l).
Proof.
  intro H. rewrite store_within by lia. rewrite Nat2Z.id. reflexivity.
Qed.

Lemma index_within (A : Type) (l : list A) i a :
  (0 <= i)%Z -> nth_error l (Z.to_nat i) = Some a ->
  Py.index l i = Returned a.
Proof.
  intros Hi Ha. unfold Py.index.
  assert (Z.to_nat i < List.length l)%nat
    by (apply nth_error_Some; congruence).
  destruct (Z.ltb_spec i 0); [lia|].
  destruct (Z.leb_spec 0 i); [|lia].
  destruct (Z.ltb_spec i (Z.of_nat (List.length l))); [|lia].
  simpl. rewrite Ha. reflexivity.
Qed.

Lemma index_beyond (A : Type) (l : list A) i :
  (Z.of_nat (List.length l) <= i)%Z -> Py.index l i = Raised IndexError.
Proof.
  intro H. unfold Py.index.
  destruct (Z.ltb_spec i 0); [lia|].
  destruct (Z.leb_spec 0 i); [|lia].
  destruct (Z.ltb_spec i (Z.of_nat (List.length l))); [lia|].
  reflexivity.
Qed.

Lemma set_nth_length (A : Type) (l : list A) : forall k v,
  List.length (Py.set_nth k v l) = List.length l.
Proof.
  induction l as [|a l IH]; intros [|k] v; simpl; try reflexivity.
  f_equal. apply IH.
Qed.

(** ** Reading the terms *)











(** ** Filling the matrices *)

Lemma set_nth_map_seq (f : nat -> Z) v w : forall a j,
  Py.set_nth j v (map f (seq a w)) =
  map (fun s => if (s =? a + j)%nat then v else f s) (seq a w).
Proof.
  induction w as [|w IH]; intros a j; [reflexivity|].
  destruct j as [|j]; simpl.
  - rewrite Nat.add_0_r, Nat.eqb_refl. f_equal.
    apply map_ext_in. intros s Hs. apply in_seq in Hs.
    destruct (Nat.eqb_spec s a); [lia|reflexivity].
  - destruct (Nat.eqb_spec a (a + S j)); [lia|]. f_equal.
    rewrite IH. apply map_ext. intros s.
    replace (S a + j)%nat with (a + S j)%nat by lia. reflexivity.
Qed.







(** ** The largest index *)




(** ** The parser on a text of the grammar *)






(** * The propensity calculator *)

Lemma binomial_0_r n : binomial n 0 = 1%Z.
Proof. destruct n; reflexivity. Qed.

Lemma binomial_gt n : forall m, (n < m)%nat -> binomial n m = 0%Z.
Proof.
  induction n as [|n IH]; intros [|m] H; try lia; [reflexivity|].
  simpl. rewrite !IH by lia. reflexivity.
Qed.

Lemma binomial_diag n : binomial n n = 1%Z.
Proof.
  induction n as [|n IH]; [reflexivity|].
  simpl. rewrite IH, binomial_gt by lia. reflexivity.
Qed.

Lemma binomial_1_r n : binomial n 1 = Z.of_nat n.
Proof.
  induction n as [|n IH]; [reflexivity|].
  change (binomial (S n) 1) with (binomial n 0 + binomial n 1)%Z.
  rewrite IH, binomial_0_r. lia.
Qed.

Lemma binomial_nonneg n : forall m, (0 <= binomial n m)%Z.
Proof.
  induction n as [|n IH]; intros [|m]; simpl; try lia.
  pose proof (IH m). pose proof (IH (S m)). lia.
Qed.

Lemma h_nonneg n m : (0 <= h n m)%Z.
Proof. unfold h. pose proof (binomial_nonneg n m). nia. Qed.

Lemma nth_map_seq (f : nat -> Z) len j d :
  (j < len)%nat -> nth j (map f (seq 0 len)) d = f j.
Proof.
  intro H. rewrite (nth_indep _ d (f 0%nat)) by (rewrite length_map, length_seq; lia).
  rewrite map_nth, seq_nth by lia. reflexivity.
Qed.

Lemma pascal_inner_row i len : forall j,
  (j <= i)%nat -> (S i < len)%nat ->
  pascal_inner j
    (map (fun k => if (j <? k)%nat then binomial (S i) k else binomial i k)
       (seq 0 len)) =
  map (binomial (S i)) (seq 0 len).
Proof.
  induction j as [|j IH]; intros Hj Hi.
  - simpl. apply map_ext. intros [|k]; [apply binomial_0_r|reflexivity].
  - simpl pascal_inner. rewrite !nth_map_seq by lia.
    rewrite Nat.ltb_irrefl.
    destruct (Nat.ltb_spec (S j) j); [lia|].
    rewrite set_nth_map_seq. rewrite <- IH by lia. f_equal.
    apply map_ext. intro k. rewrite Nat.add_0_l.
    destruct (Nat.eqb_spec k (S j)) as [->|Hk].
    + destruct (Nat.ltb_spec j (S j)); [|lia]. simpl. lia.
    + destruct (Nat.ltb_spec (S j) k); destruct (Nat.ltb_spec j k);
        try lia; reflexivity.
Qed.

Lemma pascal_outer_row len : forall count i,
  (i + count < len)%nat ->
  pascal_outer count (S i) (map (binomial i) (seq 0 len)) =
  map (binomial (i + count)) (seq 0 len).
Proof.
  induction count as [|count IH]; intros i H.
  - rewrite Nat.add_0_r. reflexivity.
  - simpl pascal_outer. rewrite Nat.sub_0_r, set_nth_map_seq.
    replace (map (fun s => if (s =? 0 + S i)%nat then 1%Z else binomial i s)
               (seq 0 len))
      with (map (fun k => if (i <? k)%nat then binomial (S i) k
                          else binomial i k) (seq 0 len)).
    + rewrite pascal_inner_row by lia. rewrite IH by lia.
      f_equal. f_equal. lia.
    + apply map_ext. intro k. rewrite Nat.add_0_l.
      destruct (Nat.eqb_spec k (S i)) as [->|Hk].
      * destruct (Nat.ltb_spec i (S i)); [|lia]. apply binomial_diag.
      * destruct (Nat.ltb_spec i k); [|reflexivity].
        rewrite !binomial_gt by lia. reflexivity.
Qed.

Lemma pascal_row n :
  pascal_outer n 1 (Py.set_nth 0 1%Z (repeat 0%Z (S n))) =
  map (binomial n) (seq 0 (S n)).
Proof.
  assert (H0 : Py.set_nth 0 1%Z (repeat 0%Z (S n)) =
               map (binomial 0) (seq 0 (S n))).
  { simpl. f_equal.
    assert (Hz : forall k a, repeat 0%Z k = map (binomial 0) (seq (S a) k)).
    { induction k as [|k IH]; intro a; [reflexivity|].
      simpl. f_equal. apply IH. }
    apply Hz. }
  rewrite H0. apply (pascal_outer_row (len := S n) n 0). lia.
Qed.

Lemma factorial_nat m : (0 <= m)%Z -> factorial m = Z.of_nat (fact (Z.to_nat m)).
Proof. intro H. unfold factorial. destruct (Z.ltb_spec m 0); [lia|reflexivity]. Qed.

Lemma calculate_hi_row n :
  (0 <= n)%Z ->
  forall m, calculate_hi n m =
            (bm <- Py.index (map (binomial (Z.to_nat n))
                               (seq 0 (S (Z.to_nat n)))) m ;;
             Returned (bm * factorial m)%Z).
Proof.
  intros Hn m. unfold calculate_hi.
  replace (Z.to_nat (n + 1)) with (S (Z.to_nat n)) by lia.
  rewrite store_within by (rewrite repeat_length; lia).
  simpl bind. change (Z.to_nat 0) with 0%nat. rewrite pascal_row. reflexivity.
Qed.

Lemma calculate_hi_h n m :
  (0 <= m <= n)%Z ->
  calculate_hi n m = Returned (h (Z.to_nat n) (Z.to_nat m)).
Proof.
  intros H. rewrite calculate_hi_row by lia.
  rewrite index_within with (a := binomial (Z.to_nat n) (Z.to_nat m)).
  - simpl. rewrite factorial_nat by lia. reflexivity.
  - lia.
  - rewrite nth_error_map, nth_error_seq.
    destruct (Nat.ltb_spec (Z.to_nat m) (S (Z.to_nat n))); [|lia]. reflexivity.
Qed.

Lemma calculate_hi_short n m :
  (0 <= n < m)%Z -> calculate_hi n m = Raised IndexError.
Proof.
  intros H. rewrite calculate_hi_row by lia.
  rewrite index_beyond by (rewrite length_map, length_seq; lia). reflexivity.
Qed.

(** ** The loop over the species *)

Lemma hi_body_supplied sub_stoch cs i j row m n hi :
  nth_error (rows sub_stoch) i = Some row ->
  nth_error row j = Some m -> nth_error cs j = Some n ->
  supplied m n ->
  hi_body sub_stoch cs i hi j =
  Returned (hi * (if (m =? 0)%Z then 1
                  else h (Z.to_nat n) (Z.to_nat (Z.abs m))))%Z.
Proof.
  intros Hrow Hm Hn Hs. unfold hi_body, entry, cell_of.
  rewrite Hrow. simpl. rewrite Hm. simpl.
  destruct (Z.eqb_spec m 0) as [->|Hm0]; [f_equal; lia|].
  rewrite Hn. simpl.
  destruct (Z.leb_spec n 0) as [Hle|Hgt].
  - replace (Z.to_nat n) with 0%nat by lia.
    destruct (Z.to_nat (Z.abs m)) eqn:E; [lia|]. unfold h. simpl. f_equal. lia.
  - destruct Hs as [?|[?|Hs]]; try lia.
    rewrite calculate_hi_h by lia. reflexivity.
Qed.

Lemma bind_returned (A B : Type) (m : result A) (k : A -> result B) b :
  bind m k = Returned b -> exists a, m = Returned a /\ k a = Returned b.
Proof. destruct m as [a|e]; simpl; intro H; [eauto|discriminate]. Qed.

Lemma cell_of_some (A : Type) (l : list A) k a :
  nth_error l k = Some a -> cell_of l k = Returned a.
Proof. intro H. unfold cell_of. rewrite H. reflexivity. Qed.

Lemma cell_of_returned (A : Type) (l : list A) k a :
  cell_of l k = Returned a -> nth_error l k = Some a.
Proof. unfold cell_of. destruct (nth_error l k); intro H; congruence. Qed.

Lemma skipn_nth_error (A : Type) (l : list A) : forall a x,
  nth_error l a = Some x -> skipn a l = x :: skipn (S a) l.
Proof.
  induction l as [|y l IH]; intros [|a] x H; try discriminate.
  - simpl in H. injection H as ->. reflexivity.
  - simpl in H. exact (IH _ _ H).
Qed.

Lemma combinations_nonneg row : forall cs, (0 <= combinations row cs)%Z.
Proof.
  induction row as [|m row IH]; intros [|n cs]; simpl; try lia.
  specialize (IH cs).
  destruct (m =? 0)%Z; [lia|].
  pose proof (h_nonneg (Z.to_nat n) (Z.to_nat (Z.abs m))). nia.
Qed.

Lemma for_each_combinations sub_stoch cs i row :
  nth_error (rows sub_stoch) i = Some row ->
  List.length cs = List.length row ->
  forall k a hi,
    (a + k = List.length row)%nat ->
    Forall2 supplied (skipn a row) (skipn a cs) ->
    for_each (seq a k) (hi_body sub_stoch cs i) hi =
    Returned (hi * combinations (skipn a row) (skipn a cs))%Z.
Proof.
  intros Hrow Hlen. induction k as [|k IH]; intros a hi Ha Hs.
  - simpl. rewrite skipn_all2 by lia. simpl. f_equal. lia.
  - destruct (nth_error row a) as [m|] eqn:Em;
      [|apply nth_error_None in Em; lia].
    destruct (nth_error cs a) as [n|] eqn:En;
      [|apply nth_error_None in En; lia].
    rewrite (skipn_nth_error _ _ Em), (skipn_nth_error _ _ En) in Hs |- *.
    apply Forall2_cons_iff in Hs. destruct Hs as [Hmn Hrest].
    cbn [for_each seq].
    rewrite hi_body_supplied with (row := row) (m := m) (n := n)
      by assumption.
    cbn [bind]. rewrite IH by (assumption || lia).
    f_equal. cbn [combinations]. ring.
Qed.

(** The propensity of a reaction whose species are all supplied. *)
Lemma propensity_supplied sub_stoch rates cs i row rate :
  nth_error (rows sub_stoch) i = Some row ->
  nth_error rates i = Some rate ->
  List.length cs = List.length row ->
  Forall2 supplied row cs ->
  propensity sub_stoch rates cs (List.length row) i =
  Returned (IZR (combinations row cs) * rate)%R.
Proof.
  intros Hrow Hrate Hlen Hs. unfold propensity, range.
  rewrite for_each_combinations with (row := row)
    by (simpl; assumption || lia).
  simpl. rewrite (cell_of_some _ _ Hrate). simpl.
  destruct (combinations row cs); reflexivity.
Qed.

Lemma unit_supplied row : forall cs,
  Forall (fun m => (-1 <= m <= 1)%Z) row ->
  List.length cs = List.length row -> Forall2 supplied row cs.
Proof.
  induction row as [|m row IH]; intros [|n cs] H Hlen; try discriminate;
    [constructor|].
  inversion H; subst. constructor; [|apply IH; [assumption|simpl in Hlen; lia]].
  unfold supplied. lia.
Qed.

Lemma collect_total (A : Type) (P : A -> Prop) (body : nat -> result A) :
  forall n a,
    (forall i, (a <= i < a + n)%nat -> exists x, body i = Returned x /\ P x) ->
    exists xs, collect (seq a n) body = Returned xs /\
               List.length xs = n /\ Forall P xs.
Proof.
  induction n as [|n IH]; intros a H.
  - exists []. repeat split. constructor.
  - destruct (H a) as (x & Hx & Px); [lia|].
    destruct (IH (S a)) as (xs & Hxs & Hl & Pxs); [intros; apply H; lia|].
    exists (x :: xs). simpl. rewrite Hx. simpl. rewrite Hxs. simpl.
    repeat split; [congruence|constructor; assumption].
Qed.

Lemma propensities_unit sub_stoch rates cs :
  well_shaped sub_stoch ->
  Forall (Forall (fun m => (-1 <= m <= 1)%Z)) (rows sub_stoch) ->
  List.length rates = List.length (rows sub_stoch) ->
  Forall (fun c => (0 <= c)%R) rates ->
  List.length cs = ncols sub_stoch ->
  exists a,
    propensities sub_stoch rates cs (List.length (rows sub_stoch))
      (ncols sub_stoch) = Returned a /\
    List.length a = List.length (rows sub_stoch) /\
    Forall (fun p => (0 <= p)%R) a.
Proof.
  intros Hshape Hunit Hrates Hpos Hcs. unfold propensities, range.
  apply collect_total. intros i Hi.
  destruct (nth_error (rows sub_stoch) i) as [row|] eqn:Erow;
    [|apply nth_error_None in Erow; lia].
  destruct (nth_error rates i) as [rate|] eqn:Erate;
    [|apply nth_error_None in Erate; lia].
  pose proof (nth_error_In _ _ Erow) as Hin.
  unfold well_shaped in Hshape. rewrite Forall_forall in Hshape, Hunit, Hpos.
  pose proof (Hshape _ Hin) as Hlen.
  exists (IZR (combinations row cs) * rate)%R. split.
  - rewrite <- Hlen. apply propensity_supplied; try assumption; [lia|].
    apply unit_supplied; [apply Hunit, Hin|lia].
  - apply Rmult_le_pos; [apply IZR_le, combinations_nonneg|].
    apply Hpos. eapply nth_error_In, Erate.
Qed.

(** * The event sampler *)

Lemma fold_plus_acc l : forall acc,
  fold_left Rplus l acc = (acc + fold_left Rplus l 0)%R.
Proof.
  induction l as [|x l IH]; intro acc; simpl; [lra|].
  rewrite (IH (acc + x)%R), (IH (0 + x)%R). lra.
Qed.

Lemma sum_cons x l : sum (x :: l) = (x + sum l)%R.
Proof. unfold sum. simpl. rewrite fold_plus_acc. lra. Qed.

Lemma sum_nonneg l : Forall (fun p => (0 <= p)%R) l -> (0 <= sum l)%R.
Proof.
  induction 1 as [|x l Hx _ IH]; [unfold sum; simpl; lra|].
  rewrite sum_cons. lra.
Qed.

Lemma scan_first rest : forall N mu,
  (N <= sum rest)%R ->
  exists k, (k <= List.length rest)%nat /\
            scan N mu rest = Returned (mu + k)%nat /\
            (N - sum (firstn k rest) <= 0)%R /\
            forall j, (j < k)%nat -> (0 < N - sum (firstn j rest))%R.
Proof.
  induction rest as [|x rest IH]; intros N mu H.
  - exists 0%nat. unfold sum in *. simpl in *.
    destruct (Rlt_dec 0 N); [lra|].
    split; [lia|]. split; [f_equal; lia|]. split; [lra|intros; lia].
  - simpl scan. destruct (Rlt_dec 0 N) as [Hpos|Hneg].
    + rewrite sum_cons in H.
      destruct (IH (N - x)%R (S mu)) as (k & Hk & Hscan & Hle & Hlt); [lra|].
      exists (S k). split; [simpl; lia|]. split; [|split].
      * rewrite Hscan. f_equal. lia.
      * simpl firstn. rewrite sum_cons. lra.
      * intros [|j] Hj; [unfold sum; simpl; lra|].
        simpl firstn. rewrite sum_cons.
        specialize (Hlt j ltac:(lia)). lra.
    + exists 0%nat. split; [simpl; lia|]. split; [f_equal; lia|].
      split; [unfold sum; simpl; lra|intros; lia].
Qed.

Lemma next_values_first a r1 r2 :
  (0 < sum a)%R -> (0 < r2 < 1)%R ->
  exists mu,
    next_values (sum a) a r1 r2 =
      Returned (Fin (1 / sum a * ln (1 / r1)), mu) /\
    (mu < List.length a)%nat /\
    (r2 * sum a <= cumulative a mu)%R /\
    forall k, (k < mu)%nat -> (cumulative a k < r2 * sum a)%R.
Proof.
  intros Ha Hr. destruct a as [|x rest]; [unfold sum in Ha; simpl in Ha; lra|].
  unfold next_values. simpl cell_of. simpl bind. simpl tl.
  destruct (scan_first rest (N := r2 * sum (x :: rest) - x) 0) as
    (k & Hk & Hscan & Hle & Hlt).
  { rewrite sum_cons in *. nra. }
  exists k. rewrite Hscan. simpl bind.
  destruct (Req_dec_T (sum (x :: rest)) 0) as [E|_]; [lra|].
  split; [reflexivity|]. split; [simpl; lia|]. split.
  - unfold cumulative. simpl firstn. rewrite (sum_cons x (firstn k rest)). lra.
  - intros j Hj. unfold cumulative. simpl firstn.
    rewrite (sum_cons x (firstn j rest)). specialize (Hlt j Hj). lra.
Qed.

(** * The simulation engine *)

Lemma nth_error_set_nth_eq (A : Type) (l : list A) : forall k v,
  (k < List.length l)%nat -> nth_error (Py.set_nth k v l) k = Some v.
Proof.
  induction l as [|a l IH]; intros [|k] v H; simpl in *; try lia.
  - reflexivity.
  - apply IH. lia.
Qed.

Lemma nth_error_set_nth_neq (A : Type) (l : list A) : forall k j v,
  j <> k -> nth_error (Py.set_nth k v l) j = nth_error l j.
Proof.
  induction l as [|a l IH]; intros [|k] [|j] v H; simpl; try reflexivity.
  - congruence.
  - apply IH. congruence.
Qed.

Lemma store_nat_returned (A : Type) (l l' : list A) k v :
  Py.store l (Z.of_nat k) v = Returned l' ->
  (k < List.length l)%nat /\ l' = Py.set_nth k v l.
Proof.
  intro Hs. unfold Py.store in Hs.
  destruct (Z.ltb_spec (Z.of_nat k) 0); [lia|].
  destruct (Z.leb_spec 0 (Z.of_nat k)); [|lia].
  destruct (Z.ltb_spec (Z.of_nat k) (Z.of_nat (List.length l)));
    simpl in Hs; [|discriminate].
  rewrite Nat2Z.id in Hs. injection Hs as <-. split; [lia|reflexivity].
Qed.

Lemma map2_length (A B C : Type) (f : A -> B -> C) xs : forall ys,
  List.length xs = List.length ys ->
  List.length (map2 f xs ys) = List.length xs.
Proof.
  induction xs as [|x xs IH]; intros [|y ys] H; simpl in *; try lia.
  f_equal. apply IH. lia.
Qed.

Lemma bzip_same (A B C : Type) (f : A -> B -> C) xs ys :
  List.length xs = List.length ys -> bzip f xs ys = map2 f xs ys.
Proof. intro H. unfold bzip. rewrite H, Nat.eqb_refl. reflexivity. Qed.

Lemma map2_fst (A : Type) (xs : list A) : forall n,
  List.length xs = n -> map2 (fun x (_ : unit) => x) xs (repeat tt n) = xs.
Proof.
  induction xs as [|x xs IH]; intros [|n] H; simpl in *; try lia;
    [reflexivity|].
  f_equal. apply IH. lia.
Qed.

Lemma broadcast_same n : broadcast n n = Some n.
Proof. unfold broadcast. rewrite Nat.eqb_refl. reflexivity. Qed.

Lemma store_row_same store ns n cs :
  List.length cs = ns -> (n < List.length store)%nat ->
  store_row store ns n cs = Returned (Py.set_nth n cs store).
Proof.
  intros Hcs Hn. unfold store_row. rewrite Hcs, broadcast_same, Nat.eqb_refl.
  rewrite store_nat by exact Hn.
  rewrite bzip_same by (rewrite repeat_length; exact Hcs).
  rewrite map2_fst by exact Hcs. reflexivity.
Qed.

Lemma store_row_returned store ns n cs m :
  List.length cs = ns -> store_row store ns n cs = Returned m ->
  (n < List.length store)%nat /\ m = Py.set_nth n cs store.
Proof.
  intros Hcs H. unfold store_row in H.
  rewrite Hcs, broadcast_same, Nat.eqb_refl in H.
  rewrite bzip_same in H by (rewrite repeat_length; exact Hcs).
  rewrite map2_fst in H by exact Hcs.
  apply store_nat_returned in H. exact H.
Qed.

Lemma iadd_same cs delta :
  List.length delta = List.length cs ->
  iadd cs delta = Returned (map2 Z.add cs delta).
Proof.
  intro H. unfold iadd. rewrite H, broadcast_same, Nat.eqb_refl.
  rewrite bzip_same by congruence. reflexivity.
Qed.

Lemma dot_add v : forall x d,
  List.length d = List.length x ->
  dot v (map2 Z.add x d) = (dot v x + dot v d)%Z.
Proof.
  induction v as [|a v IH]; intros [|b x] [|c d] H; simpl in *; try lia.
  rewrite IH by lia. ring.
Qed.

Lemma next_values_stalled x rest r1 r2 :
  sum (x :: rest) = 0%R -> (0 <= x)%R ->
  next_values (sum (x :: rest)) (x :: rest) r1 r2 = Returned (PInf, 0%nat).
Proof.
  intros H0 Hx. unfold next_values. rewrite H0. simpl cell_of. simpl bind.
  destruct (Req_dec_T 0 0) as [_|E]; [|congruence].
  destruct rest as [|y rest]; simpl scan;
    (destruct (Rlt_dec 0 (r2 * 0 - x)); [lra|reflexivity]).
Qed.

(** What a round of the loop does to the variables. *)
Lemma step_returned rates sub_stoch stoch r1 r2 nsyn e e' :
  well_shaped stoch ->
  List.length (current_species e) = ncols stoch ->
  step rates sub_stoch stoch r1 r2 (List.length (rows stoch)) (ncols stoch)
    nsyn e = Returned e' ->
  exists dt mu delta,
    nth_error (rows stoch) mu = Some delta /\
    List.length delta = ncols stoch /\
    (S (n_counter e) < List.length (store_time e))%nat /\
    (S (n_counter e) < List.length (store_number_molecules e))%nat /\
    (n_counter e < List.length (store_time_difference e))%nat /\
    e' = Engine (xadd (current_time e) dt)
           (map2 Z.add (current_species e) delta)
           (S (n_counter e))
           (Py.set_nth (S (n_counter e)) (xadd (current_time e) dt)
              (store_time e))
           (Py.set_nth (S (n_counter e))
              (map2 Z.add (current_species e) delta)
              (store_number_molecules e))
           (Py.set_nth (n_counter e) (repeat dt nsyn)
              (store_time_difference e)).
Proof.
  intros stoch_shaped Hcs H. unfold step in H.
  apply bind_returned in H. destruct H as (a & _ & H).
  apply bind_returned in H. destruct H as (r1n & _ & H).
  apply bind_returned in H. destruct H as (r2n & _ & H).
  apply bind_returned in H. destruct H as ([dt mu] & _ & H).
  apply bind_returned in H. destruct H as (diffs & Hd & H).
  apply bind_returned in H. destruct H as (delta & Hdelta & H).
  apply bind_returned in H. destruct H as (species & Hsp & H).
  apply bind_returned in H. destruct H as (times & Ht & H).
  apply bind_returned in H. destruct H as (mols & Hm & H).
  apply cell_of_returned in Hdelta.
  assert (Hlen : List.length delta = ncols stoch).
  { unfold well_shaped in stoch_shaped. rewrite Forall_forall in stoch_shaped.
    apply stoch_shaped. eapply nth_error_In, Hdelta. }
  rewrite iadd_same in Hsp by congruence. injection Hsp as <-.
  apply store_nat_returned in Hd. destruct Hd as [Hd1 ->].
  apply store_nat_returned in Ht. destruct Ht as [Ht1 ->].
  apply store_row_returned in Hm;
    [|rewrite map2_length; congruence].
  destruct Hm as [Hm1 ->].
  exists dt, mu, delta. injection H as <-. repeat split; assumption.
Qed.

Lemma step_counter rates sub_stoch stoch r1 r2 nr ns nsyn e e' :
  step rates sub_stoch stoch r1 r2 nr ns nsyn e = Returned e' ->
  n_counter e' = S (n_counter e).
Proof.
  intro H. unfold step in H.
  repeat first
    [ apply bind_returned in H; destruct H as (? & _ & H)
    | match goal with p : (xreal * nat)%type |- _ => destruct p end ].
  injection H as <-. reflexivity.
Qed.

Section Loop.

Variables (rates : list R) (sub_stoch stoch : matrix).
Variables (tmax : R) (n_max : nat) (r1 r2 : list R) (nsyn : nat).
Hypothesis stoch_shaped : well_shaped stoch.

Lemma step_sized e e' :
  sized stoch n_max e ->
  step rates sub_stoch stoch r1 r2 (List.length (rows stoch)) (ncols stoch)
    nsyn e = Returned e' ->
  sized stoch n_max e'.
Proof.
  intros (H1 & H2 & H3 & Hcs) H.
  destruct (@step_returned rates sub_stoch stoch r1 r2 nsyn e e' stoch_shaped Hcs H) as
    (dt & mu & delta & _ & Hlen & _ & _ & _ & ->).
  unfold sized. fields. rewrite !set_nth_length, map2_length by congruence.
  tauto.
Qed.

Lemma step_stamped e e' :
  sized stoch n_max e -> stamped tmax e -> running tmax n_max e = true ->
  step rates sub_stoch stoch r1 r2 (List.length (rows stoch)) (ncols stoch)
    nsyn e = Returned e' ->
  stamped tmax e'.
Proof.
  intros (_ & _ & _ & Hcs) [Hlast Hbelow] Hrun H.
  destruct (@step_returned rates sub_stoch stoch r1 r2 nsyn e e' stoch_shaped Hcs H) as
    (dt & mu & delta & _ & _ & Ht & _ & _ & ->).
  unfold stamped. fields. split.
  - apply nth_error_set_nth_eq, Ht.
  - intros k Hk. rewrite nth_error_set_nth_neq by lia.
    destruct (Nat.eq_dec k (n_counter e)) as [->|Hne].
    + exists (current_time e). split; [exact Hlast|].
      unfold running in Hrun. apply andb_prop in Hrun. tauto.
    + apply Hbelow. lia.
Qed.

Lemma step_conserved v total e e' :
  Forall (fun delta => dot v delta = 0%Z) (rows stoch) ->
  sized stoch n_max e -> conserved v total e ->
  step rates sub_stoch stoch r1 r2 (List.length (rows stoch)) (ncols stoch)
    nsyn e = Returned e' ->
  conserved v total e'.
Proof.
  intros Hclosed (_ & _ & _ & Hcs) [Hnow Hrows] H.
  destruct (@step_returned rates sub_stoch stoch r1 r2 nsyn e e' stoch_shaped Hcs H) as
    (dt & mu & delta & Hdelta & Hlen & _ & Hm & _ & ->).
  assert (Hdot : dot v (map2 Z.add (current_species e) delta) = total).
  { rewrite dot_add by congruence. rewrite Forall_forall in Hclosed.
    rewrite (Hclosed delta) by (eapply nth_error_In, Hdelta). lia. }
  unfold conserved. fields. split; [exact Hdot|].
  intros k Hk. destruct (Nat.eq_dec k (S (n_counter e))) as [->|Hne].
  - rewrite nth_error_set_nth_eq by exact Hm. eauto.
  - rewrite nth_error_set_nth_neq by exact Hne. apply Hrows. lia.
Qed.

(** The loop keeps what every round keeps, and ends with its condition
    false. *)
Lemma run_keeps (P : engine -> Prop) :
  (forall e e', sized stoch n_max e -> P e -> running tmax n_max e = true ->
                step rates sub_stoch stoch r1 r2 (List.length (rows stoch))
                  (ncols stoch) nsyn e = Returned e' -> P e') ->
  forall fuel e e',
    sized stoch n_max e -> P e ->
    run rates sub_stoch stoch tmax n_max r1 r2 (List.length (rows stoch))
      (ncols stoch) nsyn fuel e = Returned e' ->
    sized stoch n_max e' /\ P e' /\ running tmax n_max e' = false.
Proof.
  intros Hstep. induction fuel as [|fuel IH]; intros e e' Hs HP H;
    simpl in H; destruct (running tmax n_max e) eqn:Hrun; try discriminate.
  - injection H as <-. auto.
  - apply bind_returned in H. destruct H as (e1 & H1 & H).
    apply (IH e1); [eapply step_sized; eassumption| |exact H].
    eapply Hstep; eassumption.
  - injection H as <-. auto.
Qed.

End Loop.

(** ** The budget of rounds *)


Lemma genuine_bind (A B : Type) (m : result A) (k : A -> result B) :
  genuine m -> (forall a, genuine (k a)) -> genuine (bind m k).
Proof.
  unfold genuine. destruct m as [a|e]; simpl; intros H K; [apply K|].
  intro E. apply H. congruence.
Qed.

Lemma genuine_returned (A : Type) (a : A) : genuine (Returned a).
Proof. discriminate. Qed.

Lemma genuine_cell_of (A : Type) (l : list A) k : genuine (cell_of l k).
Proof. unfold cell_of. destruct (nth_error l k); discriminate. Qed.

Lemma genuine_store (A : Type) (l : list A) i v : genuine (Py.store l i v).
Proof. unfold Py.store. destruct (_ && _); discriminate. Qed.

Lemma genuine_index (A : Type) (l : list A) i : genuine (Py.index l i).
Proof.
  unfold Py.index. destruct (_ && _); [|discriminate].
  destruct (nth_error _ _); discriminate.
Qed.

Lemma genuine_for_each (A : Type) (body : A -> nat -> result A) js :
  (forall acc j, genuine (body acc j)) ->
  forall acc, genuine (for_each js body acc).
Proof.
  intro H. induction js as [|j js IH]; intro acc; simpl;
    [apply genuine_returned|].
  apply genuine_bind; [apply H|exact IH].
Qed.

Lemma genuine_collect (A : Type) (body : nat -> result A) indices :
  (forall i, genuine (body i)) -> genuine (collect indices body).
Proof.
  intro H. induction indices as [|i indices IH]; simpl;
    [apply genuine_returned|].
  apply genuine_bind; [apply H|]. intro x.
  apply genuine_bind; [exact IH|]. intro xs. apply genuine_returned.
Qed.

Lemma genuine_calculate_hi n m : genuine (calculate_hi n m).
Proof.
  unfold calculate_hi. apply genuine_bind; [apply genuine_store|]. intro b.
  apply genuine_bind; [apply genuine_index|]. intro bm. apply genuine_returned.
Qed.

Lemma genuine_propensities sub_stoch rates cs nr ns :
  genuine (propensities sub_stoch rates cs nr ns).
Proof.
  unfold propensities. apply genuine_collect. intro i. unfold propensity.
  apply genuine_bind.
  - apply genuine_for_each. intros hi j. unfold hi_body.
    apply genuine_bind.
    + unfold entry. apply genuine_bind; [apply genuine_cell_of|].
      intro row. apply genuine_cell_of.
    + intro s. destruct (s =? 0)%Z; [apply genuine_returned|].
      apply genuine_bind; [apply genuine_cell_of|]. intro n.
      destruct (n <=? 0)%Z; [apply genuine_returned|].
      apply genuine_bind; [apply genuine_calculate_hi|]. intro x.
      apply genuine_returned.
  - intro hi. apply genuine_bind; [apply genuine_cell_of|]. intro rate.
    apply genuine_returned.
Qed.

Lemma genuine_scan rest : forall N mu, genuine (scan N mu rest).
Proof.
  induction rest as [|x rest IH]; intros N mu; simpl;
    destruct (Rlt_dec 0 N); try discriminate. apply IH.
Qed.

Lemma genuine_next_values a0 a r1 r2 : genuine (next_values a0 a r1 r2).
Proof.
  unfold next_values. apply genuine_bind; [apply genuine_cell_of|]. intro x.
  apply genuine_bind; [apply genuine_scan|]. intro mu. apply genuine_returned.
Qed.

Lemma genuine_iadd cs delta : genuine (iadd cs delta).
Proof.
  unfold iadd. destruct (broadcast _ _); [|discriminate].
  destruct (_ =? _)%nat; discriminate.
Qed.

Lemma genuine_store_row store ns n cs : genuine (store_row store ns n cs).
Proof.
  unfold store_row. destruct (broadcast _ _); [|discriminate].
  destruct (_ =? _)%nat; [apply genuine_store|discriminate].
Qed.

Lemma genuine_step rates sub_stoch stoch r1 r2 nr ns nsyn e :
  genuine (step rates sub_stoch stoch r1 r2 nr ns nsyn e).
Proof.
  unfold step.
  apply genuine_bind; [apply genuine_propensities|]. intro a.
  apply genuine_bind; [apply genuine_cell_of|]. intro r1n.
  apply genuine_bind; [apply genuine_cell_of|]. intro r2n.
  apply genuine_bind.
  { destruct a; [discriminate|apply genuine_next_values]. }
  intros [dt mu].
  apply genuine_bind; [apply genuine_store|]. intro d.
  apply genuine_bind; [apply genuine_cell_of|]. intro delta.
  apply genuine_bind; [apply genuine_iadd|]. intro sp.
  apply genuine_bind; [apply genuine_store|]. intro t.
  apply genuine_bind; [apply genuine_store_row|]. intro m.
  apply genuine_returned.
Qed.

(** The loop ends within [n_max - 1 - n_counter] rounds. *)
Lemma run_fuel rates sub_stoch stoch tmax n_max r1 r2 nsyn :
  forall fuel e,
    (n_max - 1 - n_counter e <= fuel)%nat ->
    genuine (run rates sub_stoch stoch tmax n_max r1 r2
               (List.length (rows stoch)) (ncols stoch) nsyn fuel e).
Proof.
  induction fuel as [|fuel IH]; intros e Hf; simpl;
    destruct (running tmax n_max e) eqn:Hrun; try apply genuine_returned.
  - unfold running in Hrun. apply andb_prop in Hrun. destruct Hrun as [_ Hn].
    apply Nat.ltb_lt in Hn. lia.
  - destruct (step rates sub_stoch stoch r1 r2 (List.length (rows stoch))
                (ncols stoch) nsyn e) as [e1|err] eqn:Hstep; simpl.
    + apply IH. pose proof Hstep as Hc. apply step_counter in Hc. lia.
    + pose proof (@genuine_step rates sub_stoch stoch r1 r2
                    (List.length (rows stoch)) (ncols stoch) nsyn e) as G.
      rewrite Hstep in G. exact G.
Qed.

(** ** The sum of the two stoichiometry matrices *)

Lemma bzip_length (A B C : Type) (f : A -> B -> C) xs ys c :
  broadcast (List.length xs) (List.length ys) = Some c ->
  List.length (bzip f xs ys) = c.
Proof.
  unfold broadcast, bzip.
  destruct (Nat.eqb_spec (List.length xs) (List.length ys)) as [E|E].
  - intro H. injection H as <-. apply map2_length, E.
  - destruct (Nat.eqb_spec (List.length xs) 1) as [E1|E1].
    + intro H. injection H as <-.
      destruct xs as [|x [|x' xs]]; try discriminate. apply length_map.
    + destruct (Nat.eqb_spec (List.length ys) 1) as [E2|E2]; [|discriminate].
      intro H. injection H as <-.
      destruct ys as [|y [|y' ys]]; try discriminate.
      destruct xs as [|x [|x' xs]]; simpl in *; try lia; try reflexivity.
      f_equal. f_equal. apply length_map.
Qed.

Lemma map2_in (A B C : Type) (f : A -> B -> C) z xs : forall ys,
  In z (map2 f xs ys) -> exists x y, In x xs /\ In y ys /\ z = f x y.
Proof.
  induction xs as [|x xs IH]; intros [|y ys] H; simpl in H; try contradiction.
  destruct H as [<-|H].
  - exists x, y. simpl. auto.
  - destruct (IH _ H) as (x' & y' & ? & ? & ?). exists x', y'. simpl. auto.
Qed.

Lemma bzip_in (A B C : Type) (f : A -> B -> C) z xs ys :
  In z (bzip f xs ys) -> exists x y, In x xs /\ In y ys /\ z = f x y.
Proof.
  unfold bzip. destruct (_ =? _)%nat; [apply map2_in|].
  destruct xs as [|x [|x' xs]].
  - destruct ys as [|y [|y' ys]]; simpl; contradiction.
  - intro H. apply in_map_iff in H. destruct H as (y & <- & Hy).
    exists x, y. simpl. auto.
  - destruct ys as [|y [|y' ys]]; try contradiction.
    intro H. apply in_map_iff in H. destruct H as (x0 & <- & Hx).
    exists x0, y. simpl. auto.
Qed.

Lemma mat_add_shaped m1 m2 stoch :
  well_shaped m1 -> well_shaped m2 -> mat_add m1 m2 = Returned stoch ->
  well_shaped stoch.
Proof.
  unfold well_shaped, mat_add. intros H1 H2 H.
  destruct (broadcast (List.length (rows m1)) (List.length (rows m2)));
    [|discriminate].
  destruct (broadcast (ncols m1) (ncols m2)) as [c|] eqn:Ec; [|discriminate].
  injection H as <-. simpl. apply Forall_forall. intros row Hin.
  apply bzip_in in Hin. destruct Hin as (x & y & Hx & Hy & ->).
  rewrite Forall_forall in H1, H2.
  apply bzip_length. rewrite (H1 _ Hx), (H2 _ Hy). exact Ec.
Qed.

Lemma mat_add_same m1 m2 :
  List.length (rows m1) = List.length (rows m2) -> ncols m1 = ncols m2 ->
  exists stoch,
    mat_add m1 m2 = Returned stoch /\
    ncols stoch = ncols m1 /\
    List.length (rows stoch) = List.length (rows m1).
Proof.
  intros Hr Hc. unfold mat_add. rewrite Hr, Hc, !broadcast_same.
  eexists. split; [reflexivity|]. simpl. split; [reflexivity|].
  rewrite bzip_same by exact Hr. rewrite map2_length; congruence.
Qed.

(** ** A round on a valid input *)

Section Valid.

Variables (rates : list R) (sub_stoch stoch : matrix).
Variables (tmax : R) (n_max : nat) (r1 r2 : list R).
Variables (number_synapses : nat).

Hypothesis stoch_shaped : well_shaped stoch.
Hypothesis sub_shaped : well_shaped sub_stoch.
Hypothesis units :
  Forall (Forall (fun m => (-1 <= m <= 1)%Z)) (rows sub_stoch).
Hypothesis rates_sized : List.length rates = List.length (rows sub_stoch).
Hypothesis rates_pos : Forall (fun c => (0 <= c)%R) rates.
Hypothesis rows_same : List.length (rows sub_stoch) = List.length (rows stoch).
Hypothesis cols_same : ncols sub_stoch = ncols stoch.
Hypothesis reactions : rows stoch <> [].
Hypothesis r1_sized : List.length r1 = n_max.
Hypothesis r2_sized : List.length r2 = n_max.
Hypothesis r2_unit : Forall (fun r => (0 < r < 1)%R) r2.


Lemma step_total e :
  sized stoch n_max e -> running tmax n_max e = true ->
  exists e', step rates sub_stoch stoch r1 r2 (List.length (rows stoch))
               (ncols stoch) number_synapses e = Returned e'.
Proof.
  intros (Ht & Hm & Hd & Hcs) Hrun.
  unfold running in Hrun. apply andb_prop in Hrun. destruct Hrun as [_ Hn].
  apply Nat.ltb_lt in Hn.
  destruct (@propensities_unit sub_stoch rates (current_species e))
    as (a & Ha & Hlen & Hpos); try assumption; [congruence|].
  rewrite rows_same, cols_same in Ha.
  destruct (nth_error r1 (n_counter e)) as [r1n|] eqn:E1;
    [|apply nth_error_None in E1; lia].
  destruct (nth_error r2 (n_counter e)) as [r2n|] eqn:E2;
    [|apply nth_error_None in E2; lia].
  assert (Hr2 : (0 < r2n < 1)%R).
  { rewrite Forall_forall in r2_unit. apply r2_unit.
    eapply nth_error_In, E2. }
  assert (Hnext : exists dt mu,
             next_values (sum a) a r1n r2n = Returned (dt, mu) /\
             (mu < List.length a)%nat).
  { destruct a as [|x rest].
    - simpl in Hlen. destruct (rows stoch); [congruence|].
      rewrite rows_same in Hlen. discriminate.
    - pose proof (sum_nonneg Hpos) as Hsum.
      destruct (Rle_lt_or_eq_dec _ _ Hsum) as [Hgt|Heq].
      + destruct (@next_values_first (x :: rest) r1n r2n Hgt Hr2)
          as (mu & Hv & Hmu & _). eauto.
      + exists PInf, 0%nat. split; [|simpl; lia].
        symmetry in Heq. apply next_values_stalled; [exact Heq|].
        inversion Hpos; assumption. }
  destruct Hnext as (dt & mu & Hnext & Hmu).
  destruct (nth_error (rows stoch) mu) as [delta|] eqn:Edelta;
    [|apply nth_error_None in Edelta; lia].
  assert (Hdl : List.length delta = ncols stoch).
  { unfold well_shaped in stoch_shaped. rewrite Forall_forall in stoch_shaped.
    apply stoch_shaped. eapply nth_error_In, Edelta. }
  unfold step. rewrite Ha. cbn [bind].
  rewrite (cell_of_some _ _ E1), (cell_of_some _ _ E2). cbn [bind].
  assert (Hcall : match a with
                  | [] => Raised ZeroDivisionError
                  | _ :: _ => next_values (sum a) a r1n r2n
                  end = Returned (dt, mu)).
  { destruct a; [simpl in Hmu; lia|exact Hnext]. }
  rewrite Hcall. cbn [bind].
  rewrite store_nat by lia. cbn [bind].
  rewrite (cell_of_some _ _ Edelta). cbn [bind].
  rewrite iadd_same by congruence. cbn [bind].
  rewrite store_nat by lia. cbn [bind].
  rewrite store_row_same by (rewrite ?map2_length; congruence || lia).
  cbn [bind]. eauto.
Qed.

Lemma run_total : forall fuel e,
  sized stoch n_max e -> (n_max - 1 - n_counter e <= fuel)%nat ->
  exists e', run rates sub_stoch stoch tmax n_max r1 r2
               (List.length (rows stoch)) (ncols stoch) number_synapses
               fuel e = Returned e'.
Proof.
  induction fuel as [|fuel IH]; intros e Hs Hf; simpl;
    destruct (running tmax n_max e) eqn:Hrun; eauto.
  - unfold running in Hrun. apply andb_prop in Hrun. destruct Hrun as [_ Hn].
    apply Nat.ltb_lt in Hn. lia.
  - destruct (step_total Hs Hrun) as (e1 & H1).
    rewrite H1. simpl. apply IH.
    + eapply step_sized; eassumption.
    + pose proof H1 as Hc. apply step_counter in Hc. lia.
Qed.

End Valid.

(** ** A round, from what its steps give *)

Lemma step_fires rates sub_stoch stoch r1 r2 nr ns nsyn e a r1n r2n dt mu
  delta :
  propensities sub_stoch rates (current_species e) nr ns = Returned a ->
  a <> [] ->
  nth_error r1 (n_counter e) = Some r1n ->
  nth_error r2 (n_counter e) = Some r2n ->
  next_values (sum a) a r1n r2n = Returned (dt, mu) ->
  nth_error (rows stoch) mu = Some delta ->
  List.length delta = List.length (current_species e) ->
  List.length (current_species e) = ns ->
  (n_counter e < List.length (store_time_difference e))%nat ->
  (S (n_counter e) < List.length (store_time e))%nat ->
  (S (n_counter e) < List.length (store_number_molecules e))%nat ->
  step rates sub_stoch stoch r1 r2 nr ns nsyn e =
  Returned (Engine (xadd (current_time e) dt)
              (map2 Z.add (current_species e) delta)
              (S (n_counter e))
              (Py.set_nth (S (n_counter e)) (xadd (current_time e) dt)
                 (store_time e))
              (Py.set_nth (S (n_counter e))
                 (map2 Z.add (current_species e) delta)
                 (store_number_molecules e))
              (Py.set_nth (n_counter e) (repeat dt nsyn)
                 (store_time_difference e))).
Proof.
  intros Ha Hne E1 E2 Hnext Hdelta Hdl Hcs Hd Ht Hm.
  unfold step. rewrite Ha. cbn [bind].
  rewrite (cell_of_some _ _ E1), (cell_of_some _ _ E2). cbn [bind].
  destruct a as [|x rest]; [congruence|].
  rewrite Hnext. cbn [bind]. rewrite store_nat by exact Hd. cbn [bind].
  rewrite (cell_of_some _ _ Hdelta). cbn [bind].
  rewrite iadd_same by exact Hdl. cbn [bind].
  rewrite store_nat by exact Ht. cbn [bind].
  rewrite store_row_same by (rewrite ?map2_length; congruence || lia).
  reflexivity.
Qed.

(** The loop returns after a round that leaves its condition false. *)
Lemma run_last_round rates sub_stoch stoch tmax n_max r1 r2 nr ns nsyn
  fuel e e' :
  running tmax n_max e = true ->
  step rates sub_stoch stoch r1 r2 nr ns nsyn e = Returned e' ->
  running tmax n_max e' = false ->
  run rates sub_stoch stoch tmax n_max r1 r2 nr ns nsyn (S fuel) e =
  Returned e'.
Proof.
  intros Hrun Hstep Hstop. cbn [run]. rewrite Hrun, Hstep. cbn [bind].
  destruct fuel; cbn [run]; rewrite Hstop; reflexivity.
Qed.

(** ** A round with no propensity left *)


Lemma simulate_start init rates sub_stoch stoch tmax n_max r1 r2 :
  List.length init = ncols stoch -> (1 <= n_max)%nat ->
  simulate init rates sub_stoch stoch tmax n_max r1 r2 =
  run rates sub_stoch stoch tmax n_max r1 r2 (List.length (rows stoch))
    (ncols stoch) (synapses init) n_max
    (start init n_max (ncols stoch) (synapses init)).
Proof.
  intros Hinit Hn. unfold simulate.
  rewrite store_within by (rewrite repeat_length; lia). cbn [bind].
  change 0%nat with (Z.to_nat 0) at 1.
  rewrite (@store_row_same _ (ncols stoch) 0 init Hinit)
    by (rewrite repeat_length; lia).
  reflexivity.
Qed.

Lemma simulate_budget init rates sub_stoch stoch tmax n_max r1 r2 e :
  simulate init rates sub_stoch stoch tmax n_max r1 r2 = Returned e ->
  (1 <= n_max)%nat.
Proof.
  unfold simulate. intro H. apply bind_returned in H.
  destruct H as (times & Ht & _). destruct n_max; [discriminate Ht|lia].
Qed.

Lemma start_sized init stoch n_max nsyn :
  List.length init = ncols stoch ->
  sized stoch n_max (start init n_max (ncols stoch) nsyn).
Proof.
  intro H. unfold sized, start. fields.
  rewrite !set_nth_length, !repeat_length. tauto.
Qed.

Lemma start_stamped init tmax n_max ns nsyn :
  (1 <= n_max)%nat -> stamped tmax (start init n_max ns nsyn).
Proof.
  intro H. unfold stamped, start. fields. split; [|intros; lia].
  apply nth_error_set_nth_eq. rewrite repeat_length. lia.
Qed.

Lemma start_conserved v init n_max ns nsyn :
  (1 <= n_max)%nat -> conserved v (dot v init) (start init n_max ns nsyn).
Proof.
  intro H. unfold conserved, start. fields. split; [reflexivity|].
  intros k Hk. replace k with 0%nat by lia. exists init. split; [|reflexivity].
  apply nth_error_set_nth_eq. rewrite repeat_length. lia.
Qed.

Lemma in_firstn (A : Type) (x : A) : forall n l,
  In x (firstn n l) -> exists k, (k < n)%nat /\ nth_error l k = Some x.
Proof.
  induction n as [|n IH]; intros [|a l] H; simpl in H; try contradiction.
  destruct H as [<-|H].
  - exists 0%nat. split; [lia|reflexivity].
  - destruct (IH _ H) as (k & Hk & Hx). exists (S k). split; [lia|exact Hx].
Qed.


(** The statistics of a trajectory with at least one row. *)
Lemma coefficient_variation_total nsyn tracked w differences mol_cv time :
  broadcast nsyn tracked = Some w -> mol_cv <> [] ->
  exists cv, coefficient_variation nsyn tracked differences mol_cv time =
             Returned cv.
Proof.
  intros Hw Hne. unfold coefficient_variation. rewrite Hw.
  destruct mol_cv; [congruence|].
  destruct time; try (eexists; reflexivity).
  destruct (all_finite_rows differences); [|eexists; reflexivity].
  destruct (Req_dec_T x 0); eexists; reflexivity.
Qed.

(** ** The rounds of the loop, counted *)

Section Counted.

Variables (rates : list R) (sub_stoch stoch : matrix).
Variables (tmax : R) (n_max : nat) (r1 r2 : list R) (nr ns nsyn : nat).

Lemma rounds_snoc k : forall e0 e e',
  rounds rates sub_stoch stoch tmax n_max r1 r2 nr ns nsyn k e0 = Some e ->
  running tmax n_max e = true ->
  step rates sub_stoch stoch r1 r2 nr ns nsyn e = Returned e' ->
  rounds rates sub_stoch stoch tmax n_max r1 r2 nr ns nsyn (S k) e0 = Some e'.
Proof.
  induction k as [|k IH]; intros e0 e e' H Hrun Hstep.
  - cbn [rounds] in H. assert (e0 = e) by congruence. subst e0.
    cbn [rounds]. rewrite Hrun, Hstep. reflexivity.
  - cbn [rounds] in H. change (rounds rates sub_stoch stoch tmax n_max r1 r2 nr ns nsyn (S (S k)) e0)
      with (if running tmax n_max e0 then
              match step rates sub_stoch stoch r1 r2 nr ns nsyn e0 with
              | Returned e1 =>
                  rounds rates sub_stoch stoch tmax n_max r1 r2 nr ns nsyn
                    (S k) e1
              | Raised _ => None
              end
            else None).
    destruct (running tmax n_max e0); [|discriminate].
    destruct (step rates sub_stoch stoch r1 r2 nr ns nsyn e0) as [e1|];
      [|discriminate].
    exact (IH _ _ _ H Hrun Hstep).
Qed.



End Counted.


(** * The trajectory statistics *)

Lemma map2_repeat_left (A B C : Type) (f : A -> B -> C) d ys :
  map2 f (repeat d (List.length ys)) ys = map (f d) ys.
Proof. induction ys as [|y ys IH]; simpl; [reflexivity|]. f_equal. exact IH. Qed.

Lemma map2_repeat_right (A B C : Type) (f : A -> B -> C) c xs :
  map2 f xs (repeat c (List.length xs)) = map (fun x => f x c) xs.
Proof. induction xs as [|x xs IH]; simpl; [reflexivity|]. f_equal. exact IH. Qed.

Lemma bzip_repeat_left (A B C : Type) (f : A -> B -> C) d n ys :
  n = List.length ys \/ n = 1%nat ->
  bzip f (repeat d n) ys = map (f d) ys.
Proof.
  intros [->| ->].
  - rewrite bzip_same by apply repeat_length. apply map2_repeat_left.
  - unfold bzip. simpl.
    destruct ys as [|y [|y' ys]]; reflexivity.
Qed.

Lemma bzip_repeat_right (A B C : Type) (f : A -> B -> C) c n xs :
  n = List.length xs \/ n = 1%nat ->
  bzip f xs (repeat c n) = map (fun x => f x c) xs.
Proof.
  intros [->| ->].
  - rewrite bzip_same by (symmetry; apply repeat_length).
    apply map2_repeat_right.
  - unfold bzip. simpl.
    destruct xs as [|x [|x' xs]]; reflexivity.
Qed.

Lemma map2_nth (A B C : Type) (f : A -> B -> C) dx dy d s : forall xs ys,
  (s < List.length xs)%nat -> List.length xs = List.length ys ->
  nth s (map2 f xs ys) d = f (nth s xs dx) (nth s ys dy).
Proof.
  induction s as [|s IH]; intros [|x xs] [|y ys] Hs Hl; simpl in *;
    try lia; [reflexivity|].
  apply IH; lia.
Qed.

Lemma fold_rows_nth w s rows : forall acc,
  (s < w)%nat -> List.length acc = w ->
  Forall (fun r => List.length r = w) rows ->
  nth s (fold_left (map2 Rplus) rows acc) 0%R =
  (nth s acc 0 + fold_right (fun r t => nth s r 0 + t) 0 rows)%R.
Proof.
  induction rows as [|r rows IH]; intros acc Hs Hacc Hrows; simpl; [lra|].
  inversion Hrows; subst.
  rewrite IH; [|assumption|rewrite map2_length; congruence|assumption].
  rewrite map2_nth with (dx := 0%R) (dy := 0%R) by congruence. lra.
Qed.

Lemma sum_rows_nth w s rows :
  (s < w)%nat -> Forall (fun r => List.length r = w) rows ->
  nth s (sum_rows w rows) 0%R = fold_right (fun r t => nth s r 0 + t)%R 0%R rows.
Proof.
  intros Hs Hrows. unfold sum_rows.
  rewrite fold_rows_nth with (w := w);
    [|assumption|apply repeat_length|assumption].
  rewrite nth_repeat. lra.
Qed.

Lemma sum_rows_length w rows :
  Forall (fun r => List.length r = w) rows ->
  List.length (sum_rows w rows) = w.
Proof.
  unfold sum_rows. generalize (repeat_length 0%R w).
  generalize (repeat 0%R w) as acc. induction rows as [|r rows IH];
    intros acc Hacc Hrows; simpl; [exact Hacc|].
  inversion Hrows; subst. apply IH; [|assumption].
  rewrite map2_length; congruence.
Qed.

Lemma all_finite_repeat d n : all_finite (repeat (Fin d) n) = Some (repeat d n).
Proof. induction n as [|n IH]; simpl; [reflexivity|]. rewrite IH. reflexivity. Qed.

Lemma all_finite_rows_waits waits n :
  all_finite_rows (map (fun d => repeat (Fin d) n) waits) =
  Some (map (fun d => repeat d n) waits).
Proof.
  induction waits as [|d waits IH]; simpl; [reflexivity|].
  rewrite all_finite_repeat, IH. reflexivity.
Qed.

Lemma nth_map_in (A B : Type) (f : A -> B) l s d d' :
  (s < List.length l)%nat -> nth s (map f l) d = f (nth s l d').
Proof.
  intro H. rewrite nth_indep with (d' := f d') by (rewrite length_map; exact H).
  apply map_nth.
Qed.

Lemma sum_steps_map (f : R -> R -> R) (A : Type) (g : A -> R) :
  forall waits l,
    sum_steps f waits (map g l) =
    fold_right (fun p t => f (fst p) (g (snd p)) + t)%R 0%R (combine waits l).
Proof.
  induction waits as [|d waits IH]; intros [|x l]; simpl; try reflexivity.
  rewrite IH. reflexivity.
Qed.

Lemma sum_steps_nonneg (f : R -> R -> R) :
  (forall d v, (0 <= d)%R -> (0 <= f d v)%R) ->
  forall waits values,
    Forall (fun d => (0 <= d)%R) waits -> (0 <= sum_steps f waits values)%R.
Proof.
  intros Hf. induction waits as [|d waits IH]; intros [|v values] H; simpl;
    try lra.
  inversion H; subst. specialize (IH values ltac:(assumption)).
  specialize (Hf d v ltac:(assumption)). lra.
Qed.

Section Statistics.

Variables (nsyn tracked : nat) (total : R).
Hypothesis fit : nsyn = tracked \/ nsyn = 1%nat.

Lemma rows_right_length (c : R -> R) : forall waits m,
  List.length waits = List.length m ->
  Forall (fun row => List.length row = tracked) m ->
  Forall (fun r => List.length r = tracked)
    (map2 (bzip Rmult) m (map (fun d => repeat (c d) nsyn) waits)).
Proof.
  induction waits as [|d waits IH]; intros [|row m] Hl Hv;
    simpl in Hl; try lia; [constructor|].
  inversion Hv as [|? ? Hrow Hrest]. cbn [map map2].
  rewrite bzip_repeat_right
    by (destruct fit; [left; congruence|right; assumption]).
  constructor; [rewrite length_map; exact Hrow|apply IH; [lia|exact Hrest]].
Qed.

Lemma rows_left_length : forall waits m,
  List.length waits = List.length m ->
  Forall (fun row => List.length row = tracked) m ->
  Forall (fun r => List.length r = tracked)
    (map2 (bzip Rmult) (map (fun d => repeat d nsyn) waits) m).
Proof.
  induction waits as [|d waits IH]; intros [|row m] Hl Hv;
    simpl in Hl; try lia; [constructor|].
  inversion Hv as [|? ? Hrow Hrest]. cbn [map map2].
  rewrite bzip_repeat_left
    by (destruct fit; [left; congruence|right; assumption]).
  constructor; [rewrite length_map; exact Hrow|apply IH; [lia|exact Hrest]].
Qed.

Lemma weighted_rows_right (c : R -> R) s : forall waits m,
  (s < tracked)%nat ->
  List.length waits = List.length m ->
  Forall (fun row => List.length row = tracked) m ->
  Forall (fun r => List.length r = tracked)
    (map2 (bzip Rmult) m (map (fun d => repeat (c d) nsyn) waits)) /\
  fold_right (fun r t => nth s r 0 + t)%R 0%R
    (map2 (bzip Rmult) m (map (fun d => repeat (c d) nsyn) waits)) =
  sum_steps (fun d v => v * c d)%R waits (map (fun r => nth s r 0%R) m).
Proof.
  induction waits as [|d waits IH]; intros [|row m] Hs Hl Hv;
    simpl in Hl; try lia.
  - simpl. split; [constructor|reflexivity].
  - inversion Hv as [|? ? Hrow Hrest]; subst.
    destruct (IH m Hs ltac:(lia) Hrest) as [IH1 IH2].
    cbn [map map2].
    rewrite bzip_repeat_right
      by (destruct fit; [left; congruence|right; assumption]).
    split.
    + constructor; [rewrite length_map; reflexivity|exact IH1].
    + cbn [fold_right sum_steps map]. f_equal; [|exact IH2].
      apply (@nth_map_in _ _ (fun x => (x * c d)%R)). lia.
Qed.

Lemma weighted_rows_left s : forall waits m,
  (s < tracked)%nat ->
  List.length waits = List.length m ->
  Forall (fun row => List.length row = tracked) m ->
  Forall (fun r => List.length r = tracked)
    (map2 (bzip Rmult) (map (fun d => repeat d nsyn) waits) m) /\
  fold_right (fun r t => nth s r 0 + t)%R 0%R
    (map2 (bzip Rmult) (map (fun d => repeat d nsyn) waits) m) =
  sum_steps (fun d v => d * v)%R waits (map (fun r => nth s r 0%R) m).
Proof.
  induction waits as [|d waits IH]; intros [|row m] Hs Hl Hv;
    simpl in Hl; try lia.
  - simpl. split; [constructor|reflexivity].
  - inversion Hv as [|? ? Hrow Hrest]; subst.
    destruct (IH m Hs ltac:(lia) Hrest) as [IH1 IH2].
    cbn [map map2].
    rewrite bzip_repeat_left
      by (destruct fit; [left; congruence|right; assumption]).
    split.
    + constructor; [rewrite length_map; reflexivity|exact IH1].
    + cbn [fold_right sum_steps map]. f_equal; [|exact IH2].
      apply (@nth_map_in _ _ (Rmult d)). lia.
Qed.

End Statistics.

Lemma column_reals s values tracked :
  (s < tracked)%nat ->
  Forall (fun row : list Z => List.length row = tracked) values ->
  map (fun r => nth s r 0%R) (map (map IZR) values) = column s values.
Proof.
  intros Hs Hv. unfold column. rewrite map_map. apply map_ext_in.
  intros row Hin. rewrite Forall_forall in Hv.
  apply nth_map_in. rewrite (Hv _ Hin). exact Hs.
Qed.

Lemma sum_steps_ext (f g : R -> R -> R) :
  (forall d v, f d v = g d v) ->
  forall waits values, sum_steps f waits values = sum_steps g waits values.
Proof.
  intro H. induction waits as [|d waits IH]; intros [|v values]; simpl;
    try reflexivity. rewrite H, IH. reflexivity.
Qed.

Lemma cv_finite_length nsyn tracked total waits values :
  nsyn = tracked \/ nsyn = 1%nat ->
  List.length waits = List.length values ->
  Forall (fun row => List.length row = tracked) values ->
  List.length (cv_finite tracked (map (fun d => repeat d nsyn) waits)
                 (map (map IZR) values) total) = tracked.
Proof.
  intros Hfit Hl Hv.
  assert (Hm : Forall (fun row => List.length row = tracked)
                 (map (map IZR) values)).
  { apply Forall_map. eapply Forall_impl; [|exact Hv].
    intros row Hrow. rewrite length_map. exact Hrow. }
  assert (Hlm : List.length waits = List.length (map (map IZR) values))
    by (rewrite length_map; exact Hl).
  assert (Havg : List.length
            (map (fun x => (x / total)%R)
               (sum_rows tracked
                  (map2 (bzip Rmult) (map (fun d => repeat d nsyn) waits)
                     (map (map IZR) values)))) = tracked).
  { rewrite length_map. apply sum_rows_length.
    apply (rows_left_length Hfit); assumption. }
  assert (Hw : map (map (fun x => (x / total)%R))
                 (map (fun d => repeat d nsyn) waits) =
               map (fun d => repeat (d / total)%R nsyn) waits).
  { rewrite map_map. apply map_ext. intro d. rewrite map_repeat.
    reflexivity. }
  unfold cv_finite. rewrite Hw.
  set (average := map (fun x => (x / total)%R)
                    (sum_rows tracked
                       (map2 (bzip Rmult) (map (fun d => repeat d nsyn) waits)
                          (map (map IZR) values)))) in *.
  assert (Hrows : Forall (fun r => List.length r = tracked)
            (map2 (bzip Rmult)
               (map (fun row => map (fun x => (x ^ 2)%R)
                                  (bzip Rminus row average))
                  (map (map IZR) values))
               (map (fun d => repeat (d / total)%R nsyn) waits))).
  { apply (rows_right_length Hfit (fun d => (d / total)%R)).
    - rewrite !length_map. exact Hl.
    - apply Forall_map. eapply Forall_impl; [|exact Hm].
      intros row Hrow. cbv beta.
      rewrite length_map, bzip_same by congruence.
      rewrite map2_length; congruence. }
  rewrite map2_length; rewrite sum_rows_length by exact Hrows; congruence.
Qed.

(** The two sums of [cv_finite] for species [s]. *)
Lemma cv_finite_cell nsyn tracked total waits values s :
  nsyn = tracked \/ nsyn = 1%nat ->
  (s < tracked)%nat ->
  List.length waits = List.length values ->
  Forall (fun row => List.length row = tracked) values ->
  List.length (cv_finite tracked (map (fun d => repeat d nsyn) waits)
                 (map (map IZR) values) total) = tracked /\
  nth s (cv_finite tracked (map (fun d => repeat d nsyn) waits)
           (map (map IZR) values) total) NaN =
  cv_cell
    (sum_steps (fun d v =>
                  (v - weighted_mean waits (column s values) total) ^ 2
                  * (d / total))%R waits (column s values))
    (weighted_mean waits (column s values) total).
Proof.
  intros Hfit Hs Hl Hv.
  assert (Hm : Forall (fun row => List.length row = tracked)
                 (map (map IZR) values)).
  { apply Forall_map. eapply Forall_impl; [|exact Hv].
    intros row Hrow. rewrite length_map. exact Hrow. }
  assert (Hlm : List.length waits = List.length (map (map IZR) values))
    by (rewrite length_map; exact Hl).
  unfold cv_finite.
  set (average := map (fun x => (x / total)%R)
                    (sum_rows tracked
                       (map2 (bzip Rmult) (map (fun d => repeat d nsyn) waits)
                          (map (map IZR) values)))).
  assert (Havg_len : List.length average = tracked).
  { unfold average. rewrite length_map. apply sum_rows_length.
    apply (weighted_rows_left Hfit (s := s)); assumption. }
  assert (Havg : forall j, (j < tracked)%nat ->
            nth j average 0%R = weighted_mean waits (column j values) total).
  { intros j Hj. unfold average.
    rewrite (@nth_map_in _ _ (fun x => (x / total)%R) _ j 0%R 0%R)
      by (rewrite sum_rows_length;
          [exact Hj|apply (weighted_rows_left Hfit (s := j)); assumption]).
    destruct (weighted_rows_left Hfit (s := j) waits Hj Hlm Hm) as [W1 W2].
    rewrite sum_rows_nth by assumption. rewrite W2.
    rewrite (column_reals Hj Hv). reflexivity. }
  set (deviations := map (fun row => map (fun x => (x ^ 2)%R)
                                       (bzip Rminus row average))
                       (map (map IZR) values)).
  assert (Hdev : Forall (fun row => List.length row = tracked) deviations).
  { unfold deviations. apply Forall_map. eapply Forall_impl; [|exact Hm].
    intros row Hrow. cbv beta. rewrite length_map, bzip_same by congruence.
    rewrite map2_length; congruence. }
  assert (Hw : map (map (fun x => (x / total)%R))
                 (map (fun d => repeat d nsyn) waits) =
               map (fun d => repeat (d / total)%R nsyn) waits).
  { rewrite map_map. apply map_ext. intro d. rewrite map_repeat. reflexivity. }
  rewrite Hw.
  assert (Hld : List.length waits = List.length deviations)
    by (unfold deviations; rewrite length_map; exact Hlm).
  destruct (weighted_rows_right Hfit (fun d => (d / total)%R) (s := s)
              waits Hs Hld Hdev) as [T1 T2].
  split.
  - rewrite map2_length; rewrite sum_rows_length by exact T1; congruence.
  - rewrite map2_nth with (dx := 0%R) (dy := 0%R)
      by (rewrite sum_rows_length by exact T1; congruence).
    rewrite (Havg s Hs). f_equal.
    rewrite sum_rows_nth by assumption. rewrite T2.
    unfold deviations. rewrite !map_map. unfold column.
    rewrite !sum_steps_map.
    clear - Hv Hs Havg Havg_len.
    assert (Hcomb : forall l : list (R * list Z),
               Forall (fun p => List.length (snd p) = tracked) l ->
               fold_right
                 (fun p t =>
                    (nth s (map (fun x => (x ^ 2)%R)
                              (bzip Rminus (map IZR (snd p)) average)) 0
                     * (fst p / total) + t)%R) 0%R l =
               fold_right
                 (fun p t =>
                    ((IZR (nth s (snd p) 0%Z)
                      - weighted_mean waits
                          (map (fun row => IZR (nth s row 0%Z)) values) total) ^ 2
                     * (fst p / total) + t)%R) 0%R l).
    { induction 1 as [|p l Hp _ IH]; cbn [fold_right]; [reflexivity|].
      rewrite IH. f_equal. f_equal.
      rewrite (@nth_map_in _ _ (fun x => (x ^ 2)%R) _ s 0%R 0%R)
        by (rewrite bzip_same, map2_length; rewrite ?length_map; congruence || lia).
      rewrite bzip_same by (rewrite length_map; congruence).
      rewrite map2_nth with (dx := 0%R) (dy := 0%R)
        by (rewrite length_map; congruence || lia).
      rewrite (@nth_map_in _ _ IZR _ s 0%R 0%Z) by lia.
      rewrite (Havg s Hs). reflexivity. }
    apply Hcomb. apply Forall_forall. intros [d row] Hp.
    apply in_combine_r in Hp. rewrite Forall_forall in Hv. apply Hv, Hp.
Qed.

Lemma collect_length (A : Type) (body : nat -> result A) : forall indices xs,
  collect indices body = Returned xs -> List.length xs = List.length indices.
Proof.
  induction indices as [|i indices IH]; intros xs H; simpl in H.
  - injection H as <-. reflexivity.
  - apply bind_returned in H. destruct H as (x & _ & H).
    apply bind_returned in H. destruct H as (xs' & Hxs & H).
    injection H as <-. simpl. f_equal. apply IH, Hxs.
Qed.

Lemma firstn_stamped tmax e :
  stamped tmax e ->
  Forall (fun t => xlt t tmax = true) (firstn (n_counter e) (store_time e)).
Proof.
  intros [_ Hbelow]. apply Forall_forall. intros t Hin.
  apply in_firstn in Hin. destruct Hin as (k & Hk & Hnth).
  destruct (Hbelow k Hk) as (t' & Ht' & Hlt). congruence.
Qed.

Lemma firstn_conserved v total e :
  conserved v total e ->
  Forall (fun x => dot v x = total)
    (firstn (n_counter e) (store_number_molecules e)).
Proof.
  intros [_ Hrows]. apply Forall_forall. intros x Hin.
  apply in_firstn in Hin. destruct Hin as (k & Hk & Hnth).
  destruct (Hrows k ltac:(lia)) as (x' & Hx' & Hdot). congruence.
Qed.

(** What the loop leaves when [simulate] returns. *)
Lemma simulate_keeps init rates sub_stoch stoch tmax n_max r1 r2 e :
  well_shaped stoch -> List.length init = ncols stoch ->
  simulate init rates sub_stoch stoch tmax n_max r1 r2 = Returned e ->
  sized stoch n_max e /\ stamped tmax e /\ running tmax n_max e = false /\
  forall v, Forall (fun delta => dot v delta = 0%Z) (rows stoch) ->
            conserved v (dot v init) e.
Proof.
  intros Hshape Hinit H.
  pose proof (simulate_budget _ _ _ _ _ _ _ _ H) as Hn.
  rewrite simulate_start in H by assumption.
  pose proof (start_sized init stoch n_max (synapses init) Hinit) as Hs0.
  edestruct (@run_keeps rates sub_stoch stoch tmax n_max r1 r2 (synapses init)
               Hshape (stamped tmax)) as (Hsized & Hstamped & Hstop);
    [ intros; eapply step_stamped; eassumption
    | exact Hs0
    | apply start_stamped; exact Hn
    | exact H
    | ].
  split; [exact Hsized|]. split; [exact Hstamped|]. split; [exact Hstop|].
  intros v Hclosed.
  edestruct (@run_keeps rates sub_stoch stoch tmax n_max r1 r2 (synapses init)
               Hshape (conserved v (dot v init))) as (_ & Hc & _);
    [ intros; eapply step_conserved; eassumption
    | exact Hs0
    | apply start_conserved; exact Hn
    | exact H
    | exact Hc ].
Qed.

Lemma stamped_counter stoch tmax n_max e :
  sized stoch n_max e -> stamped tmax e -> (n_counter e < n_max)%nat.
Proof.
  intros (Ht & _) [Hlast _]. rewrite <- Ht.
  apply nth_error_Some. congruence.
Qed.

(** A valid input gives a trajectory: the loop ends by its condition after
    at least one round, and the statistics are computed. *)
Lemma valid_run s_i init rates sub_stoch prod_stoch tmax n_max r1 r2 :
  valid_input init rates sub_stoch prod_stoch tmax n_max r1 r2 ->
  exists stoch e cv,
    mat_add sub_stoch prod_stoch = Returned stoch /\
    simulate init rates sub_stoch stoch tmax n_max r1 r2 = Returned e /\
    gillespie_algo s_i init rates sub_stoch prod_stoch tmax n_max r1 r2 =
      Returned (firstn (n_counter e) (store_time e),
                firstn (n_counter e) (store_number_molecules e), cv) /\
    sized stoch n_max e /\ stamped tmax e /\
    (1 <= n_counter e <= n_max - 1)%nat.
Proof.
  intros [sub_shaped prod_shaped same_rows same_cols some_reaction
            one_count_per_species tracked_fit one_rate_per_reaction
            rates_nonneg unit_coefficients horizon_positive budget_two
            r1_drawn r2_drawn].
  destruct (mat_add_same sub_stoch prod_stoch same_rows same_cols)
    as (stoch & Hadd & Hcols & Hrows).
  pose proof (mat_add_shaped sub_shaped prod_shaped Hadd) as Hshape.
  assert (Hinit : List.length init = ncols stoch) by congruence.
  assert (Hn : (1 <= n_max)%nat) by lia.
  assert (Hreact : rows stoch <> []).
  { intro E. rewrite E in Hrows. destruct (rows sub_stoch); [congruence|].
    discriminate. }
  destruct r1_drawn as [Hr1 _]. destruct r2_drawn as [Hr2 Hr2u].
  pose proof (start_sized init stoch n_max (synapses init) Hinit) as Hs0.
  (* the first round *)
  assert (Hrun0 : running tmax n_max
                    (start init n_max (ncols stoch) (synapses init)) = true).
  { unfold running, start. fields. cbn [xlt].
    destruct (Rlt_dec 0 tmax); [|lra]. apply Nat.ltb_lt. lia. }
  destruct (@step_total rates sub_stoch stoch tmax n_max r1 r2 (synapses init)
              Hshape sub_shaped unit_coefficients one_rate_per_reaction
              rates_nonneg (eq_sym Hrows) (eq_sym Hcols) Hreact Hr1 Hr2 Hr2u
              _ Hs0 Hrun0) as (e1 & Hstep1).
  assert (Hs1 : sized stoch n_max e1) by (eapply step_sized; eassumption).
  pose proof Hstep1 as Hc1. apply step_counter in Hc1.
  destruct (@run_total rates sub_stoch stoch tmax n_max r1 r2 (synapses init)
              Hshape sub_shaped unit_coefficients one_rate_per_reaction
              rates_nonneg (eq_sym Hrows) (eq_sym Hcols) Hreact Hr1 Hr2 Hr2u
              (n_max - 1) e1 Hs1 ltac:(lia)) as (e & Hrun).
  assert (Hsim : simulate init rates sub_stoch stoch tmax n_max r1 r2 =
                 Returned e).
  { rewrite simulate_start by assumption.
    destruct n_max as [|fuel]; [lia|]. cbn [run]. rewrite Hrun0, Hstep1.
    cbn [bind]. replace (S fuel - 1)%nat with fuel in Hrun by lia. exact Hrun. }
  destruct (@simulate_keeps init rates sub_stoch stoch tmax n_max r1 r2 e
              Hshape Hinit Hsim) as (Hsized & Hstamped & _ & _).
  assert (Hone : (1 <= n_counter e)%nat).
  { edestruct (@run_keeps rates sub_stoch stoch tmax n_max r1 r2
                 (synapses init) Hshape (fun e => (1 <= n_counter e)%nat))
      as (_ & Hge & _);
      [ intros ? ? _ _ _ Hst; apply step_counter in Hst; lia
      | exact Hs1
      | cbv beta; rewrite Hc1; lia
      | exact Hrun
      | exact Hge ]. }
  pose proof (@stamped_counter stoch tmax n_max e Hsized Hstamped) as Hlt.
  pose proof Hsized as (Ht & Hm & Hd & Hcs).
  destruct (broadcast (synapses init) (Nat.min 4 (ncols stoch))) as [w|] eqn:Ew;
    [|rewrite Hcols in Ew; congruence].
  assert (Hne : map (firstn 4)
                  (firstn (n_counter e) (store_number_molecules e)) <> []).
  { destruct (store_number_molecules e) as [|row store] eqn:Es;
      [simpl in Hm; lia|].
    destruct (n_counter e) eqn:En; [lia|]. discriminate. }
  destruct (@coefficient_variation_total (synapses init)
              (Nat.min 4 (ncols stoch)) w
              (firstn (n_counter e) (store_time_difference e))
              (map (firstn 4) (firstn (n_counter e) (store_number_molecules e)))
              (current_time e) Ew Hne) as (cv & Hcv).
  exists stoch, e, cv. split; [exact Hadd|]. split; [exact Hsim|].
  split.
  - unfold gillespie_algo. rewrite Hadd. cbn [bind]. rewrite Hsim. cbn [bind].
    rewrite Hcv. reflexivity.
  - split; [exact Hsized|]. split; [exact Hstamped|]. lia.
Qed.

(** * Runs on concrete inputs *)


(** The network [0X1->X1] from no molecule: the first event comes at time
    2, past the horizon 1. *)
Lemma overshooting_run :
  simulate [0%Z] [1%R] (Matrix 1 [[0%Z]]) (Matrix 1 [[1%Z]]) 1 3
    [exp (-2); (1 / 2)%R; (1 / 2)%R] (repeat (1 / 2)%R 3) =
  Returned (Engine (Fin 2) [1%Z] 1 [Fin 0; Fin 2; Fin 0]
              [[0%Z]; [1%Z]; [0%Z]] [[]; []; []]).
Proof.
  rewrite simulate_start by (simpl; lia).
  cbn [rows ncols List.length].
  assert (Hsum : sum [(IZR 1 * 1)%R] = 1%R) by (unfold sum; simpl; lra).
  assert (Hln : (1 / 1 * ln (1 / exp (-2)) = 2)%R).
  { replace (1 / exp (-2))%R with (exp 2).
    - rewrite ln_exp. lra.
    - replace (-2)%R with (- (2))%R by lra.
      rewrite exp_Ropp. field. apply Rgt_not_eq, exp_pos. }
  assert (Hnext : next_values (sum [(IZR 1 * 1)%R]) [(IZR 1 * 1)%R]
                    (exp (-2)) (1 / 2) = Returned (Fin 2, 0%nat)).
  { unfold next_values. rewrite Hsum.
    destruct (Req_dec_T 1 0); [lra|]. rewrite Hln. cbn [cell_of nth_error bind tl scan].
    destruct (Rlt_dec 0 (1 / 2 * 1 - IZR 1 * 1)); [lra|reflexivity]. }
  apply run_last_round.
  - unfold running, start. fields. cbn [xlt].
    destruct (Rlt_dec 0 1); [reflexivity|lra].
  - rewrite step_fires with (a := [(IZR 1 * 1)%R]) (dt := Fin 2) (mu := 0%nat)
                            (delta := [1%Z]) (r1n := exp (-2))
                            (r2n := (1 / 2)%R);
      try reflexivity; try (simpl; lia); try discriminate; try exact Hnext.
    unfold start. fields. cbn [xadd]. rewrite Rplus_0_l. reflexivity.
  - unfold running. fields. cbn [xlt].
    destruct (Rlt_dec 2 1); [lra|reflexivity].
Qed.

(** ** Reactions without an arrow *)





Lemma receptor_parsed :
  reactions_stoch all_reactions = Returned (receptor_sub, receptor_prod).
Proof. vm_compute. reflexivity. Qed.

Lemma Forall_repeat (A : Type) (P : A -> Prop) x n :
  P x -> Forall P (repeat x n).
Proof. intro H. induction n; simpl; constructor; assumption. Qed.

(** The input of the program (with unit rates and every draw 1/2). *)
Lemma receptor_input_valid :
  valid_input receptor_init (repeat 1%R 10) receptor_sub receptor_prod
    60 1000 (repeat (1 / 2)%R 1000) (repeat (1 / 2)%R 1000).
Proof.
  constructor.
  - unfold well_shaped. simpl. repeat constructor.
  - unfold well_shaped. simpl. repeat constructor.
  - reflexivity.
  - reflexivity.
  - discriminate.
  - reflexivity.
  - discriminate.
  - reflexivity.
  - apply Forall_repeat. lra.
  - simpl. repeat (constructor; try lia).
  - lra.
  - lia.
  - split; [apply repeat_length|apply Forall_repeat; lra].
  - split; [apply repeat_length|apply Forall_repeat; lra].
Qed.

(** * Further properties of the program *)

(** [calculate_hi n m] is h(n,m) = C(n,m) * m! whenever [m] is at most
    [n] and h(n,m) is below 2^53: the program multiplies the integer
    C(n,m) by the float [factorial(m)], and below 2^53 neither the
    factorial nor the product is rounded. *)
Theorem calculate_hi_is_h (n m : Z) :
  (0 <= m <= n)%Z ->
  (h (Z.to_nat n) (Z.to_nat m) < 2 ^ 53)%Z ->
  calculate_hi n m = Returned (h (Z.to_nat n) (Z.to_nat m)).
Proof. intros H _. apply calculate_hi_h, H. Qed.

Lemma calculate_hi_is_h_witness :
  calculate_hi 5 2 = Returned (h (Z.to_nat 5) (Z.to_nat 2)).
Proof. apply (@calculate_hi_is_h 5 2); [lia|reflexivity]. Defined.

(** The propensity of reaction [i] at a state in which every species the
    reaction consumes has no molecule or at least as many as it consumes,
    and every h(n_s, |m_s|) and their product are below 2^53, so that the
    float product of the program holds them exactly: the rate times the
    product of h(n_s, |m_s|) over the species with a substrate entry that
    is not 0, the product with the rate taken over the reals. *)
Theorem propensity_is_rate_times_combinations (sub_stoch : matrix)
  (rates : list R) (cs : list Z) (i : nat) (row : list Z) (rate : R) :
  nth_error (rows sub_stoch) i = Some row ->
  nth_error rates i = Some rate ->
  List.length cs = List.length row ->
  Forall2 supplied row cs ->
  Forall2 (fun m n => (h (Z.to_nat n) (Z.to_nat (Z.abs m)) < 2 ^ 53)%Z)
    row cs ->
  (combinations row cs < 2 ^ 53)%Z ->
  propensity sub_stoch rates cs (List.length row) i =
  Returned (IZR (combinations row cs) * rate)%R.
Proof.
  intros Hrow Hrate Hlen Hs _ _. apply propensity_supplied; assumption.
Qed.

Lemma propensity_is_rate_times_combinations_witness :
  propensity (Matrix 3 [[-2; -1; 0]%Z]) [3%R] [5; 4; 0]%Z
    (List.length [-2; -1; 0]%Z) 0 =
  Returned (IZR (combinations [-2; -1; 0]%Z [5; 4; 0]%Z) * 3)%R.
Proof.
  apply (@propensity_is_rate_times_combinations
           (Matrix 3 [[-2; -1; 0]%Z]) [3%R] [5; 4; 0]%Z 0 [-2; -1; 0]%Z 3%R).
  - reflexivity.
  - reflexivity.
  - reflexivity.
  - repeat constructor; unfold supplied; lia.
  - repeat constructor.
  - reflexivity.
Defined.

(** The loop of the engine ends: run on [n_max] rounds, it never uses the
    rounds up, whatever the input. *)
Theorem loop_ends_within_budget (init : list Z) (rates : list R)
  (sub_stoch stoch : matrix) (tmax : R) (n_max : nat) (r1 r2 : list R) :
  genuine (simulate init rates sub_stoch stoch tmax n_max r1 r2).
Proof.
  unfold simulate. apply genuine_bind; [apply genuine_store|]. intro times.
  apply genuine_bind; [apply genuine_store_row|]. intro molecules.
  apply run_fuel. cbn [n_counter]. lia.
Qed.

(** ** The propensity calculator, outside of its row *)

Lemma index_below (A : Type) (l : list A) i :
  (i < - Z.of_nat (List.length l))%Z -> Py.index l i = Raised IndexError.
Proof.
  intro H. unfold Py.index.
  destruct (Z.ltb_spec i 0); [|lia].
  destruct (Z.leb_spec 0 (Z.of_nat (List.length l) + i)); [lia|]. reflexivity.
Qed.


(** [calculate_hi] reads cell [m] of a row of [n + 1] cells: it raises
    IndexError when there is no such cell, that is for a count [n] below
    the coefficient [m] (where h(n,m) is 0), for a negative count, and for
    a coefficient below [-(n + 1)]. *)
Theorem calculate_hi_raises_outside_row (n m : Z) :
  (n < 0 \/ n < m \/ m < - (n + 1))%Z ->
  calculate_hi n m = Raised IndexError.
Proof.
  intros H. destruct (Z.ltb_spec n 0) as [Hneg|Hpos].
  - unfold calculate_hi.
    replace (Z.to_nat (n + 1)) with 0%nat by lia. reflexivity.
  - rewrite calculate_hi_row by lia.
    destruct (Z.ltb_spec n m) as [Hshort|Hle].
    + rewrite index_beyond by (rewrite length_map, length_seq; lia).
      reflexivity.
    + rewrite index_below by (rewrite length_map, length_seq; lia).
      reflexivity.
Qed.

Lemma calculate_hi_raises_outside_row_witness :
  calculate_hi 3 4 = Raised IndexError.
Proof. apply (@calculate_hi_raises_outside_row 3 4). lia. Defined.



(** ** The event sampler *)

Lemma scan_stops rest : forall N mu k,
  scan N mu rest = Returned k ->
  (k = mu /\ (N <= 0)%R) \/
  ((mu < k)%nat /\ (k - mu - 1 < List.length rest)%nat /\
   (0 < nth (k - mu - 1) rest 0)%R).
Proof.
  induction rest as [|x rest IH]; intros N mu k H; simpl in H;
    destruct (Rlt_dec 0 N) as [Hpos|Hneg]; try discriminate.
  - injection H as <-. left. split; [reflexivity|lra].
  - right. destruct (IH _ _ _ H) as [[-> Hle]|(Hlt & Hin & Hnth)].
    + split; [lia|]. replace (S mu - mu - 1)%nat with 0%nat by lia.
      split; [simpl; lia|]. simpl. lra.
    + split; [lia|].
      replace (k - mu - 1)%nat with (S (k - S mu - 1)) by lia.
      split; [simpl; lia|]. exact Hnth.
  - injection H as <-. left. split; [reflexivity|lra].
Qed.

Lemma next_values_positive a0 a r1 r2 dt mu :
  (0 < r2 * a0)%R ->
  next_values a0 a r1 r2 = Returned (dt, mu) ->
  (mu < List.length a)%nat /\ (0 < nth mu a 0)%R.
Proof.
  intros Hr H. unfold next_values in H.
  destruct a as [|x rest]; [discriminate|].
  cbn [cell_of nth_error bind tl] in H.
  apply bind_returned in H. destruct H as (k & Hscan & H).
  injection H as _ <-.
  destruct (scan_stops _ _ _ Hscan) as [[-> Hle]|(Hlt & Hin & Hnth)].
  - split; [simpl; lia|]. simpl. lra.
  - destruct k as [|k]; [lia|].
    replace (S k - 0 - 1)%nat with k in * by lia.
    split; [simpl; lia|]. exact Hnth.
Qed.

Lemma next_values_wait a0 a r1 r2 dt mu :
  next_values a0 a r1 r2 = Returned (dt, mu) ->
  dt = if Req_dec_T a0 0 then PInf else Fin (1 / a0 * ln (1 / r1)).
Proof.
  intros H. unfold next_values in H.
  apply bind_returned in H. destruct H as (x & _ & H).
  apply bind_returned in H. destruct H as (k & _ & H).
  injection H as <- _. reflexivity.
Qed.

Lemma wait_positive a0 r1 :
  (0 < a0)%R -> (0 < r1 < 1)%R -> (0 < 1 / a0 * ln (1 / r1))%R.
Proof.
  intros Ha Hr. apply Rmult_lt_0_compat.
  - apply Rdiv_lt_0_compat; lra.
  - rewrite <- ln_1. apply ln_increasing; [lra|].
    apply Rmult_lt_reg_r with (r := r1); [lra|].
    unfold Rdiv. rewrite Rmult_assoc, Rinv_l by lra. lra.
Qed.

(** The reaction the sampler selects has a positive propensity, whenever
    the threshold [r2 * a0] is positive: a reaction that cannot fire is
    never selected. *)
Theorem selected_reaction_has_propensity (a0 : R) (a : list R) (r1 r2 : R)
  (dt : xreal) (mu : nat) :
  (0 < r2 * a0)%R ->
  next_values a0 a r1 r2 = Returned (dt, mu) ->
  (mu < List.length a)%nat /\ (0 < nth mu a 0)%R.
Proof. apply next_values_positive. Qed.

Lemma selected_reaction_has_propensity_witness :
  (1 < List.length [0; 2; 0; 1]%R)%nat /\ (0 < nth 1 [0; 2; 0; 1]%R 0)%R.
Proof.
  apply (@selected_reaction_has_propensity 3 [0; 2; 0; 1]%R (1 / 2) (1 / 2)
           (Fin (1 / 3 * ln (1 / (1 / 2)))) 1).
  - lra.
  - unfold next_values. cbn [cell_of nth_error bind tl scan].
    destruct (Rlt_dec 0 (1 / 2 * 3 - 0)) as [_|N]; [|exfalso; lra].
    destruct (Rlt_dec 0 (1 / 2 * 3 - 0 - 2)) as [P|_]; [exfalso; lra|].
    cbn [bind]. destruct (Req_dec_T 3 0) as [E|_]; [exfalso; lra|].
    reflexivity.
Defined.

Lemma scan_beyond rest : forall N mu,
  (forall j, (j <= List.length rest)%nat ->
             (0 < N - sum (firstn j rest))%R) ->
  scan N mu rest = Raised IndexError.
Proof.
  induction rest as [|x rest IH]; intros N mu H.
  - specialize (H 0%nat (Nat.le_refl _)). unfold sum in H. simpl in H.
    simpl. destruct (Rlt_dec 0 N); [reflexivity|lra].
  - pose proof (H 0%nat ltac:(lia)) as H0. unfold sum in H0. simpl in H0.
    simpl scan. destruct (Rlt_dec 0 N); [|lra].
    apply IH. intros j Hj. specialize (H (S j) ltac:(simpl; lia)).
    simpl firstn in H. rewrite sum_cons in H. lra.
Qed.

(** The scan of the sampler is not bounded by the length of [a]: when the
    threshold [r2 * a0] is above every cumulative sum of [a], it runs past
    the last reaction and the sampler raises IndexError. *)
Theorem next_values_scans_past_the_end (a0 : R) (a : list R) (r1 r2 : R) :
  (forall k, (k < List.length a)%nat -> (cumulative a k < r2 * a0)%R) ->
  next_values a0 a r1 r2 = Raised IndexError.
Proof.
  intros H. unfold next_values. destruct a as [|x rest]; [reflexivity|].
  cbn [cell_of nth_error bind tl].
  rewrite scan_beyond; [reflexivity|].
  intros j Hj. specialize (H j ltac:(simpl; lia)).
  unfold cumulative in H. simpl firstn in H. rewrite sum_cons in H. lra.
Qed.

Lemma next_values_scans_past_the_end_witness :
  next_values 4 [1; 2]%R (1 / 2) 1 = Raised IndexError.
Proof.
  apply (@next_values_scans_past_the_end 4 [1; 2]%R (1 / 2) 1).
  intros k Hk. unfold cumulative, sum.
  destruct k as [|[|k]]; simpl in *; [lra|lra|lia].
Defined.

(** ** The reaction parser, on any text *)

Lemma store_length (A : Type) (l l' : list A) i v :
  Py.store l i v = Returned l' -> List.length l' = List.length l.
Proof.
  unfold Py.store. intro H.
  destruct (_ && _)%bool; [|discriminate].
  injection H as <-. apply set_nth_length.
Qed.

Lemma fill_row_length sign items : forall row row',
  fill_row sign items row = Returned row' ->
  List.length row' = List.length row.
Proof.
  induction items as [|[number species] items IH]; intros row row' H;
    simpl in H.
  - injection H as <-. reflexivity.
  - apply bind_returned in H. destruct H as (row1 & Hstore & H).
    apply bind_returned in H. destruct H as (v & _ & H).
    rewrite (IH _ _ H). eapply store_length, Hstore.
Qed.

Lemma fill_shape sign w number_reaction : forall stoch stoch',
  fill sign number_reaction stoch = Returned stoch' ->
  List.length stoch' = List.length stoch /\
  (Forall (fun row => List.length row = w) stoch ->
   Forall (fun row => List.length row = w) stoch').
Proof.
  induction number_reaction as [|items number_reaction IH];
    intros stoch stoch' H; simpl in H.
  - injection H as <-. auto.
  - destruct stoch as [|row stoch]; [discriminate|].
    apply bind_returned in H. destruct H as (row' & Hrow & H).
    apply bind_returned in H. destruct H as (rest & Hrest & H).
    injection H as <-. destruct (IH _ _ Hrest) as [Hlen Hall].
    split; [simpl; congruence|].
    intro Hw. inversion Hw as [|? ? Hr Hs]; subst. constructor.
    + rewrite (fill_row_length _ _ _ Hrow). reflexivity.
    + apply Hall, Hs.
Qed.

Lemma zeros_shaped r c :
  Forall (fun row => List.length row = c) (rows (zeros r c)).
Proof.
  unfold zeros. cbn [rows]. apply Forall_forall. intros row Hin.
  apply repeat_spec in Hin. subst. apply repeat_length.
Qed.

(** Whatever the text, two matrices the parser returns have the same
    shape: one row per piece of the text between commas (at least one),
    and the same number of columns in every row of both; so their sum, the
    combined stoichiometry of the engine, is defined and has that shape. *)
Theorem reactions_stoch_shapes (reactions : str)
  (sub_stoch prod_stoch : matrix) :
  reactions_stoch reactions = Returned (sub_stoch, prod_stoch) ->
  well_shaped sub_stoch /\ well_shaped prod_stoch /\
  ncols sub_stoch = ncols prod_stoch /\
  List.length (rows sub_stoch) = List.length (Py.split "," reactions) /\
  List.length (rows prod_stoch) = List.length (Py.split "," reactions) /\
  rows sub_stoch <> [] /\
  exists stoch,
    mat_add sub_stoch prod_stoch = Returned stoch /\
    well_shaped stoch /\
    ncols stoch = ncols sub_stoch /\
    List.length (rows stoch) = List.length (rows sub_stoch).
Proof.
  intro H. unfold reactions_stoch in H.
  apply bind_returned in H. destruct H as ([substrates products] & _ & H).
  apply bind_returned in H. destruct H as ([sub_items total1] & _ & H).
  apply bind_returned in H. destruct H as ([prod_items total] & _ & H).
  apply bind_returned in H. destruct H as (sub_rows & Hsub & H).
  apply bind_returned in H. destruct H as (prod_rows & Hprod & H).
  injection H as <- <-.
  set (n := List.length (Py.split "," reactions)) in *.
  set (w := Z.to_nat total) in *.
  destruct (@fill_shape _ w _ _ _ Hsub) as [Hl1 Hw1].
  destruct (@fill_shape _ w _ _ _ Hprod) as [Hl2 Hw2].
  pose proof (zeros_shaped n w) as Hz.
  assert (Hn : List.length (rows (zeros n w)) = n)
    by (unfold zeros; cbn [rows]; apply repeat_length).
  assert (S1 : well_shaped (Matrix (ncols (zeros n w)) sub_rows))
    by (unfold well_shaped; cbn [rows ncols]; apply Hw1, Hz).
  assert (S2 : well_shaped (Matrix (ncols (zeros n w)) prod_rows))
    by (unfold well_shaped; cbn [rows ncols]; apply Hw2, Hz).
  split; [exact S1|]. split; [exact S2|]. split; [reflexivity|].
  cbn [rows]. split; [congruence|]. split; [congruence|]. split.
  - intro E. rewrite E in Hl1. rewrite Hn in Hl1. simpl in Hl1.
    pose proof (split_nonempty ","%char reactions) as Hne.
    unfold n in Hl1. destruct (Py.split "," reactions); [congruence|].
    discriminate.
  - destruct (@mat_add_same (Matrix (ncols (zeros n w)) sub_rows)
                (Matrix (ncols (zeros n w)) prod_rows))
      as (stoch & Hadd & Hc & Hr); [cbn [rows]; congruence|reflexivity|].
    exists stoch. split; [exact Hadd|].
    split; [exact (mat_add_shaped S1 S2 Hadd)|]. split; assumption.
Qed.

Lemma reactions_stoch_shapes_witness :
  well_shaped (Matrix 2 [[-1; 0]%Z]) /\ well_shaped (Matrix 2 [[0; 1]%Z]) /\
  ncols (Matrix 2 [[-1; 0]%Z]) = ncols (Matrix 2 [[0; 1]%Z]) /\
  List.length (rows (Matrix 2 [[-1; 0]%Z])) =
    List.length (Py.split "," (Py.lit "X1->X2")) /\
  List.length (rows (Matrix 2 [[0; 1]%Z])) =
    List.length (Py.split "," (Py.lit "X1->X2")) /\
  rows (Matrix 2 [[-1; 0]%Z]) <> [] /\
  exists stoch,
    mat_add (Matrix 2 [[-1; 0]%Z]) (Matrix 2 [[0; 1]%Z]) = Returned stoch /\
    well_shaped stoch /\
    ncols stoch = ncols (Matrix 2 [[-1; 0]%Z]) /\
    List.length (rows stoch) = List.length (rows (Matrix 2 [[-1; 0]%Z])).
Proof.
  apply (@reactions_stoch_shapes (Py.lit "X1->X2")).
  vm_compute. reflexivity.
Defined.

(** *** A species token that is no number *)

Lemma split_arrow_nonempty s : Py.split_arrow s <> [].
Proof.
  induction s as [|c s IH]; [discriminate|].
  destruct s as [|c' s']; [discriminate|].
  change (Py.split_arrow (c :: c' :: s')) with
    (if Ascii.eqb c "-" && Ascii.eqb c' ">" then [] :: Py.split_arrow s'
     else match Py.split_arrow (c' :: s') with
          | [] => [[c]]
          | w :: ws => (c :: w) :: ws
          end).
  destruct (_ && _)%bool; [discriminate|].
  destruct (Py.split_arrow (c' :: s')); discriminate.
Qed.

Lemma plain_free sep s :
  plain sep = false -> forallb plain s = true -> free sep s.
Proof. apply free_forallb. Qed.

Lemma read_number coef :
  exists number,
    (if Py.isdigit coef then Py.int coef else Returned 1%Z) = Returned number.
Proof.
  destruct (Py.isdigit coef) eqn:E; [|eauto].
  exists (numeral coef). apply int_numeral, E.
Qed.

(** In a text of one reaction whose first term has legible tokens (ASCII,
    at most 4300 characters) without separator, a species token that is no
    integer literal makes the parser raise the ValueError of [int], which
    names the token. *)
Theorem species_token_no_number_raises (coef tok rest : str) :
  legible coef -> legible tok ->
  forallb plain coef = true -> forallb plain tok = true ->
  free ","%char rest ->
  (forall z, Py.int tok <> Returned z) ->
  reactions_stoch (coef ++ "X"%char :: tok ++ "-"%char :: ">"%char :: rest) =
  Raised (ValueError tok).
Proof.
  intros _ _ Hcoef Htok Hrest Hint.
  assert (Hraise : Py.int tok = Raised (ValueError tok)).
  { unfold Py.int in *. destruct (match Py.strip tok with
                                  | [] => None
                                  | c :: d => _
                                  end) as [z|]; [|reflexivity].
    exfalso. exact (Hint z eq_refl). }
  set (left := coef ++ "X"%char :: tok).
  assert (Hleft : forall sep, plain sep = false -> sep <> "X"%char ->
                              free sep left).
  { intros sep Hsep HX. unfold left. apply free_app.
    - apply plain_free; assumption.
    - constructor; [congruence|]. apply plain_free; assumption. }
  assert (Htext : coef ++ "X"%char :: tok ++ "-"%char :: ">"%char :: rest =
                  left ++ "-"%char :: ">"%char :: rest).
  { unfold left. rewrite <- app_assoc. reflexivity. }
  rewrite Htext. unfold reactions_stoch.
  rewrite split_free.
  2:{ apply free_app; [apply Hleft; [reflexivity|discriminate]|].
      constructor; [discriminate|]. constructor; [discriminate|].
      exact Hrest. }
  cbn [split_reactions].
  rewrite split_arrow_app by (apply Hleft; [reflexivity|discriminate]).
  destruct (Py.split_arrow rest) as [|right others] eqn:Er;
    [exfalso; exact (split_arrow_nonempty rest Er)|].
  change (Py.index (left :: right :: others) 0) with (Returned left).
  change (Py.index (left :: right :: others) 1) with
    (Py.index (left :: right :: others) 1).
  rewrite index_within with (i := 1%Z) (a := right); [|lia|reflexivity].
  cbn [bind map read_sides read_side].
  rewrite split_free by (apply Hleft; [reflexivity|discriminate]).
  cbn [read_side]. unfold read_term.
  assert (Hsplit : Py.split "X" left = [coef; tok]).
  { unfold left. rewrite split_app by (apply plain_free; [reflexivity|assumption]).
    rewrite split_free by (apply plain_free; [reflexivity|assumption]).
    reflexivity. }
  rewrite Hsplit. cbn [hd].
  destruct (read_number coef) as (number & ->).
  cbn [bind]. rewrite Hraise. reflexivity.
Qed.

Lemma species_token_no_number_raises_witness :
  reactions_stoch
    (Py.lit "2" ++ "X"%char :: Py.lit "a" ++ "-"%char :: ">"%char :: Py.lit "X1") =
  Raised (ValueError (Py.lit "a")).
Proof.
  apply (@species_token_no_number_raises (Py.lit "2") (Py.lit "a")
           (Py.lit "X1")).
  - split; [reflexivity|discriminate].
  - split; [reflexivity|discriminate].
  - reflexivity.
  - reflexivity.
  - repeat constructor; discriminate.
  - intros z H. vm_compute in H. discriminate H.
Defined.

(** *** A text without species *)

Lemma split_pieces_free (sep c : ascii) s :
  free c s -> Forall (free c) (Py.split sep s).
Proof.
  intro H. induction H as [|x t Hx Ht IH]; [repeat constructor|].
  simpl. destruct (Ascii.eqb x sep).
  - constructor; [constructor|exact IH].
  - destruct (Py.split sep t) as [|w ws]; [repeat constructor; assumption|].
    inversion IH; subst. constructor; [constructor; assumption|assumption].
Qed.

Lemma split_arrow_pieces_free (c : ascii) s :
  free c s -> Forall (free c) (Py.split_arrow s).
Proof.
  assert (Hboth : forall s, free c s ->
            Forall (free c) (Py.split_arrow s) /\
            Forall (free c) (Py.split_arrow (tl s))).
  { intros t Ht. induction Ht as [|x t Hx Ht [IH1 IH2]];
      [repeat constructor|].
    split; [|exact IH1].
    destruct t as [|x' s']; [repeat constructor; assumption|].
    change (Py.split_arrow (x :: x' :: s')) with
      (if Ascii.eqb x "-" && Ascii.eqb x' ">" then [] :: Py.split_arrow s'
       else match Py.split_arrow (x' :: s') with
            | [] => [[x]]
            | w :: ws => (x :: w) :: ws
            end).
    destruct (_ && _)%bool.
    - constructor; [constructor|exact IH2].
    - destruct (Py.split_arrow (x' :: s')) as [|w ws];
        [repeat constructor; assumption|].
      inversion IH1; subst.
      constructor; [constructor; assumption|assumption]. }
  intro H. apply Hboth, H.
Qed.

Lemma split_arrow_two p :
  has_arrow p = true -> exists a b others, Py.split_arrow p = a :: b :: others.
Proof.
  induction p as [|c p IH]; intro H; [discriminate|].
  destruct p as [|c' p']; [discriminate|].
  change (has_arrow (c :: c' :: p')) with
    ((Ascii.eqb c "-" && Ascii.eqb c' ">") || has_arrow (c' :: p')) in H.
  change (Py.split_arrow (c :: c' :: p')) with
    (if Ascii.eqb c "-" && Ascii.eqb c' ">" then [] :: Py.split_arrow p'
     else match Py.split_arrow (c' :: p') with
          | [] => [[c]]
          | w :: ws => (c :: w) :: ws
          end).
  destruct (Ascii.eqb c "-" && Ascii.eqb c' ">")%bool.
  - destruct (Py.split_arrow p') as [|b others] eqn:E;
      [exfalso; exact (split_arrow_nonempty p' E)|].
    eauto.
  - simpl in H. destruct (IH H) as (a & b & others & ->). eauto.
Qed.

Lemma split_reactions_sides (c : ascii) pieces :
  Forall (fun piece => has_arrow piece = true) pieces ->
  Forall (free c) pieces ->
  exists substrates products,
    split_reactions pieces = Returned (substrates, products) /\
    Forall (free c) substrates /\ Forall (free c) products.
Proof.
  induction pieces as [|i rest IH]; intros Harrow Hfree.
  - exists [], []. repeat split; constructor.
  - inversion Harrow as [|? ? Hi Hr]; subst.
    inversion Hfree as [|? ? Fi Fr]; subst.
    destruct (IH Hr Fr) as (substrates & products & Hrest & F1 & F2).
    destruct (split_arrow_two _ Hi) as (a & b & others & Hsplit).
    pose proof (split_arrow_pieces_free Fi) as Hparts.
    rewrite Hsplit in Hparts.
    inversion Hparts as [|? ? Fa Hparts']; subst.
    inversion Hparts' as [|? ? Fb _]; subst.
    exists (a :: substrates), (b :: products).
    cbn [split_reactions]. rewrite Hsplit.
    change (Py.index (a :: b :: others) 0) with (Returned a).
    rewrite index_within with (i := 1%Z) (a := b); [|lia|reflexivity].
    cbn [bind]. rewrite Hrest. cbn [bind].
    split; [reflexivity|]. split; constructor; assumption.
Qed.

Lemma read_term_no_species total j :
  free "X"%char j -> read_term total j = Returned (None, total).
Proof.
  intro H. unfold read_term. rewrite (split_free H). cbn [hd].
  destruct (read_number j) as (number & ->). reflexivity.
Qed.

Lemma read_side_no_species terms : forall total,
  Forall (free "X"%char) terms -> read_side total terms = Returned ([], total).
Proof.
  induction terms as [|j terms IH]; intros total H; [reflexivity|].
  inversion H; subst. cbn [read_side].
  rewrite read_term_no_species by assumption. cbn [bind].
  rewrite IH by assumption. reflexivity.
Qed.

Lemma read_sides_no_species sides : forall total,
  Forall (free "X"%char) sides ->
  read_sides total (map (Py.split "+") sides) = Returned ([], total).
Proof.
  induction sides as [|i sides IH]; intros total H; [reflexivity|].
  inversion H; subst. cbn [map read_sides].
  rewrite read_side_no_species by (apply split_pieces_free; assumption).
  cbn [bind]. rewrite IH by assumption. reflexivity.
Qed.

(** A legible text (ASCII, at most 4300 characters) in which no species is
    named (no [X]) while every piece between commas has its arrow, such as
    [0->0], gives two matrices without columns, of one empty row per
    piece. *)
Theorem text_without_species_has_no_column (reactions : str) :
  legible reactions ->
  free "X"%char reactions ->
  Forall (fun piece => has_arrow piece = true) (Py.split "," reactions) ->
  reactions_stoch reactions =
  Returned (Matrix 0 (repeat [] (List.length (Py.split "," reactions))),
            Matrix 0 (repeat [] (List.length (Py.split "," reactions)))).
Proof.
  intros _ Hfree Harrow. unfold reactions_stoch.
  destruct (split_reactions_sides Harrow
              (split_pieces_free ","%char Hfree))
    as (substrates & products & -> & F1 & F2).
  cbn [bind]. rewrite read_sides_no_species by exact F1. cbn [bind].
  rewrite read_sides_no_species by exact F2. cbn [bind].
  reflexivity.
Qed.

Lemma text_without_species_has_no_column_witness :
  reactions_stoch (Py.lit "0->0,a->b") =
  Returned (Matrix 0 (repeat [] (List.length
                                   (Py.split "," (Py.lit "0->0,a->b")))),
            Matrix 0 (repeat [] (List.length
                                   (Py.split "," (Py.lit "0->0,a->b"))))).
Proof.
  apply (@text_without_species_has_no_column (Py.lit "0->0,a->b")).
  - split; [reflexivity|discriminate].
  - repeat constructor; discriminate.
  - repeat constructor.
Defined.

(** *** The species index 0 *)




(** ** The rounds of the engine *)

(** What a round that returns has computed. *)
Lemma step_fired rates sub_stoch stoch r1 r2 nsyn e e' :
  well_shaped stoch ->
  List.length (current_species e) = ncols stoch ->
  step rates sub_stoch stoch r1 r2 (List.length (rows stoch)) (ncols stoch)
    nsyn e = Returned e' ->
  exists a r1n r2n dt mu delta,
    propensities sub_stoch rates (current_species e)
      (List.length (rows stoch)) (ncols stoch) = Returned a /\
    nth_error r1 (n_counter e) = Some r1n /\
    nth_error r2 (n_counter e) = Some r2n /\
    next_values (sum a) a r1n r2n = Returned (dt, mu) /\
    nth_error (rows stoch) mu = Some delta /\
    List.length delta = ncols stoch /\
    (S (n_counter e) < List.length (store_time e))%nat /\
    (S (n_counter e) < List.length (store_number_molecules e))%nat /\
    e' = Engine (xadd (current_time e) dt)
           (map2 Z.add (current_species e) delta)
           (S (n_counter e))
           (Py.set_nth (S (n_counter e)) (xadd (current_time e) dt)
              (store_time e))
           (Py.set_nth (S (n_counter e))
              (map2 Z.add (current_species e) delta)
              (store_number_molecules e))
           (Py.set_nth (n_counter e) (repeat dt nsyn)
              (store_time_difference e)).
Proof.
  intros stoch_shaped Hcs H. unfold step in H.
  apply bind_returned in H. destruct H as (a & Ha & H).
  apply bind_returned in H. destruct H as (r1n & Hr1 & H).
  apply bind_returned in H. destruct H as (r2n & Hr2 & H).
  apply bind_returned in H. destruct H as ([dt mu] & Hnext & H).
  apply bind_returned in H. destruct H as (diffs & Hd & H).
  apply bind_returned in H. destruct H as (delta & Hdelta & H).
  apply bind_returned in H. destruct H as (species & Hsp & H).
  apply bind_returned in H. destruct H as (times & Ht & H).
  apply bind_returned in H. destruct H as (mols & Hm & H).
  apply cell_of_returned in Hdelta, Hr1, Hr2.
  assert (Hlen : List.length delta = ncols stoch).
  { unfold well_shaped in stoch_shaped. rewrite Forall_forall in stoch_shaped.
    apply stoch_shaped. eapply nth_error_In, Hdelta. }
  rewrite iadd_same in Hsp by congruence. injection Hsp as <-.
  apply store_nat_returned in Hd. destruct Hd as [Hd1 ->].
  apply store_nat_returned in Ht. destruct Ht as [Ht1 ->].
  apply store_row_returned in Hm;
    [|rewrite map2_length; congruence].
  destruct Hm as [Hm1 ->].
  destruct a as [|x rest]; [discriminate|].
  exists (x :: rest), r1n, r2n, dt, mu, delta. injection H as <-.
  repeat split; assumption.
Qed.

(** *** The propensities of a round that returns *)

Lemma collect_returned (A : Type) (body : nat -> result A) :
  forall indices xs,
    collect indices body = Returned xs ->
    Forall2 (fun i x => body i = Returned x) indices xs.
Proof.
  induction indices as [|i indices IH]; intros xs H; simpl in H.
  - injection H as <-. constructor.
  - apply bind_returned in H. destruct H as (x & Hx & H).
    apply bind_returned in H. destruct H as (xs' & Hxs & H).
    injection H as <-. constructor; [exact Hx|apply IH, Hxs].
Qed.

Lemma Forall2_seq_nth (A : Type) (P : nat -> A -> Prop) : forall n s xs,
  Forall2 P (seq s n) xs ->
  forall i x, nth_error xs i = Some x -> P (s + i)%nat x.
Proof.
  induction n as [|n IH]; intros s xs H i x Hnth; simpl in H.
  - inversion H; subst. destruct i; discriminate.
  - inversion H as [|? y ? ys Hy Hrest]; subst. destruct i as [|i].
    + injection Hnth as <-. rewrite Nat.add_0_r. exact Hy.
    + simpl in Hnth. replace (s + S i)%nat with (S s + i)%nat by lia.
      eapply IH; eassumption.
Qed.

Lemma hi_body_returned sub_stoch cs i j row m n hi hi' :
  nth_error (rows sub_stoch) i = Some row ->
  nth_error row j = Some m -> nth_error cs j = Some n ->
  hi_body sub_stoch cs i hi j = Returned hi' -> supplied m n.
Proof.
  intros Hrow Hm Hn H. unfold hi_body, entry in H.
  rewrite (cell_of_some _ _ Hrow) in H. cbn [bind] in H.
  rewrite (cell_of_some _ _ Hm) in H. cbn [bind] in H.
  unfold supplied.
  destruct (Z.eqb_spec m 0) as [E|E]; [left; exact E|]. right.
  rewrite (cell_of_some _ _ Hn) in H. cbn [bind] in H.
  destruct (Z.leb_spec n 0) as [Hle|Hgt]; [left; exact Hle|]. right.
  destruct (Z.le_gt_cases (Z.abs m) n) as [Hok|Hshort]; [exact Hok|].
  rewrite calculate_hi_short in H by lia. discriminate.
Qed.

Lemma for_each_supplied sub_stoch cs i row :
  nth_error (rows sub_stoch) i = Some row ->
  List.length cs = List.length row ->
  forall k a hi hi',
    (a + k = List.length row)%nat ->
    for_each (seq a k) (hi_body sub_stoch cs i) hi = Returned hi' ->
    Forall2 supplied (skipn a row) (skipn a cs).
Proof.
  intros Hrow Hlen. induction k as [|k IH]; intros a hi hi' Ha H.
  - rewrite !skipn_all2 by lia. constructor.
  - destruct (nth_error row a) as [m|] eqn:Em;
      [|apply nth_error_None in Em; lia].
    destruct (nth_error cs a) as [n|] eqn:En;
      [|apply nth_error_None in En; lia].
    rewrite (skipn_nth_error _ _ Em), (skipn_nth_error _ _ En).
    cbn [for_each seq] in H.
    apply bind_returned in H. destruct H as (hi1 & Hbody & H).
    constructor.
    + eapply hi_body_returned; eassumption.
    + apply (IH (S a) hi1 hi'); [lia|exact H].
Qed.

Lemma propensity_returned sub_stoch rates cs i row p :
  nth_error (rows sub_stoch) i = Some row ->
  List.length cs = List.length row ->
  propensity sub_stoch rates cs (List.length row) i = Returned p ->
  exists rate,
    nth_error rates i = Some rate /\ Forall2 supplied row cs /\
    p = (IZR (combinations row cs) * rate)%R.
Proof.
  intros Hrow Hlen H. pose proof H as H0. unfold propensity, range in H0.
  apply bind_returned in H0. destruct H0 as (hi & Hhi & H0).
  apply bind_returned in H0. destruct H0 as (rate & Hrate & _).
  apply cell_of_returned in Hrate.
  assert (Hs : Forall2 supplied row cs).
  { apply (@for_each_supplied sub_stoch cs i row Hrow Hlen
             (List.length row) 0%nat 1%Z hi); [lia|exact Hhi]. }
  exists rate. split; [exact Hrate|]. split; [exact Hs|].
  rewrite (@propensity_supplied sub_stoch rates cs i row rate Hrow Hrate Hlen Hs)
    in H.
  congruence.
Qed.

Lemma propensities_returned sub_stoch rates cs a :
  well_shaped sub_stoch -> List.length cs = ncols sub_stoch ->
  propensities sub_stoch rates cs (List.length (rows sub_stoch))
    (ncols sub_stoch) = Returned a ->
  forall mu p,
    nth_error a mu = Some p ->
    exists row rate,
      nth_error (rows sub_stoch) mu = Some row /\
      nth_error rates mu = Some rate /\
      Forall2 supplied row cs /\
      p = (IZR (combinations row cs) * rate)%R.
Proof.
  intros Hshape Hcs H mu p Hp. unfold propensities, range in H.
  pose proof (@collect_length _ _ _ _ H) as Hlen. rewrite length_seq in Hlen.
  apply collect_returned in H.
  pose proof (@Forall2_seq_nth _ _ _ _ _ H mu p Hp) as Hmu. cbn beta in Hmu.
  rewrite Nat.add_0_l in Hmu.
  assert (Hlt : (mu < List.length a)%nat)
    by (apply nth_error_Some; congruence).
  destruct (nth_error (rows sub_stoch) mu) as [row|] eqn:Erow;
    [|apply nth_error_None in Erow; lia].
  unfold well_shaped in Hshape. rewrite Forall_forall in Hshape.
  pose proof (Hshape _ (nth_error_In _ _ Erow)) as Hrow.
  rewrite <- Hrow in Hmu.
  destruct (@propensity_returned sub_stoch rates cs mu row p Erow
              ltac:(congruence) Hmu) as (rate & Hrate & Hs & ->).
  exists row, rate. auto.
Qed.

Lemma propensities_nonneg sub_stoch rates cs a :
  well_shaped sub_stoch -> List.length cs = ncols sub_stoch ->
  Forall (fun c => (0 <= c)%R) rates ->
  propensities sub_stoch rates cs (List.length (rows sub_stoch))
    (ncols sub_stoch) = Returned a ->
  Forall (fun p => (0 <= p)%R) a.
Proof.
  intros Hshape Hcs Hrates H. apply Forall_forall. intros p Hin.
  apply In_nth_error in Hin. destruct Hin as (mu & Hp).
  destruct (@propensities_returned _ _ _ _ Hshape Hcs H _ _ Hp)
    as (row & rate & _ & Hrate & _ & ->).
  rewrite Forall_forall in Hrates.
  apply Rmult_le_pos; [apply IZR_le, combinations_nonneg|].
  apply Hrates. eapply nth_error_In, Hrate.
Qed.



Lemma map2_bzip_same (A B C : Type) (f : A -> B -> C) c xs : forall ys,
  Forall (fun x => List.length x = c) xs ->
  Forall (fun y => List.length y = c) ys ->
  map2 (bzip f) xs ys = map2 (map2 f) xs ys.
Proof.
  induction xs as [|x xs IH]; intros [|y ys] Hx Hy; try reflexivity.
  inversion Hx; subst. inversion Hy; subst. cbn [map2].
  rewrite bzip_same by congruence. f_equal. apply IH; assumption.
Qed.

Lemma mat_add_rows m1 m2 stoch :
  well_shaped m1 -> well_shaped m2 ->
  List.length (rows m1) = List.length (rows m2) -> ncols m1 = ncols m2 ->
  mat_add m1 m2 = Returned stoch ->
  rows stoch = map2 (map2 Z.add) (rows m1) (rows m2) /\
  ncols stoch = ncols m1 /\
  List.length (rows stoch) = List.length (rows m1).
Proof.
  intros S1 S2 Hr Hc H. unfold mat_add in H.
  rewrite Hr, Hc, !broadcast_same in H. injection H as <-. cbn [rows ncols].
  rewrite bzip_same by exact Hr.
  rewrite map2_bzip_same with (c := ncols m2);
    [|rewrite <- Hc; exact S1|exact S2].
  split; [reflexivity|]. split; [congruence|].
  apply map2_length, Hr.
Qed.


Lemma xlt_finite t tmax : xlt t tmax = true -> exists c, t = Fin c.
Proof. destruct t; try discriminate. eauto. Qed.

Lemma running_finite tmax n_max e :
  running tmax n_max e = true -> exists c, current_time e = Fin c.
Proof.
  unfold running. intro H. apply andb_prop in H. destruct H as [H _].
  eapply xlt_finite, H.
Qed.

(** *** What every round keeps *)

Section Rounds.

Variables (rates : list R) (sub_stoch prod_stoch stoch : matrix).
Variables (tmax : R) (n_max : nat) (r1 r2 : list R) (nsyn : nat).
Hypothesis sub_shaped : well_shaped sub_stoch.
Hypothesis prod_shaped : well_shaped prod_stoch.
Hypothesis summed : mat_add sub_stoch prod_stoch = Returned stoch.

Lemma summed_shaped : well_shaped stoch.
Proof. exact (mat_add_shaped sub_shaped prod_shaped summed). Qed.

Lemma step_chained init e e' :
  sized stoch n_max e -> chained stoch init e ->
  step rates sub_stoch stoch r1 r2 (List.length (rows stoch)) (ncols stoch)
    nsyn e = Returned e' ->
  chained stoch init e'.
Proof.
  intros (_ & _ & _ & Hcs) (Hfirst & Hlast & Hpath) H.
  destruct (@step_returned rates sub_stoch stoch r1 r2 nsyn e e'
              summed_shaped Hcs H)
    as (dt & mu & delta & Hdelta & Hlen & _ & Hm & _ & ->).
  unfold chained. fields. split; [|split].
  - rewrite nth_error_set_nth_neq by lia. exact Hfirst.
  - apply nth_error_set_nth_eq, Hm.
  - intros k Hk. destruct (Nat.eq_dec k (n_counter e)) as [->|Hne].
    + exists (current_species e), delta.
      rewrite nth_error_set_nth_neq by lia.
      split; [exact Hlast|]. split; [eapply nth_error_In, Hdelta|].
      apply nth_error_set_nth_eq, Hm.
    + destruct (Hpath k ltac:(lia)) as (x & d & Hx & Hd & Hnext).
      exists x, d. rewrite !nth_error_set_nth_neq by lia. auto.
Qed.

Hypothesis same_rows :
  List.length (rows sub_stoch) = List.length (rows prod_stoch).
Hypothesis same_cols : ncols sub_stoch = ncols prod_stoch.
Hypothesis rates_nonneg : Forall (fun c => (0 <= c)%R) rates.

Lemma step_propensities e e' :
  sized stoch n_max e ->
  step rates sub_stoch stoch r1 r2 (List.length (rows stoch)) (ncols stoch)
    nsyn e = Returned e' ->
  exists a r1n r2n dt mu delta,
    propensities sub_stoch rates (current_species e)
      (List.length (rows sub_stoch)) (ncols sub_stoch) = Returned a /\
    Forall (fun p => (0 <= p)%R) a /\
    In r1n r1 /\ In r2n r2 /\
    next_values (sum a) a r1n r2n = Returned (dt, mu) /\
    nth_error (rows stoch) mu = Some delta /\
    (S (n_counter e) < List.length (store_time e))%nat /\
    (S (n_counter e) < List.length (store_number_molecules e))%nat /\
    e' = Engine (xadd (current_time e) dt)
           (map2 Z.add (current_species e) delta)
           (S (n_counter e))
           (Py.set_nth (S (n_counter e)) (xadd (current_time e) dt)
              (store_time e))
           (Py.set_nth (S (n_counter e))
              (map2 Z.add (current_species e) delta)
              (store_number_molecules e))
           (Py.set_nth (n_counter e) (repeat dt nsyn)
              (store_time_difference e)).
Proof.
  intros (_ & _ & _ & Hcs) H.
  destruct (@step_fired rates sub_stoch stoch r1 r2 nsyn e e'
              summed_shaped Hcs H)
    as (a & r1n & r2n & dt & mu & delta & Ha & Hr1 & Hr2 & Hnext & Hdelta
        & _ & Ht & Hm & ->).
  destruct (mat_add_rows sub_shaped prod_shaped same_rows same_cols summed)
    as (_ & Hc & Hr).
  rewrite Hr, Hc in Ha.
  exists a, r1n, r2n, dt, mu, delta.
  split; [exact Ha|]. split.
  { eapply propensities_nonneg; [exact sub_shaped| |exact rates_nonneg
                                 |exact Ha]. congruence. }
  split; [eapply nth_error_In, Hr1|]. split; [eapply nth_error_In, Hr2|].
  repeat split; assumption.
Qed.

Lemma step_climbing e e' :
  Forall (fun r => (0 < r < 1)%R) r1 ->
  sized stoch n_max e -> climbing e -> running tmax n_max e = true ->
  step rates sub_stoch stoch r1 r2 (List.length (rows stoch)) (ncols stoch)
    nsyn e = Returned e' ->
  climbing e'.
Proof.
  intros Hdraws Hsized (Hfirst & Hlast & Hclimb) Hrun H.
  destruct (step_propensities Hsized H)
    as (a & r1n & r2n & dt & mu & delta & _ & Hpos & Hr1 & _ & Hnext & _
        & Ht & _ & ->).
  destruct (@running_finite _ _ _ Hrun) as (c & Hc).
  unfold climbing. fields. split; [|split].
  - rewrite nth_error_set_nth_neq by lia. exact Hfirst.
  - apply nth_error_set_nth_eq, Ht.
  - intros k Hk. destruct (Nat.eq_dec k (n_counter e)) as [->|Hne].
    + exists c, (xadd (current_time e) dt).
      rewrite nth_error_set_nth_neq by lia.
      split; [congruence|]. split; [apply nth_error_set_nth_eq, Ht|].
      rewrite Hc, (@next_values_wait _ _ _ _ _ _ Hnext).
      destruct (Req_dec_T (sum a) 0) as [_|Hnz]; [exact I|].
      cbn [xadd after].
      assert (0 < 1 / sum a * ln (1 / r1n))%R; [|lra].
      apply wait_positive.
      * pose proof (sum_nonneg Hpos). lra.
      * rewrite Forall_forall in Hdraws. apply Hdraws, Hr1.
    + destruct (Hclimb k ltac:(lia)) as (x & u & Hx & Hu & Hxu).
      exists x, u. rewrite !nth_error_set_nth_neq by lia. auto.
Qed.


End Rounds.

(** ** The trajectory the engine returns *)

Lemma nth_error_firstn_some (A : Type) (x : A) : forall n l k,
  nth_error (firstn n l) k = Some x ->
  (k < n)%nat /\ nth_error l k = Some x.
Proof.
  induction n as [|n IH]; intros [|a l] [|k] H; simpl in H;
    try discriminate.
  - split; [lia|exact H].
  - destruct (IH _ _ H). split; [lia|assumption].
Qed.

Lemma nth_error_firstn_lt (A : Type) : forall n (l : list A) k,
  (k < n)%nat -> nth_error (firstn n l) k = nth_error l k.
Proof.
  induction n as [|n IH]; intros [|a l] [|k] H; simpl; try reflexivity;
    try lia.
  apply IH. lia.
Qed.

Lemma start_chained stoch init n_max ns nsyn :
  (1 <= n_max)%nat -> chained stoch init (start init n_max ns nsyn).
Proof.
  intro H. unfold chained, start. fields.
  assert (Hfirst : nth_error
                     (Py.set_nth 0 init (repeat (repeat 0%Z ns) n_max)) 0 =
                   Some init)
    by (apply nth_error_set_nth_eq; rewrite repeat_length; lia).
  split; [exact Hfirst|]. split; [exact Hfirst|]. intros; lia.
Qed.

Lemma start_climbing init n_max ns nsyn :
  (1 <= n_max)%nat -> climbing (start init n_max ns nsyn).
Proof.
  intro H. unfold climbing, start. fields.
  assert (Hfirst : nth_error (Py.set_nth 0 (Fin 0) (repeat (Fin 0) n_max)) 0 =
                   Some (Fin 0))
    by (apply nth_error_set_nth_eq; rewrite repeat_length; lia).
  split; [exact Hfirst|]. split; [exact Hfirst|]. intros; lia.
Qed.


(** What every round keeps holds when the loop has ended. *)
Lemma simulate_rounds (P : engine -> Prop) init rates sub_stoch stoch tmax
  n_max r1 r2 e :
  well_shaped stoch -> List.length init = ncols stoch ->
  (forall e e', sized stoch n_max e -> P e -> running tmax n_max e = true ->
                step rates sub_stoch stoch r1 r2 (List.length (rows stoch))
                  (ncols stoch) (synapses init) e = Returned e' -> P e') ->
  ((1 <= n_max)%nat -> P (start init n_max (ncols stoch) (synapses init))) ->
  simulate init rates sub_stoch stoch tmax n_max r1 r2 = Returned e ->
  P e.
Proof.
  intros Hshape Hinit Hstep Hstart H.
  pose proof (simulate_budget _ _ _ _ _ _ _ _ H) as Hn.
  rewrite simulate_start in H by assumption.
  edestruct (@run_keeps rates sub_stoch stoch tmax n_max r1 r2 (synapses init)
               Hshape P) as (_ & HP & _);
    [ exact Hstep
    | apply start_sized; exact Hinit
    | apply Hstart; exact Hn
    | exact H
    | exact HP ].
Qed.

Lemma coefficient_variation_no_row nsyn tracked differences time cv :
  coefficient_variation nsyn tracked differences [] time <> Returned cv.
Proof.
  unfold coefficient_variation.
  destruct (broadcast nsyn tracked); discriminate.
Qed.

(** A trajectory that is returned has at least one row. *)
Lemma gillespie_rounds s_i init rates sub_stoch prod_stoch tmax n_max
  r1 r2 times states cv :
  gillespie_algo s_i init rates sub_stoch prod_stoch tmax n_max r1 r2 =
    Returned (times, states, cv) ->
  exists stoch e,
    mat_add sub_stoch prod_stoch = Returned stoch /\
    simulate init rates sub_stoch stoch tmax n_max r1 r2 = Returned e /\
    times = firstn (n_counter e) (store_time e) /\
    states = firstn (n_counter e) (store_number_molecules e) /\
    (1 <= n_counter e)%nat.
Proof.
  unfold gillespie_algo. intro H.
  apply bind_returned in H. destruct H as (stoch & Hstoch & H).
  apply bind_returned in H. destruct H as (e & He & H).
  apply bind_returned in H. destruct H as (cv' & Hcv & H).
  injection H as <- <- <-. exists stoch, e.
  repeat (split; [assumption || reflexivity|]).
  destruct (n_counter e) as [|n]; [|lia].
  exfalso. cbn [firstn map] in Hcv.
  exact (coefficient_variation_no_row _ _ _ _ Hcv).
Qed.

Lemma chained_shaped stoch init e :
  well_shaped stoch -> List.length init = ncols stoch ->
  chained stoch init e ->
  forall k, (k <= n_counter e)%nat ->
            exists x, nth_error (store_number_molecules e) k = Some x /\
                      List.length x = ncols stoch.
Proof.
  intros Hshape Hinit (Hfirst & _ & Hpath).
  induction k as [|k IH]; intro Hk; [eauto|].
  destruct (IH ltac:(lia)) as (x & Hx & Hlen).
  destruct (Hpath k ltac:(lia)) as (x' & delta & Hx' & Hdelta & Hnext).
  assert (x' = x) by congruence. subst x'.
  exists (map2 Z.add x delta). split; [exact Hnext|].
  unfold well_shaped in Hshape. rewrite Forall_forall in Hshape.
  rewrite map2_length; [exact Hlen|]. rewrite (Hshape _ Hdelta). exact Hlen.
Qed.

Lemma firstn_shaped stoch init e :
  well_shaped stoch -> List.length init = ncols stoch ->
  chained stoch init e ->
  Forall (fun x => List.length x = ncols stoch)
    (firstn (n_counter e) (store_number_molecules e)).
Proof.
  intros Hshape Hinit Hchain. apply Forall_forall. intros x Hin.
  apply in_firstn in Hin. destruct Hin as (k & Hk & Hx).
  destruct (@chained_shaped stoch init e Hshape Hinit Hchain k ltac:(lia))
    as (x' & Hx' & Hlen).
  congruence.
Qed.



(** The time stamps of the returned trajectory start at 0 and strictly
    increase, when no rate constant is negative and the draws [r1] are in
    (0,1). *)
Theorem stamps_start_at_zero_and_increase (s_i init : list Z)
  (rates : list R) (sub_stoch prod_stoch : matrix) (tmax : R) (n_max : nat)
  (r1 r2 : list R) (times : list xreal) (states : list (list Z))
  (cv : list xreal) :
  well_shaped sub_stoch -> well_shaped prod_stoch ->
  List.length (rows sub_stoch) = List.length (rows prod_stoch) ->
  ncols sub_stoch = ncols prod_stoch ->
  List.length init = ncols sub_stoch ->
  Forall (fun c => (0 <= c)%R) rates ->
  Forall (fun r => (0 < r < 1)%R) r1 ->
  gillespie_algo s_i init rates sub_stoch prod_stoch tmax n_max r1 r2 =
    Returned (times, states, cv) ->
  nth_error times 0 = Some (Fin 0) /\
  forall k t u,
    nth_error times k = Some t -> nth_error times (S k) = Some u ->
    exists a b, t = Fin a /\ u = Fin b /\ (a < b)%R.
Proof.
  intros Hsub Hprod Hrows Hcols Hinit Hrates Hdraws H.
  destruct (gillespie_rounds _ _ _ _ _ _ _ _ _ H)
    as (stoch & e & Hadd & Hsim & -> & -> & Hone).
  pose proof (mat_add_shaped Hsub Hprod Hadd) as Hshape.
  destruct (mat_add_rows Hsub Hprod Hrows Hcols Hadd) as (_ & Hc & _).
  assert (Hinit' : List.length init = ncols stoch) by congruence.
  destruct (@simulate_keeps init rates sub_stoch stoch tmax n_max r1 r2 e
              Hshape Hinit' Hsim) as (Hsized & Hstamped & _ & _).
  assert (Hclimb : climbing e).
  { apply (@simulate_rounds climbing init rates sub_stoch stoch
             tmax n_max r1 r2 e Hshape Hinit'); [| |exact Hsim].
    - intros e1 e2 Hs1 Hc1 Hrun Hstep.
      exact (@step_climbing rates sub_stoch prod_stoch stoch tmax n_max r1 r2
               (synapses init) Hsub Hprod Hadd Hrows Hcols Hrates e1 e2
               Hdraws Hs1 Hc1 Hrun Hstep).
    - intro Hn. apply start_climbing, Hn. }
  destruct Hclimb as (Hfirst & _ & Hup). destruct Hstamped as [_ Hbelow].
  split.
  - rewrite nth_error_firstn_lt by lia. exact Hfirst.
  - intros k t u Ht Hu.
    apply nth_error_firstn_some in Ht, Hu.
    destruct Ht as [_ Ht]. destruct Hu as [Hk Hu].
    destruct (Hup k ltac:(lia)) as (a & u' & Ha & Hu' & Hafter).
    assert (u' = u) by congruence. subst u'.
    destruct (Hbelow (S k) Hk) as (u' & Hu'' & Hlt).
    assert (u' = u) by congruence. subst u'.
    destruct (xlt_finite _ _ Hlt) as (b & ->).
    exists a, b. split; [congruence|]. split; [reflexivity|exact Hafter].
Qed.

Lemma stamps_start_at_zero_and_increase_witness :
  exists times states cv,
    gillespie_algo [20; 40; 60; 80]%Z receptor_init (repeat 1%R 10)
      receptor_sub receptor_prod 60 1000
      (repeat (1 / 2)%R 1000) (repeat (1 / 2)%R 1000) =
      Returned (times, states, cv) /\
    nth_error times 0 = Some (Fin 0) /\
    forall k t u,
      nth_error times k = Some t -> nth_error times (S k) = Some u ->
      exists a b, t = Fin a /\ u = Fin b /\ (a < b)%R.
Proof.
  destruct (valid_run [20; 40; 60; 80]%Z receptor_input_valid) as
    (stoch & e & cv & _ & _ & Hrun & _).
  eexists. eexists. exists cv. split; [exact Hrun|].
  apply (@stamps_start_at_zero_and_increase [20; 40; 60; 80]%Z receptor_init
           (repeat 1%R 10) receptor_sub receptor_prod
           60 1000 (repeat (1 / 2)%R 1000) (repeat (1 / 2)%R 1000)
           (firstn (n_counter e) (store_time e))
           (firstn (n_counter e) (store_number_molecules e)) cv).
  - unfold well_shaped. simpl. repeat constructor.
  - unfold well_shaped. simpl. repeat constructor.
  - reflexivity.
  - reflexivity.
  - reflexivity.
  - apply Forall_repeat. lra.
  - apply Forall_repeat. lra.
  - exact Hrun.
Defined.



(** ** The engine without a round, and the width of the statistics *)

(** When the loop cannot run a round, for a horizon that is not positive
    or a budget [n_max] of at most 1, the engine returns nothing: the
    statistics divide the integer 0 by the integer clock 0
    (ZeroDivisionError), unless their two widths do not fit (ValueError of
    the broadcast); with a budget of 0 the first stamp cannot be stored
    (IndexError). *)
Theorem no_round_no_trajectory (s_i init : list Z) (rates : list R)
  (sub_stoch prod_stoch stoch : matrix) (tmax : R) (n_max : nat)
  (r1 r2 : list R) :
  mat_add sub_stoch prod_stoch = Returned stoch ->
  List.length init = ncols stoch ->
  (tmax <= 0)%R \/ (n_max <= 1)%nat ->
  gillespie_algo s_i init rates sub_stoch prod_stoch tmax n_max r1 r2 =
  Raised (if (n_max =? 0)%nat then IndexError
          else match broadcast (synapses init) (Nat.min 4 (ncols stoch)) with
               | Some _ => ZeroDivisionError
               | None => ShapeError
               end).
Proof.
  intros Hadd Hinit Hstop. unfold gillespie_algo. rewrite Hadd. cbn [bind].
  destruct n_max as [|fuel]; [reflexivity|].
  rewrite simulate_start by (assumption || lia).
  assert (Hrun : running tmax (S fuel)
                   (start init (S fuel) (ncols stoch) (synapses init)) =
                 false).
  { unfold running, start. fields. cbn [xlt].
    destruct Hstop as [Ht|Hn].
    - destruct (Rlt_dec 0 tmax); [lra|reflexivity].
    - replace (S fuel - 1)%nat with 0%nat by lia. apply andb_false_r. }
  cbn [run]. rewrite Hrun. cbn [bind]. unfold start. fields.
  cbn [firstn map Nat.eqb]. unfold coefficient_variation.
  destruct (broadcast (synapses init) (Nat.min 4 (ncols stoch))); reflexivity.
Qed.

Lemma no_round_no_trajectory_witness :
  gillespie_algo [] [0%Z] [1%R] (Matrix 1 [[0%Z]]) (Matrix 1 [[1%Z]]) 10 1
    [(1 / 2)%R] [(1 / 2)%R] = Raised ZeroDivisionError.
Proof.
  apply (@no_round_no_trajectory [] [0%Z] [1%R] (Matrix 1 [[0%Z]])
           (Matrix 1 [[1%Z]]) (Matrix 1 [[1%Z]]) 10 1
           [(1 / 2)%R] [(1 / 2)%R]).
  - reflexivity.
  - reflexivity.
  - right. lia.
Defined.

Lemma fit_counts (init : list Z) :
  broadcast (synapses init) (Nat.min 4 (List.length init)) <> None <->
  In (List.length init) [0; 1; 3; 4; 9; 10]%nat.
Proof.
  unfold synapses. remember (List.length init) as L eqn:E. clear E init.
  destruct (Nat.le_gt_cases 11 L) as [Hbig|Hsmall].
  - split; [|simpl; lia]. intro H. exfalso. apply H.
    assert (Hq : (5 <= Z.quot (Z.of_nat L - 1) 2)%Z).
    { change 5%Z with (Z.quot 10 2). apply Z.quot_le_mono; lia. }
    rewrite Nat.min_l by lia. unfold broadcast.
    destruct (Nat.eqb_spec (Z.to_nat (Z.quot (Z.of_nat L - 1) 2)) 4); [lia|].
    destruct (Nat.eqb_spec (Z.to_nat (Z.quot (Z.of_nat L - 1) 2)) 1); [lia|].
    reflexivity.
  - do 11 (destruct L as [|L];
             [split; intro H;
              [first [simpl; lia|exfalso; apply H; reflexivity]
              |first [vm_compute; discriminate|simpl in H; lia]]|]).
    lia.
Qed.

Lemma runnable_simulate init rates sub_stoch prod_stoch tmax n_max r1 r2 :
  well_shaped sub_stoch -> well_shaped prod_stoch ->
  List.length (rows sub_stoch) = List.length (rows prod_stoch) ->
  ncols sub_stoch = ncols prod_stoch ->
  rows sub_stoch <> [] ->
  List.length init = ncols sub_stoch ->
  List.length rates = List.length (rows sub_stoch) ->
  Forall (fun c => (0 <= c)%R) rates ->
  Forall (Forall (fun m => (-1 <= m <= 1)%Z)) (rows sub_stoch) ->
  (0 < tmax)%R -> (2 <= n_max)%nat ->
  List.length r1 = n_max ->
  List.length r2 = n_max -> Forall (fun r => (0 < r < 1)%R) r2 ->
  exists stoch e,
    mat_add sub_stoch prod_stoch = Returned stoch /\
    ncols stoch = ncols sub_stoch /\
    simulate init rates sub_stoch stoch tmax n_max r1 r2 = Returned e.
Proof.
  intros sub_shaped prod_shaped same_rows same_cols some_reaction
    one_count_per_species one_rate_per_reaction rates_nonneg
    unit_coefficients horizon_positive budget_two Hr1 Hr2 Hr2u.
  destruct (mat_add_same sub_stoch prod_stoch same_rows same_cols)
    as (stoch & Hadd & Hcols & Hrows).
  pose proof (mat_add_shaped sub_shaped prod_shaped Hadd) as Hshape.
  assert (Hinit : List.length init = ncols stoch) by congruence.
  assert (Hn : (1 <= n_max)%nat) by lia.
  assert (Hreact : rows stoch <> []).
  { intro E. rewrite E in Hrows. destruct (rows sub_stoch); [congruence|].
    discriminate. }
  pose proof (start_sized init stoch n_max (synapses init) Hinit) as Hs0.
  assert (Hrun0 : running tmax n_max
                    (start init n_max (ncols stoch) (synapses init)) = true).
  { unfold running, start. fields. cbn [xlt].
    destruct (Rlt_dec 0 tmax); [|lra]. apply Nat.ltb_lt. lia. }
  destruct (@run_total rates sub_stoch stoch tmax n_max r1 r2 (synapses init)
              Hshape sub_shaped unit_coefficients one_rate_per_reaction
              rates_nonneg (eq_sym Hrows) (eq_sym Hcols) Hreact Hr1 Hr2 Hr2u
              n_max _ Hs0 ltac:(lia)) as (e & Hrun).
  exists stoch, e. split; [exact Hadd|]. split; [exact Hcols|].
  rewrite simulate_start by assumption. exact Hrun.
Qed.

(** A loop that completes on a positive horizon and a budget of 2 or more
    has fired an event. *)
Lemma simulate_fired init rates sub_stoch stoch tmax n_max r1 r2 e :
  well_shaped stoch -> List.length init = ncols stoch ->
  (0 < tmax)%R -> (2 <= n_max)%nat ->
  simulate init rates sub_stoch stoch tmax n_max r1 r2 = Returned e ->
  (1 <= n_counter e)%nat.
Proof.
  intros Hshape Hinit Ht Hn H.
  rewrite simulate_start in H by (assumption || lia).
  pose proof (start_sized init stoch n_max (synapses init) Hinit) as Hs0.
  assert (Hrun0 : running tmax n_max
                    (start init n_max (ncols stoch) (synapses init)) = true).
  { unfold running, start. fields. cbn [xlt].
    destruct (Rlt_dec 0 tmax); [|lra]. apply Nat.ltb_lt. lia. }
  destruct n_max as [|fuel]; [lia|]. cbn [run] in H. rewrite Hrun0 in H.
  apply bind_returned in H. destruct H as (e1 & Hstep & H).
  edestruct (@run_keeps rates sub_stoch stoch tmax (S fuel) r1 r2
               (synapses init) Hshape (fun e => (1 <= n_counter e)%nat))
    as (_ & Hge & _);
    [ intros ? ? _ _ _ Hst; apply step_counter in Hst; lia
    | eapply step_sized; eassumption
    | cbv beta; apply step_counter in Hstep; rewrite Hstep; lia
    | exact H
    | exact Hge ].
Qed.

(** After a loop that has fired an event, the statistics return when
    their widths broadcast, and raise the ValueError of NumPy when not. *)
Lemma completed_gillespie s_i init rates sub_stoch prod_stoch stoch tmax
  n_max r1 r2 e :
  well_shaped stoch -> List.length init = ncols stoch ->
  mat_add sub_stoch prod_stoch = Returned stoch ->
  simulate init rates sub_stoch stoch tmax n_max r1 r2 = Returned e ->
  (1 <= n_counter e)%nat ->
  match broadcast (synapses init) (Nat.min 4 (ncols stoch)) with
  | Some _ =>
      exists cv,
        gillespie_algo s_i init rates sub_stoch prod_stoch tmax n_max r1 r2 =
        Returned (firstn (n_counter e) (store_time e),
                  firstn (n_counter e) (store_number_molecules e), cv)
  | None =>
      gillespie_algo s_i init rates sub_stoch prod_stoch tmax n_max r1 r2 =
      Raised ShapeError
  end.
Proof.
  intros Hshape Hinit Hadd Hsim Hone.
  destruct (@simulate_keeps init rates sub_stoch stoch tmax n_max r1 r2 e
              Hshape Hinit Hsim) as (Hsized & Hstamped & _ & _).
  pose proof (@stamped_counter stoch tmax n_max e Hsized Hstamped) as Hlt.
  destruct Hsized as (_ & Hm & _ & _).
  unfold gillespie_algo. rewrite Hadd. cbn [bind]. rewrite Hsim. cbn [bind].
  destruct (broadcast (synapses init) (Nat.min 4 (ncols stoch))) as [w|] eqn:Ew.
  - assert (Hne : map (firstn 4)
                    (firstn (n_counter e) (store_number_molecules e)) <> []).
    { destruct (store_number_molecules e) as [|row store] eqn:Es;
        [simpl in Hm; lia|].
      destruct (n_counter e) eqn:En; [lia|]. discriminate. }
    destruct (@coefficient_variation_total (synapses init)
                (Nat.min 4 (ncols stoch)) w
                (firstn (n_counter e) (store_time_difference e))
                (map (firstn 4)
                   (firstn (n_counter e) (store_number_molecules e)))
                (current_time e) Ew Hne) as (cv & Hcv).
    exists cv. rewrite Hcv. reflexivity.
  - unfold coefficient_variation. rewrite Ew. reflexivity.
Qed.

(** The statistics multiply an array of [int((len(init)-1)/2)] columns with
    one of the first four species.  When the loop of the engine completes
    (no round raises), on a positive horizon and a budget of 2 or more,
    the engine returns the trajectory when the number of species is 0, 1,
    3, 4, 9 or 10, and for every other number of species it raises the
    ValueError of the broadcast after the loop. *)
Theorem engine_returns_for_six_species_counts (s_i init : list Z)
  (rates : list R) (sub_stoch prod_stoch stoch : matrix) (tmax : R)
  (n_max : nat) (r1 r2 : list R) (e : engine) :
  well_shaped sub_stoch -> well_shaped prod_stoch ->
  mat_add sub_stoch prod_stoch = Returned stoch ->
  List.length init = ncols stoch ->
  (0 < tmax)%R -> (2 <= n_max)%nat ->
  simulate init rates sub_stoch stoch tmax n_max r1 r2 = Returned e ->
  (In (List.length init) [0; 1; 3; 4; 9; 10]%nat ->
   exists cv,
     gillespie_algo s_i init rates sub_stoch prod_stoch tmax n_max r1 r2 =
     Returned (firstn (n_counter e) (store_time e),
               firstn (n_counter e) (store_number_molecules e), cv)) /\
  (~ In (List.length init) [0; 1; 3; 4; 9; 10]%nat ->
   gillespie_algo s_i init rates sub_stoch prod_stoch tmax n_max r1 r2 =
   Raised ShapeError).
Proof.
  intros Hsub Hprod Hadd Hinit Ht Hn Hsim.
  pose proof (mat_add_shaped Hsub Hprod Hadd) as Hshape.
  pose proof (@simulate_fired init rates sub_stoch stoch tmax n_max r1 r2 e
                Hshape Hinit Ht Hn Hsim) as Hone.
  pose proof (@completed_gillespie s_i init rates sub_stoch prod_stoch stoch
                tmax n_max r1 r2 e Hshape Hinit Hadd Hsim Hone) as H.
  pose proof (fit_counts init) as Hfit. rewrite Hinit in Hfit at 1.
  destruct (broadcast (synapses init) (Nat.min 4 (ncols stoch))) as [w|].
  - split; [intros _; exact H|].
    intro Hcount. exfalso. apply Hcount, Hfit. discriminate.
  - split; [|intros _; exact H].
    intro Hcount. apply Hfit in Hcount. congruence.
Qed.

Lemma engine_returns_for_six_species_counts_witness :
  exists e,
    simulate [1; 0]%Z [1%R] (Matrix 2 [[-1; 0]%Z]) (Matrix 2 [[-1; 1]%Z])
      10 5 (repeat (1 / 2)%R 5) (repeat (1 / 2)%R 5) = Returned e /\
    (In (List.length [1; 0]%Z) [0; 1; 3; 4; 9; 10]%nat ->
     exists cv,
       gillespie_algo [] [1; 0]%Z [1%R] (Matrix 2 [[-1; 0]%Z])
         (Matrix 2 [[0; 1]%Z]) 10 5 (repeat (1 / 2)%R 5)
         (repeat (1 / 2)%R 5) =
       Returned (firstn (n_counter e) (store_time e),
                 firstn (n_counter e) (store_number_molecules e), cv)) /\
    (~ In (List.length [1; 0]%Z) [0; 1; 3; 4; 9; 10]%nat ->
     gillespie_algo [] [1; 0]%Z [1%R] (Matrix 2 [[-1; 0]%Z])
       (Matrix 2 [[0; 1]%Z]) 10 5 (repeat (1 / 2)%R 5)
       (repeat (1 / 2)%R 5) = Raised ShapeError).
Proof.
  destruct (@runnable_simulate [1; 0]%Z [1%R] (Matrix 2 [[-1; 0]%Z])
              (Matrix 2 [[0; 1]%Z]) 10 5 (repeat (1 / 2)%R 5)
              (repeat (1 / 2)%R 5)) as (stoch & e & Hadd & _ & Hsim).
  - unfold well_shaped. simpl. repeat constructor.
  - unfold well_shaped. simpl. repeat constructor.
  - reflexivity.
  - reflexivity.
  - discriminate.
  - reflexivity.
  - reflexivity.
  - constructor; [lra|constructor].
  - simpl. repeat (constructor; try lia).
  - lra.
  - lia.
  - reflexivity.
  - reflexivity.
  - apply Forall_repeat; lra.
  - vm_compute in Hadd.
    assert (Es : stoch = Matrix 2 [[-1; 1]%Z]) by congruence. subst stoch.
    exists e. split; [exact Hsim|].
    apply (@engine_returns_for_six_species_counts [] [1; 0]%Z [1%R]
             (Matrix 2 [[-1; 0]%Z]) (Matrix 2 [[0; 1]%Z])
             (Matrix 2 [[-1; 1]%Z]) 10 5
             (repeat (1 / 2)%R 5) (repeat (1 / 2)%R 5) e).
    + unfold well_shaped. simpl. repeat constructor.
    + unfold well_shaped. simpl. repeat constructor.
    + reflexivity.
    + reflexivity.
    + lra.
    + lia.
    + exact Hsim.
Defined.

(** ** The statistics of a species that does not change *)

Lemma sum_steps_constant (c : R) : forall waits values,
  List.length waits = List.length values ->
  Forall (fun v => v = c) values ->
  sum_steps (fun d v => d * v)%R waits values = (c * sum waits)%R.
Proof.
  induction waits as [|d waits IH]; intros [|v values] Hl Hv;
    try discriminate.
  - unfold sum. simpl. lra.
  - inversion Hv; subst. cbn [sum_steps]. rewrite sum_cons.
    rewrite IH by (simpl in Hl; lia || assumption). lra.
Qed.

Lemma sum_steps_at_mean (c total : R) : forall waits values,
  Forall (fun v => v = c) values ->
  sum_steps (fun d v => (v - c) ^ 2 * (d / total))%R waits values = 0%R.
Proof.
  induction waits as [|d waits IH]; intros [|v values] Hv; try reflexivity.
  inversion Hv; subst. cbn [sum_steps]. rewrite IH by assumption.
  unfold Rdiv. ring.
Qed.

(** The widths of the statistics for 3, 4, 9 and 10 species: a single
    column of waits, or one per tracked species. *)
Lemma fit_engine (init : list Z) :
  In (List.length init) [3; 4; 9; 10]%nat ->
  synapses init = Nat.min 4 (List.length init) \/ synapses init = 1%nat.
Proof.
  unfold synapses. intros [<-|[<-|[<-|[<-|[]]]]].
  - right. reflexivity.
  - right. reflexivity.
  - left. reflexivity.
  - left. reflexivity.
Qed.

(** In the statistics of the engine for 3, 4, 9 or 10 species (the wait
    array has [int((len(init)-1)/2)] columns, the first four species are
    tracked), a tracked species whose count is the same [c] in every row
    has the statistic 0, over the reals; it is not-a-number when [c] is 0
    (0 divided by 0). *)
Theorem constant_species_has_no_variation (init : list Z)
  (waits : list R) (values : list (list Z)) (s : nat) (c : Z) :
  In (List.length init) [3; 4; 9; 10]%nat ->
  values <> [] ->
  List.length waits = List.length values ->
  Forall (fun row => List.length row = Nat.min 4 (List.length init)) values ->
  (s < Nat.min 4 (List.length init))%nat ->
  (0 < sum waits)%R ->
  Forall (fun row => nth s row 0%Z = c) values ->
  exists cv,
    coefficient_variation (synapses init) (Nat.min 4 (List.length init))
      (map (fun d => repeat (Fin d) (synapses init)) waits) values
      (Fin (sum waits)) = Returned cv /\
    nth s cv NaN = if (c =? 0)%Z then NaN else Fin 0.
Proof.
  intros Hcount Hne Hl Hv Hs Htotal Hconst.
  pose proof (fit_engine init Hcount) as Hfit.
  set (nsyn := synapses init) in *.
  set (tracked := Nat.min 4 (List.length init)) in *.
  assert (Hcol : Forall (fun v => v = IZR c) (column s values)).
  { unfold column. apply Forall_forall. intros v Hin.
    apply in_map_iff in Hin. destruct Hin as (row & <- & Hrow).
    rewrite Forall_forall in Hconst. rewrite (Hconst _ Hrow). reflexivity. }
  assert (Hmean : weighted_mean waits (column s values) (sum waits) = IZR c).
  { unfold weighted_mean. rewrite sum_steps_constant with (c := IZR c);
      [field; lra| |exact Hcol].
    unfold column. rewrite length_map. exact Hl. }
  assert (Hw : broadcast nsyn tracked = Some tracked).
  { unfold broadcast. destruct Hfit as [->| ->].
    - rewrite Nat.eqb_refl. reflexivity.
    - destruct (Nat.eqb_spec 1 tracked) as [<-|_]; reflexivity. }
  exists (cv_finite tracked (map (fun d => repeat d nsyn) waits)
            (map (map IZR) values) (sum waits)).
  split.
  - unfold coefficient_variation. rewrite Hw.
    destruct values as [|row values']; [congruence|].
    rewrite all_finite_rows_waits.
    destruct (Req_dec_T (sum waits) 0); [lra|reflexivity].
  - destruct (@cv_finite_cell nsyn tracked (sum waits) waits values s
                Hfit Hs Hl Hv) as [_ Hcell].
    rewrite Hcell, Hmean, sum_steps_at_mean by exact Hcol.
    unfold cv_cell. destruct (Rlt_dec 0 0) as [Hneg|_]; [lra|].
    destruct (Z.eqb_spec c 0) as [->|Hc].
    + destruct (Req_dec_T 0 0) as [_|Hnz]; [|lra].
      rewrite sqrt_0. destruct (Req_dec_T 0 0) as [_|Hnz]; [reflexivity|lra].
    + destruct (Req_dec_T (IZR c) 0) as [Hz|Hnz].
      * exfalso. apply Hc. apply eq_IZR_R0, Hz.
      * rewrite sqrt_0. f_equal. field. exact Hnz.
Qed.

Lemma constant_species_has_no_variation_witness :
  exists cv,
    coefficient_variation (synapses [3; 1; 0]%Z)
      (Nat.min 4 (List.length [3; 1; 0]%Z))
      (map (fun d => repeat (Fin d) (synapses [3; 1; 0]%Z)) [1; 2]%R)
      [[3; 1; 0]; [3; 0; 1]]%Z (Fin (sum [1; 2]%R)) = Returned cv /\
    nth 0 cv NaN = Fin 0.
Proof.
  apply (@constant_species_has_no_variation [3; 1; 0]%Z [1; 2]%R
           [[3; 1; 0]; [3; 0; 1]]%Z 0 3).
  - simpl. auto.
  - discriminate.
  - reflexivity.
  - repeat constructor.
  - simpl. lia.
  - unfold sum. simpl. lra.
  - repeat constructor.
Defined.

(** ** The main program *)

Lemma program_rates_positive : Forall (fun c => (0 <= c)%R) Main.rates.
Proof.
  unfold Main.rates. simpl.
  assert (Ha : (0 < Main.alpha)%R).
  { unfold Main.alpha, Main.beta, Main.phi, Main.F, Main.s. simpl.
    apply Rdiv_lt_0_compat; lra. }
  assert (Hb : (0 < Main.beta)%R) by (unfold Main.beta; lra).
  assert (Hd : (0 < Main.delta)%R) by (unfold Main.delta; lra).
  assert (Hg : (0 < Main.gamma)%R).
  { unfold Main.gamma. apply Rmult_lt_0_compat; [exact Hd|].
    unfold Main.alpha, Main.beta, Main.phi, Main.F, Main.s. simpl.
    assert (E : (60 / 43 / (60 / 43 / (2.67 * 200 * (1 - 0.9))) =
                 2.67 * 200 * (1 - 0.9))%R) by (field; lra).
    rewrite E. lra. }
  repeat constructor; lra.
Qed.

Lemma program_input_valid start r1 r2 :
  List.length r1 = Main.n_max /\ Forall (fun r => (0 < r < 1)%R) r1 ->
  List.length r2 = Main.n_max /\ Forall (fun r => (0 < r < 1)%R) r2 ->
  valid_input (Main.init1 start) Main.rates receptor_sub receptor_prod
    Main.tmax Main.n_max r1 r2.
Proof.
  intros Hr1 Hr2. constructor.
  - unfold well_shaped. simpl. repeat constructor.
  - unfold well_shaped. simpl. repeat constructor.
  - reflexivity.
  - reflexivity.
  - discriminate.
  - reflexivity.
  - vm_compute. discriminate.
  - reflexivity.
  - exact program_rates_positive.
  - simpl. repeat (constructor; try lia).
  - unfold Main.tmax. lra.
  - unfold Main.n_max. lia.
  - exact Hr1.
  - exact Hr2.
Qed.

Lemma slots_closed i :
  (i < 4)%nat ->
  Forall (fun delta => dot (Main.slots i) delta = 0%Z)
    (map2 (map2 Z.add) (rows receptor_sub) (rows receptor_prod)).
Proof.
  intro Hi. do 4 (destruct i as [|i]; [simpl; repeat constructor|]). lia.
Qed.

Lemma slots_initial i start :
  (i < 4)%nat ->
  dot (Main.slots i) (Main.init1 start) = nth i Main.s_i 0%Z.
Proof.
  intro Hi. do 4 (destruct i as [|i]; [simpl; lia|]). lia.
Qed.

(** A simulation of the main program that returns, for any value of
    [start], gives a trajectory of 1 to [n_max - 1] rows that starts at
    [init1]; in every row the bound receptors and the free slots of each
    synapse add up to the slots [s_i] of the synapse. *)
Theorem program_simulation_keeps_the_slots (start : Z) (r1 r2 : list R)
  (times : list xreal) (states : list (list Z)) (cv : list xreal) :
  Main.simulation start r1 r2 = Returned (times, states, cv) ->
  (1 <= List.length states <= Main.n_max - 1)%nat /\
  nth_error states 0 = Some (Main.init1 start) /\
  forall i, (i < 4)%nat ->
            Forall (fun x => dot (Main.slots i) x = nth i Main.s_i 0%Z)
              states.
Proof.
  unfold Main.simulation. rewrite receptor_parsed. cbn [bind]. intro H.
  destruct (gillespie_rounds _ _ _ _ _ _ _ _ _ H)
    as (stoch & e & Hadd & Hsim & _ & -> & Hone).
  assert (Hstoch : stoch = Matrix 9 (map2 (map2 Z.add) (rows receptor_sub)
                                       (rows receptor_prod))).
  { vm_compute in Hadd. injection Hadd as <-. reflexivity. }
  assert (Hshape : well_shaped stoch).
  { rewrite Hstoch. unfold well_shaped. simpl. repeat constructor. }
  assert (Hinit : List.length (Main.init1 start) = ncols stoch)
    by (rewrite Hstoch; reflexivity).
  destruct (@simulate_keeps (Main.init1 start) Main.rates receptor_sub stoch
              Main.tmax Main.n_max r1 r2 e Hshape Hinit Hsim)
    as (Hsized & Hstamped & _ & Hkeep).
  pose proof (@stamped_counter stoch Main.tmax Main.n_max e Hsized Hstamped)
    as Hlt.
  pose proof Hsized as (_ & Hm & _ & _).
  split; [rewrite length_firstn; lia|]. split.
  - assert (Hchain : chained stoch (Main.init1 start) e).
    { apply (@simulate_rounds (chained stoch (Main.init1 start))
               (Main.init1 start) Main.rates receptor_sub stoch
               Main.tmax Main.n_max r1 r2 e Hshape Hinit); [| |exact Hsim].
      - intros e1 e2 Hs1 Hc1 _ Hstep.
        refine (@step_chained Main.rates receptor_sub receptor_prod stoch
                  Main.n_max r1 r2 (synapses (Main.init1 start)) _ _ _
                  (Main.init1 start) e1 e2 Hs1 Hc1 Hstep).
        + unfold well_shaped. simpl. repeat constructor.
        + unfold well_shaped. simpl. repeat constructor.
        + rewrite Hstoch. reflexivity.
      - intro Hn. apply start_chained, Hn. }
    destruct Hchain as (Hfirst & _).
    rewrite nth_error_firstn_lt by lia. exact Hfirst.
  - intros i Hi. rewrite <- (slots_initial start Hi).
    apply firstn_conserved, Hkeep. rewrite Hstoch. cbn [rows].
    apply slots_closed, Hi.
Qed.

Lemma program_simulation_keeps_the_slots_witness :
  exists times states cv,
    Main.simulation 200
      (repeat (1 / 2)%R Main.n_max) (repeat (1 / 2)%R Main.n_max) =
      Returned (times, states, cv) /\
    (1 <= List.length states <= Main.n_max - 1)%nat /\
    nth_error states 0 = Some (Main.init1 200) /\
    forall i, (i < 4)%nat ->
              Forall (fun x => dot (Main.slots i) x = nth i Main.s_i 0%Z)
                states.
Proof.
  assert (Hdraws : List.length (repeat (1 / 2)%R Main.n_max) = Main.n_max /\
                   Forall (fun r => (0 < r < 1)%R)
                     (repeat (1 / 2)%R Main.n_max))
    by (split; [apply repeat_length|apply Forall_repeat; lra]).
  destruct (valid_run Main.s_i (program_input_valid 200 Hdraws Hdraws))
    as (stoch & e & cv & _ & _ & Hrun & _).
  assert (Hsim : Main.simulation 200 (repeat (1 / 2)%R Main.n_max)
                   (repeat (1 / 2)%R Main.n_max) =
                 Returned (firstn (n_counter e) (store_time e),
                           firstn (n_counter e) (store_number_molecules e),
                           cv)).
  { unfold Main.simulation. rewrite receptor_parsed. exact Hrun. }
  eexists. eexists. exists cv. split; [exact Hsim|].
  exact (@program_simulation_keeps_the_slots 200
           (repeat (1 / 2)%R Main.n_max) (repeat (1 / 2)%R Main.n_max)
           _ _ cv Hsim).
Defined.

Lemma receptors_of_nine (wi : matrix) :
  well_shaped wi -> ncols wi = 9%nat ->
  Main.receptors wi =
  Returned (map (fun row => (nth 0 row 0 + nth 1 row 0 + nth 2 row 0
                             + nth 3 row 0 + nth 8 row 0)%Z) (rows wi)).
Proof.
  intros Hshape Hcols. unfold Main.receptors, Main.delete_column.
  rewrite Hcols. cbn [Nat.ltb Nat.leb Nat.sub bind ncols rows].
  unfold Main.sum_columns. cbn [rows]. rewrite !map_map. f_equal.
  apply map_ext_in. intros row Hin.
  unfold well_shaped in Hshape. rewrite Forall_forall in Hshape.
  pose proof (Hshape _ Hin) as Hlen. rewrite Hcols in Hlen.
  do 9 (destruct row as [|? row]; [discriminate|]).
  destruct row; [|discriminate]. simpl. lia.
Qed.

(** The plotted number of receptors: for recorded states of 9 columns,
    deleting column 4 four times removes the free slots of the four
    synapses, and the sum of a row is the bound receptors of the four
    synapses plus the pool. *)
Theorem plotted_receptors_are_bound_plus_pool (wi : matrix) :
  well_shaped wi -> ncols wi = 9%nat ->
  Main.receptors wi =
  Returned (map (fun row => (nth 0 row 0 + nth 1 row 0 + nth 2 row 0
                             + nth 3 row 0 + nth 8 row 0)%Z) (rows wi)).
Proof. apply receptors_of_nine. Qed.

Lemma plotted_receptors_are_bound_plus_pool_witness :
  Main.receptors (Matrix 9 [[1; 2; 3; 4; 19; 38; 57; 76; 5]%Z]) =
  Returned [15%Z].
Proof.
  apply (@plotted_receptors_are_bound_plus_pool
           (Matrix 9 [[1; 2; 3; 4; 19; 38; 57; 76; 5]%Z])).
  - unfold well_shaped. simpl. repeat constructor.
  - reflexivity.
Defined.

(** ** The statistics of the trajectory the engine records *)

Lemma firstn_set_nth_last (A : Type) (v : A) : forall n l,
  (n < List.length l)%nat ->
  firstn (S n) (Py.set_nth n v l) = firstn n l ++ [v].
Proof.
  induction n as [|n IH]; intros [|a l] H; simpl in H; try lia.
  - reflexivity.
  - cbn [Py.set_nth]. change (firstn (S (S n)) (a :: Py.set_nth n v l))
      with (a :: firstn (S n) (Py.set_nth n v l)).
    rewrite IH by lia. reflexivity.
Qed.

Lemma clock_of_snoc ds d : clock_of (ds ++ [d]) = xadd (clock_of ds) d.
Proof. unfold clock_of. rewrite fold_left_app. reflexivity. Qed.

Lemma start_timed init n_max ns nsyn :
  (1 <= n_max)%nat -> timed nsyn (start init n_max ns nsyn) [].
Proof.
  intro H. unfold timed, start. fields.
  split; [reflexivity|]. split; [constructor|]. split; [reflexivity|].
  split; [reflexivity|]. intros k Hk. replace k with 0%nat by lia.
  apply nth_error_set_nth_eq. rewrite repeat_length. lia.
Qed.

Lemma step_timed rates sub_stoch prod_stoch stoch tmax n_max r1 r2 nsyn
  e e' ds :
  well_shaped sub_stoch -> well_shaped prod_stoch ->
  mat_add sub_stoch prod_stoch = Returned stoch ->
  List.length (rows sub_stoch) = List.length (rows prod_stoch) ->
  ncols sub_stoch = ncols prod_stoch ->
  Forall (fun c => (0 <= c)%R) rates ->
  Forall (fun r => (0 < r < 1)%R) r1 ->
  sized stoch n_max e -> timed nsyn e ds -> running tmax n_max e = true ->
  step rates sub_stoch stoch r1 r2 (List.length (rows stoch)) (ncols stoch)
    nsyn e = Returned e' ->
  exists dt, timed nsyn e' (ds ++ [dt]).
Proof.
  intros Hsub Hprod Hadd Hrows Hcols Hrates Hdraws Hsized
    (Hlen & Hwait & Hdiff & Hclock & Hstamps) Hrun H.
  destruct (@step_propensities rates sub_stoch prod_stoch stoch n_max r1 r2
              nsyn Hsub Hprod Hadd Hrows Hcols Hrates e e' Hsized H)
    as (a & r1n & r2n & dt & mu & delta & _ & Hpos & Hr1 & _ & Hnext & _
        & Ht & _ & ->).
  destruct Hsized as (Hst & _ & Hsd & _).
  exists dt. unfold timed. fields.
  split; [rewrite length_app; simpl; lia|]. split; [|split; [|split]].
  - apply Forall_app. split; [exact Hwait|]. constructor; [|constructor].
    rewrite (@next_values_wait _ _ _ _ _ _ Hnext).
    destruct (Req_dec_T (sum a) 0) as [_|Hnz]; [exact I|].
    cbn [waiting]. apply wait_positive.
    + pose proof (sum_nonneg Hpos). lra.
    + rewrite Forall_forall in Hdraws. apply Hdraws, Hr1.
  - rewrite firstn_set_nth_last by lia. rewrite Hdiff, map_app. reflexivity.
  - rewrite clock_of_snoc, Hclock. reflexivity.
  - intros k Hk. destruct (Nat.eq_dec k (S (n_counter e))) as [->|Hne].
    + rewrite nth_error_set_nth_eq by exact Ht.
      replace (S (n_counter e)) with (List.length (ds ++ [dt]))
        by (rewrite length_app; simpl; lia).
      rewrite firstn_all, clock_of_snoc, Hclock. reflexivity.
    + rewrite nth_error_set_nth_neq by exact Hne.
      rewrite firstn_app.
      replace (k - List.length ds)%nat with 0%nat by lia.
      cbn [firstn]. rewrite app_nil_r. apply Hstamps. lia.
Qed.

Lemma clock_stays_infinite ds :
  Forall waiting ds -> fold_left xadd ds PInf = PInf.
Proof.
  induction 1 as [|d ds Hd Hds IH]; [reflexivity|].
  cbn [fold_left]. destruct d; [exact IH|exact IH|contradiction].
Qed.

(** A finite clock is the sum of finite waits. *)
Lemma finite_clock ds : forall a T,
  Forall waiting ds -> fold_left xadd ds (Fin a) = Fin T ->
  exists waits,
    ds = map Fin waits /\ Forall (fun d => (0 < d)%R) waits /\
    T = fold_left Rplus waits a.
Proof.
  induction ds as [|d ds IH]; intros a T Hw H.
  - exists []. simpl in H. injection H as <-. repeat split. constructor.
  - inversion Hw as [|? ? Hd Hds]; subst. cbn [fold_left] in H.
    destruct d as [x| |]; [|cbn [xadd] in H|contradiction].
    + cbn [xadd] in H. destruct (IH _ _ Hds H) as (waits & -> & Hpos & ->).
      exists (x :: waits). repeat split. constructor; assumption.
    + rewrite clock_stays_infinite in H by assumption. discriminate.
Qed.

Lemma sum_positive waits :
  waits <> [] -> Forall (fun d => (0 < d)%R) waits -> (0 < sum waits)%R.
Proof.
  intros Hne H. destruct waits as [|d waits]; [congruence|].
  inversion H; subst. rewrite sum_cons.
  assert (0 <= sum waits)%R; [|lra].
  apply sum_nonneg. eapply Forall_impl; [|eassumption].
  intros x Hx. simpl in Hx. lra.
Qed.

Lemma sum_snoc waits d : sum (waits ++ [d]) = (sum waits + d)%R.
Proof. unfold sum. rewrite fold_left_app. reflexivity. Qed.

Lemma clock_of_finite waits : clock_of (map Fin waits) = Fin (sum waits).
Proof.
  unfold clock_of, sum. generalize 0%R.
  induction waits as [|d waits IH]; intro a; [reflexivity|].
  cbn [map fold_left xadd]. apply IH.
Qed.

Lemma firstn_snoc_nth (A : Type) (d : A) : forall k l,
  (k < List.length l)%nat -> firstn (S k) l = firstn k l ++ [nth k l d].
Proof.
  induction k as [|k IH]; intros [|a l] H; simpl in H; try lia.
  - reflexivity.
  - change (firstn (S (S k)) (a :: l)) with (a :: firstn (S k) l).
    rewrite IH by lia. reflexivity.
Qed.

Lemma nth_firstn_lt : forall n s (row : list Z),
  (s < n)%nat -> nth s (firstn n row) 0%Z = nth s row 0%Z.
Proof.
  induction n as [|n IH]; intros s row Hs; [lia|].
  destruct row as [|x row]; [reflexivity|].
  destruct s as [|s]; [reflexivity|]. cbn [firstn nth]. apply IH. lia.
Qed.

Lemma column_tracked s states :
  (s < 4)%nat -> column s (map (firstn 4) states) = column s states.
Proof.
  intro Hs. unfold column. rewrite map_map. apply map_ext. intro row.
  rewrite nth_firstn_lt by exact Hs. reflexivity.
Qed.

Lemma firstn_lengths (w : nat) (states : list (list Z)) :
  Forall (fun x => List.length x = w) states ->
  Forall (fun row => List.length row = Nat.min 4 w) (map (firstn 4) states).
Proof.
  intro H. apply Forall_map. eapply Forall_impl; [|exact H].
  intros x Hx. cbv beta in *. rewrite length_firstn, Hx. reflexivity.
Qed.

Lemma coefficient_variation_finite nsyn tracked w waits mol T :
  broadcast nsyn tracked = Some w -> mol <> [] -> T <> 0%R ->
  coefficient_variation nsyn tracked
    (map (fun d => repeat (Fin d) nsyn) waits) mol (Fin T) =
  Returned (cv_finite w (map (fun d => repeat d nsyn) waits)
              (map (map IZR) mol) T).
Proof.
  intros Hw Hne HT. unfold coefficient_variation. rewrite Hw.
  destruct mol as [|row mol]; [congruence|].
  rewrite all_finite_rows_waits.
  destruct (Req_dec_T T 0); [contradiction|reflexivity].
Qed.

Lemma coefficient_variation_infinite nsyn tracked w differences mol time :
  broadcast nsyn tracked = Some w -> mol <> [] ->
  time = PInf \/ time = NaN ->
  coefficient_variation nsyn tracked differences mol time =
  Returned (repeat NaN w).
Proof.
  intros Hw Hne Ht. unfold coefficient_variation. rewrite Hw.
  destruct mol as [|row mol]; [congruence|].
  destruct Ht as [->| ->]; reflexivity.
Qed.

(** What the statistics are computed from, when the engine returns. *)
Lemma gillespie_statistics s_i init rates sub_stoch prod_stoch tmax n_max
  r1 r2 times states cv :
  gillespie_algo s_i init rates sub_stoch prod_stoch tmax n_max r1 r2 =
    Returned (times, states, cv) ->
  exists stoch e,
    mat_add sub_stoch prod_stoch = Returned stoch /\
    simulate init rates sub_stoch stoch tmax n_max r1 r2 = Returned e /\
    times = firstn (n_counter e) (store_time e) /\
    states = firstn (n_counter e) (store_number_molecules e) /\
    coefficient_variation (synapses init) (Nat.min 4 (ncols stoch))
      (firstn (n_counter e) (store_time_difference e))
      (map (firstn 4) states) (current_time e) = Returned cv.
Proof.
  unfold gillespie_algo. intro H.
  apply bind_returned in H. destruct H as (stoch & Hstoch & H).
  apply bind_returned in H. destruct H as (e & He & H).
  apply bind_returned in H. destruct H as (cv' & Hcv & H).
  injection H as <- <- <-. exists stoch, e. auto.
Qed.

(** A clock that is not finite at the end of the loop comes from a round
    that stalled. *)
Lemma unfinished_clock_stalled init rates sub_stoch prod_stoch stoch tmax
  n_max r1 r2 e :
  well_shaped sub_stoch -> well_shaped prod_stoch ->
  mat_add sub_stoch prod_stoch = Returned stoch ->
  List.length (rows sub_stoch) = List.length (rows prod_stoch) ->
  ncols sub_stoch = ncols prod_stoch ->
  List.length init = ncols stoch ->
  Forall (fun c => (0 <= c)%R) rates ->
  simulate init rates sub_stoch stoch tmax n_max r1 r2 = Returned e ->
  (exists T, current_time e = Fin T) \/
  exists k e0, stalls init rates sub_stoch stoch tmax n_max r1 r2 k e0.
Proof.
  intros Hsub Hprod Hadd Hrows Hcols Hinit Hrates Hsim.
  pose proof (mat_add_shaped Hsub Hprod Hadd) as Hshape.
  destruct (mat_add_rows Hsub Hprod Hrows Hcols Hadd) as (_ & Hc & Hr).
  set (origin := start init n_max (ncols stoch) (synapses init)).
  apply (@simulate_rounds
           (fun e =>
              (exists k,
                 rounds rates sub_stoch stoch tmax n_max r1 r2
                   (List.length (rows stoch)) (ncols stoch) (synapses init)
                   k origin = Some e) /\
              ((exists T, current_time e = Fin T) \/
               exists k e0,
                 stalls init rates sub_stoch stoch tmax n_max r1 r2 k e0))
           init rates sub_stoch stoch tmax n_max r1 r2 e Hshape Hinit);
    [| |exact Hsim].
  - intros e1 e2 Hs1 [(k & Hk) _] Hrun Hstep. split.
    + exists (S k).
      exact (@rounds_snoc _ _ _ _ _ _ _ _ _ _ _ _ _ _ Hk Hrun Hstep).
    + destruct (@step_propensities rates sub_stoch prod_stoch stoch n_max
                  r1 r2 (synapses init) Hsub Hprod Hadd Hrows Hcols Hrates
                  e1 e2 Hs1 Hstep)
        as (a & r1n & r2n & dt & mu & delta & Ha & Hpos & _ & _ & Hnext & _
            & _ & _ & ->).
      fields. rewrite (@next_values_wait _ _ _ _ _ _ Hnext).
      assert (Hclock : exists t, current_time e1 = Fin t).
      { unfold running in Hrun. apply andb_prop in Hrun.
        destruct Hrun as [Hx _].
        destruct (current_time e1); try discriminate. eauto. }
      destruct Hclock as (t & ->).
      destruct (Req_dec_T (sum a) 0) as [Hzero|_].
      * right. exists k, e1. split; [exact Hk|]. split; [exact Hrun|].
        exists a. rewrite Hr, Hc. auto.
      * left. cbn [xadd]. eauto.
  - intros _. split; [exists 0%nat; reflexivity|].
    left. exists 0%R. reflexivity.
Qed.

(** The statistic of the engine is computed over the trajectory it
    records, each state weighted by the wait until the next event: with
    the waits [d_k] of the rounds (positive; [d_k] is the difference of the
    stamps [k + 1] and [k], the last wait runs to a stamp that is not
    returned) and their sum as the elapsed time, the cell of a tracked
    species whose weighted mean is not 0 is its time-weighted coefficient
    of variation.  Only when a round has stalled (its propensities add up
    to 0) is the clock infinite and every cell not-a-number. *)
Theorem statistic_weighs_each_state_by_its_wait (s_i init : list Z)
  (rates : list R) (sub_stoch prod_stoch : matrix) (tmax : R) (n_max : nat)
  (r1 r2 : list R) (times : list xreal) (states : list (list Z))
  (cv : list xreal) :
  well_shaped sub_stoch -> well_shaped prod_stoch ->
  List.length (rows sub_stoch) = List.length (rows prod_stoch) ->
  ncols sub_stoch = ncols prod_stoch ->
  List.length init = ncols sub_stoch ->
  Forall (fun c => (0 <= c)%R) rates ->
  Forall (fun r => (0 < r < 1)%R) r1 ->
  synapses init = Nat.min 4 (ncols sub_stoch) \/ synapses init = 1%nat ->
  gillespie_algo s_i init rates sub_stoch prod_stoch tmax n_max r1 r2 =
    Returned (times, states, cv) ->
  (exists stoch k e,
     mat_add sub_stoch prod_stoch = Returned stoch /\
     stalls init rates sub_stoch stoch tmax n_max r1 r2 k e /\
     cv = repeat NaN (Nat.min 4 (ncols sub_stoch))) \/
  exists waits,
    List.length waits = List.length states /\
    Forall (fun d => (0 < d)%R) waits /\
    (forall k t u,
       nth_error times k = Some (Fin t) ->
       nth_error times (S k) = Some (Fin u) ->
       nth k waits 0%R = (u - t)%R) /\
    List.length cv = Nat.min 4 (ncols sub_stoch) /\
    forall s,
      (s < Nat.min 4 (ncols sub_stoch))%nat ->
      weighted_mean waits (column s states) (sum waits) <> 0%R ->
      nth s cv NaN = Fin (weighted_cv waits (column s states) (sum waits)).
Proof.
  intros Hsub Hprod Hrows Hcols Hinit Hrates Hdraws Hfit H.
  destruct (gillespie_statistics _ _ _ _ _ _ _ _ _ H)
    as (stoch & e & Hadd & Hsim & Htimes & Hstates & Hcv).
  destruct (gillespie_rounds _ _ _ _ _ _ _ _ _ H)
    as (stoch' & e' & Hadd' & Hsim' & _ & _ & Hone).
  assert (stoch' = stoch) by congruence. subst stoch'.
  assert (e' = e) by congruence. subst e'. clear Hadd' Hsim'.
  pose proof (mat_add_shaped Hsub Hprod Hadd) as Hshape.
  destruct (mat_add_rows Hsub Hprod Hrows Hcols Hadd) as (_ & Hc & _).
  assert (Hinit' : List.length init = ncols stoch) by congruence.
  rewrite Hc in Hcv.
  set (tracked := Nat.min 4 (ncols sub_stoch)) in *.
  destruct (@simulate_keeps init rates sub_stoch stoch tmax n_max r1 r2 e
              Hshape Hinit' Hsim) as (Hsized & Hstamped & _ & _).
  pose proof (@stamped_counter stoch tmax n_max e Hsized Hstamped) as Hlt.
  assert (Hchain : chained stoch init e).
  { apply (@simulate_rounds (chained stoch init) init rates sub_stoch stoch
             tmax n_max r1 r2 e Hshape Hinit'); [| |exact Hsim].
    - intros e1 e2 Hs1 Hc1 _ Hstep.
      exact (@step_chained rates sub_stoch prod_stoch stoch n_max r1 r2
               (synapses init) Hsub Hprod Hadd init e1 e2 Hs1 Hc1 Hstep).
    - intro Hn. apply start_chained, Hn. }
  pose proof (firstn_shaped Hshape Hinit' Hchain) as Hlens.
  rewrite <- Hstates, Hc in Hlens.
  assert (Htimed : exists ds, timed (synapses init) e ds).
  { apply (@simulate_rounds (fun e => exists ds, timed (synapses init) e ds)
             init rates sub_stoch stoch tmax n_max r1 r2 e Hshape Hinit');
      [| |exact Hsim].
    - intros e1 e2 Hs1 (ds & Hds) Hrun Hstep.
      destruct (@step_timed rates sub_stoch prod_stoch stoch tmax n_max r1 r2
                  (synapses init) e1 e2 ds Hsub Hprod Hadd Hrows Hcols Hrates
                  Hdraws Hs1 Hds Hrun Hstep) as (dt & Hdt).
      eauto.
    - intro Hn. exists []. apply start_timed, Hn. }
  destruct Htimed as (ds & Hlen & Hwait & Hdiff & Hclock & Hstamps).
  assert (Hw : broadcast (synapses init) tracked = Some tracked).
  { unfold broadcast. destruct Hfit as [->| ->].
    - rewrite Nat.eqb_refl. reflexivity.
    - destruct (Nat.eqb_spec 1 tracked) as [<-|_]; reflexivity. }
  destruct Hsized as (_ & Hm & _ & _).
  assert (Hrowsn : List.length states = n_counter e)
    by (rewrite Hstates, length_firstn; lia).
  assert (Hne : map (firstn 4) states <> []).
  { destruct states; [simpl in Hrowsn; lia|discriminate]. }
  pose proof (@unfinished_clock_stalled init rates sub_stoch prod_stoch stoch
                tmax n_max r1 r2 e Hsub Hprod Hadd Hrows Hcols Hinit' Hrates
                Hsim) as Hstalled.
  destruct (current_time e) as [T| |] eqn:Eclock.
  - right. symmetry in Hclock. unfold clock_of in Hclock.
    destruct (finite_clock _ Hwait Hclock) as (waits & -> & Hpos & HT).
    fold (sum waits) in HT. rewrite length_map in Hlen.
    assert (Htotal : (0 < sum waits)%R).
    { apply sum_positive; [|exact Hpos].
      destruct waits; [simpl in Hlen; lia|discriminate]. }
    assert (Hnonneg : Forall (fun d => (0 <= d)%R) waits).
    { eapply Forall_impl; [|exact Hpos]. intros x Hx. simpl in Hx. lra. }
    rewrite Hdiff, map_map in Hcv. subst T.
    rewrite (@coefficient_variation_finite (synapses init) tracked tracked
               waits (map (firstn 4) states) (sum waits) Hw Hne
               ltac:(lra)) in Hcv.
    assert (Ecv : cv = cv_finite tracked
                         (map (fun d => repeat d (synapses init)) waits)
                         (map (map IZR) (map (firstn 4) states)) (sum waits))
      by congruence.
    clear Hcv. subst cv.
    assert (Hl : List.length waits = List.length (map (firstn 4) states))
      by (rewrite length_map; lia).
    pose proof (firstn_lengths Hlens) as Hv. fold tracked in Hv.
    exists waits. split; [lia|]. split; [exact Hpos|]. split; [|split].
    + intros k t u Ht Hu. rewrite Htimes in Ht, Hu.
      apply nth_error_firstn_some in Ht, Hu.
      destruct Ht as [_ Ht]. destruct Hu as [Hk Hu].
      rewrite (Hstamps k ltac:(lia)) in Ht.
      rewrite (Hstamps (S k) ltac:(lia)) in Hu.
      rewrite firstn_map, clock_of_finite in Ht, Hu.
      assert (Et : t = sum (firstn k waits)) by congruence.
      assert (Eu : u = sum (firstn (S k) waits)) by congruence.
      subst t u.
      rewrite (firstn_snoc_nth 0%R) by lia. rewrite sum_snoc. lra.
    + apply cv_finite_length; assumption.
    + intros s Hs Hmean.
      assert (Hs4 : (s < 4)%nat) by (unfold tracked in Hs; lia).
      destruct (@cv_finite_cell (synapses init) tracked (sum waits) waits
                  (map (firstn 4) states) s Hfit Hs Hl Hv) as [_ Hcell].
      rewrite Hcell, column_tracked by exact Hs4.
      unfold cv_cell. destruct (Rlt_dec _ 0) as [Hneg|_].
      * exfalso. apply (Rlt_not_le _ _ Hneg).
        apply sum_steps_nonneg; [|exact Hnonneg].
        intros d v Hd. apply Rmult_le_pos; [apply pow2_ge_0|].
        apply Rmult_le_pos; [exact Hd|].
        apply Rlt_le, Rinv_0_lt_compat, Htotal.
      * destruct (Req_dec_T _ 0) as [Hzero|Hnz];
          [exfalso; exact (Hmean Hzero)|].
        f_equal. unfold weighted_cv. field. exact Hnz.
  - left. destruct Hstalled as [(T & HT)|(k & e0 & Hk)]; [discriminate|].
    exists stoch, k, e0. split; [exact Hadd|]. split; [exact Hk|].
    rewrite (@coefficient_variation_infinite (synapses init) tracked tracked
               _ (map (firstn 4) states) PInf Hw Hne (or_introl eq_refl))
      in Hcv.
    congruence.
  - left. destruct Hstalled as [(T & HT)|(k & e0 & Hk)]; [discriminate|].
    exists stoch, k, e0. split; [exact Hadd|]. split; [exact Hk|].
    rewrite (@coefficient_variation_infinite (synapses init) tracked tracked
               _ (map (firstn 4) states) NaN Hw Hne (or_intror eq_refl))
      in Hcv.
    congruence.
Qed.

Lemma statistic_weighs_each_state_by_its_wait_witness :
  exists times states cv,
    gillespie_algo [20; 40; 60; 80]%Z receptor_init (repeat 1%R 10)
      receptor_sub receptor_prod 60 1000
      (repeat (1 / 2)%R 1000) (repeat (1 / 2)%R 1000) =
      Returned (times, states, cv) /\
    ((exists stoch k e,
        mat_add receptor_sub receptor_prod = Returned stoch /\
        stalls receptor_init (repeat 1%R 10) receptor_sub stoch 60 1000
          (repeat (1 / 2)%R 1000) (repeat (1 / 2)%R 1000) k e /\
        cv = repeat NaN (Nat.min 4 (ncols receptor_sub))) \/
     exists waits,
       List.length waits = List.length states /\
       Forall (fun d => (0 < d)%R) waits /\
       (forall k t u,
          nth_error times k = Some (Fin t) ->
          nth_error times (S k) = Some (Fin u) ->
          nth k waits 0%R = (u - t)%R) /\
       List.length cv = Nat.min 4 (ncols receptor_sub) /\
       forall s,
         (s < Nat.min 4 (ncols receptor_sub))%nat ->
         weighted_mean waits (column s states) (sum waits) <> 0%R ->
         nth s cv NaN =
         Fin (weighted_cv waits (column s states) (sum waits))).
Proof.
  destruct (valid_run [20; 40; 60; 80]%Z receptor_input_valid) as
    (stoch & e & cv & _ & _ & Hrun & _).
  eexists. eexists. exists cv. split; [exact Hrun|].
  apply (@statistic_weighs_each_state_by_its_wait [20; 40; 60; 80]%Z
           receptor_init (repeat 1%R 10) receptor_sub receptor_prod
           60 1000 (repeat (1 / 2)%R 1000) (repeat (1 / 2)%R 1000)
           (firstn (n_counter e) (store_time e))
           (firstn (n_counter e) (store_number_molecules e)) cv).
  - unfold well_shaped. simpl. repeat constructor.
  - unfold well_shaped. simpl. repeat constructor.
  - reflexivity.
  - reflexivity.
  - reflexivity.
  - apply Forall_repeat. lra.
  - apply Forall_repeat. lra.
  - left. reflexivity.
  - exact Hrun.
Defined.

(** ** From the engine to the plot *)

Lemma receptor_step (x delta : list Z) :
  List.length x = 9%nat ->
  In delta (map2 (map2 Z.add) (rows receptor_sub) (rows receptor_prod)) ->
  let r := fun row => (nth 0 row 0 + nth 1 row 0 + nth 2 row 0
                       + nth 3 row 0 + nth 8 row 0)%Z in
  (-1 <= r (map2 Z.add x delta) - r x <= 1)%Z.
Proof.
  intros Hlen Hin r.
  do 9 (destruct x as [|? x]; [discriminate|]).
  destruct x; [|discriminate].
  simpl in Hin.
  repeat (destruct Hin as [<-|Hin]; [unfold r; simpl; lia|]).
  contradiction.
Qed.

(** The curve the program plots, computed from the states a simulation
    returns (the text files between the two loops are left out): it has
    one point per state, starts at [start], and moves by one receptor at
    most from a point to the next. *)
Theorem plotted_curve_moves_one_receptor_at_a_time (start : Z)
  (r1 r2 : list R) (times : list xreal) (states : list (list Z))
  (cv : list xreal) :
  Main.simulation start r1 r2 = Returned (times, states, cv) ->
  exists r,
    Main.receptors (Matrix 9 states) = Returned r /\
    List.length r = List.length states /\
    nth_error r 0 = Some start /\
    forall k a b,
      nth_error r k = Some a -> nth_error r (S k) = Some b ->
      (-1 <= b - a <= 1)%Z.
Proof.
  unfold Main.simulation. rewrite receptor_parsed. cbn [bind]. intro H.
  destruct (gillespie_rounds _ _ _ _ _ _ _ _ _ H)
    as (stoch & e & Hadd & Hsim & _ & Hstates & Hone).
  assert (Hstoch : stoch = Matrix 9 (map2 (map2 Z.add) (rows receptor_sub)
                                       (rows receptor_prod))).
  { vm_compute in Hadd. injection Hadd as <-. reflexivity. }
  assert (Hsub : well_shaped receptor_sub)
    by (unfold well_shaped; simpl; repeat constructor).
  assert (Hprod : well_shaped receptor_prod)
    by (unfold well_shaped; simpl; repeat constructor).
  pose proof (mat_add_shaped Hsub Hprod Hadd) as Hshape.
  assert (Hinit : List.length (Main.init1 start) = ncols stoch)
    by (rewrite Hstoch; reflexivity).
  destruct (@simulate_keeps (Main.init1 start) Main.rates receptor_sub stoch
              Main.tmax Main.n_max r1 r2 e Hshape Hinit Hsim)
    as (Hsized & Hstamped & _ & _).
  pose proof (@stamped_counter stoch Main.tmax Main.n_max e Hsized Hstamped)
    as Hlt.
  assert (Hchain : chained stoch (Main.init1 start) e).
  { apply (@simulate_rounds (chained stoch (Main.init1 start))
             (Main.init1 start) Main.rates receptor_sub stoch
             Main.tmax Main.n_max r1 r2 e Hshape Hinit); [| |exact Hsim].
    - intros e1 e2 Hs1 Hc1 _ Hstep.
      exact (@step_chained Main.rates receptor_sub receptor_prod stoch
               Main.n_max r1 r2 (synapses (Main.init1 start)) Hsub Hprod Hadd
               (Main.init1 start) e1 e2 Hs1 Hc1 Hstep).
    - intro Hn. apply start_chained, Hn. }
  pose proof (firstn_shaped Hshape Hinit Hchain) as Hlens.
  rewrite <- Hstates in Hlens.
  assert (Hnine : ncols stoch = 9%nat) by (rewrite Hstoch; reflexivity).
  rewrite Hnine in Hlens.
  destruct Hchain as (Hfirst & _ & Hpath).
  destruct Hsized as (_ & Hm & _ & _).
  eexists. split; [apply receptors_of_nine; [exact Hlens|reflexivity]|].
  cbn [rows]. split; [apply length_map|]. split.
  - rewrite nth_error_map, Hstates, nth_error_firstn_lt by lia.
    rewrite Hfirst. cbn [option_map Main.init1 nth]. f_equal; lia.
  - intros k a b Ha Hb. rewrite nth_error_map in Ha, Hb.
    destruct (nth_error states k) as [x|] eqn:Ex; [|discriminate].
    destruct (nth_error states (S k)) as [y|] eqn:Ey; [|discriminate].
    cbn [option_map] in Ha, Hb. injection Ha as <-. injection Hb as <-.
    rewrite Forall_forall in Hlens.
    pose proof (Hlens _ (nth_error_In _ _ Ex)) as Hx.
    rewrite Hstates in Ex, Ey.
    apply nth_error_firstn_some in Ex, Ey.
    destruct Ex as [_ Ex]. destruct Ey as [Hk Ey].
    destruct (Hpath k ltac:(lia)) as (x' & delta & Hx' & Hdelta & Hy').
    assert (x' = x) by congruence. subst x'.
    assert (y = map2 Z.add x delta) by congruence. subst y.
    rewrite Hstoch in Hdelta. cbn [rows] in Hdelta.
    exact (receptor_step x Hx Hdelta).
Qed.

Lemma plotted_curve_moves_one_receptor_at_a_time_witness :
  exists times states cv,
    Main.simulation 200
      (repeat (1 / 2)%R Main.n_max) (repeat (1 / 2)%R Main.n_max) =
      Returned (times, states, cv) /\
    exists r,
      Main.receptors (Matrix 9 states) = Returned r /\
      List.length r = List.length states /\
      nth_error r 0 = Some 200%Z /\
      forall k a b,
        nth_error r k = Some a -> nth_error r (S k) = Some b ->
        (-1 <= b - a <= 1)%Z.
Proof.
  assert (Hdraws : List.length (repeat (1 / 2)%R Main.n_max) = Main.n_max /\
                   Forall (fun r => (0 < r < 1)%R)
                     (repeat (1 / 2)%R Main.n_max))
    by (split; [apply repeat_length|apply Forall_repeat; lra]).
  destruct (valid_run Main.s_i (program_input_valid 200 Hdraws Hdraws))
    as (stoch & e & cv & _ & _ & Hrun & _).
  assert (Hsim : Main.simulation 200 (repeat (1 / 2)%R Main.n_max)
                   (repeat (1 / 2)%R Main.n_max) =
                 Returned (firstn (n_counter e) (store_time e),
                           firstn (n_counter e) (store_number_molecules e),
                           cv)).
  { unfold Main.simulation. rewrite receptor_parsed. cbn [bind].
    exact Hrun. }
  eexists. eexists. exists cv. split; [exact Hsim|].
  apply (@plotted_curve_moves_one_receptor_at_a_time 200
           (repeat (1 / 2)%R Main.n_max) (repeat (1 / 2)%R Main.n_max)
           (firstn (n_counter e) (store_time e))
           (firstn (n_counter e) (store_number_molecules e)) cv).
  exact Hsim.
Defined.

(** ** A reaction without one of its reactants *)




(** ** A run with a stalled round *)




(** ** A run of a network of one species *)


(** ** The engine never uses its rounds up *)

Lemma genuine_simulate init rates sub_stoch stoch tmax n_max r1 r2 :
  genuine (simulate init rates sub_stoch stoch tmax n_max r1 r2).
Proof.
  unfold simulate. apply genuine_bind; [apply genuine_store|]. intro times.
  apply genuine_bind; [apply genuine_store_row|]. intro molecules.
  apply run_fuel. cbn [n_counter]. lia.
Qed.

Lemma genuine_coefficient_variation nsyn tracked differences mol_cv time :
  genuine (coefficient_variation nsyn tracked differences mol_cv time).
Proof.
  unfold coefficient_variation, genuine.
  destruct (broadcast nsyn tracked); [|discriminate].
  destruct mol_cv; [discriminate|].
  destruct time; try discriminate.
  destruct (all_finite_rows differences); [|discriminate].
  destruct (Req_dec_T x 0); discriminate.
Qed.

Lemma genuine_gillespie s_i init rates sub_stoch prod_stoch tmax n_max r1 r2 :
  genuine (gillespie_algo s_i init rates sub_stoch prod_stoch tmax n_max
             r1 r2).
Proof.
  unfold gillespie_algo. apply genuine_bind.
  - unfold mat_add, genuine.
    destruct (broadcast _ _); [|discriminate].
    destruct (broadcast _ _); discriminate.
  - intro stoch. apply genuine_bind; [apply genuine_simulate|]. intro e.
    apply genuine_bind; [apply genuine_coefficient_variation|].
    intro cv. apply genuine_returned.
Qed.

(** ** The propensities on floats *)

Lemma hi_body64_step sub_stoch cs i hi j :
  hi_body64 sub_stoch cs i hi j = hi_step64 sub_stoch cs i hi j.
Proof.
  unfold hi_body64, hi_step64.
  destruct (entry sub_stoch i j) as [s|err]; [|reflexivity]. cbn [bind].
  destruct (Z.eqb_spec s 0) as [_|Hs]; [reflexivity|].
  destruct (cell_of cs j) as [n|err]; [|reflexivity]. cbn [bind].
  destruct (Z.leb_spec n 0) as [_|Hn]; [reflexivity|].
  destruct (Z.leb_spec (Z.abs s) n) as [Hm|Hm].
  - rewrite calculate_hi_h by lia. reflexivity.
  - rewrite calculate_hi_short by lia. reflexivity.
Qed.

Lemma for_each_ext (A : Type) (f g : A -> nat -> result A) js :
  (forall acc j, f acc j = g acc j) ->
  forall acc, for_each js f acc = for_each js g acc.
Proof.
  intro H. induction js as [|j js IH]; intro acc; [reflexivity|].
  cbn [for_each]. rewrite H. destruct (g acc j); [|reflexivity].
  cbn [bind]. apply IH.
Qed.

Lemma collect_ext (A : Type) (f g : nat -> result A) indices :
  (forall i, f i = g i) -> collect indices f = collect indices g.
Proof.
  intro H. induction indices as [|i indices IH]; [reflexivity|].
  cbn [collect]. rewrite H, IH. reflexivity.
Qed.

Lemma propensities64_step sub_stoch rates cs nr ns :
  propensities64 sub_stoch rates cs nr ns =
  propensities_step64 sub_stoch rates cs nr ns.
Proof.
  unfold propensities64, propensities_step64. apply collect_ext. intro i.
  unfold propensity64.
  rewrite (@for_each_ext float (hi_body64 sub_stoch cs i)
             (hi_step64 sub_stoch cs i) (range ns)
             (hi_body64_step sub_stoch cs i)).
  reflexivity.
Qed.

(** * The claims *)

(** ** The propensity calculator *)

(** Claim C1, at a state the calculator fails on.  With one molecule of X1
    and the reaction [2X1->X2] the claim gives the propensity
    rate * h(1,2) = 0; [calculate_hi] builds the [n+1 = 2] cells of row 1
    of Pascal's triangle and reads cell [m = 2], which raises IndexError. *)
Theorem propensity_raises_on_short_supply :
  h 1 2 = 0%Z /\
  propensity (Matrix 2 [[-2; 0]%Z]) [1%R] [1; 0]%Z 2 0 = Raised IndexError.
Proof. split; reflexivity. Qed.

(** Claim C5, at the same state.  One molecule of X1 is fewer than the two
    that [2X1->X2] consumes: the guard [current_species[j] <= 0] lets the
    state through, [calculate_hi 1 2] raises IndexError, and so do the
    computation of the propensities and the whole run. *)
Theorem short_supply_raises_instead_of_zero :
  calculate_hi 1 2 = Raised IndexError /\
  propensities (Matrix 2 [[-2; 0]%Z]) [1%R] [1; 0]%Z 1 2 = Raised IndexError /\
  gillespie_algo [] [1; 0; 0]%Z [1%R]
    (Matrix 3 [[-2; 0; 0]%Z]) (Matrix 3 [[0; 1; 0]%Z]) 10 5
    (repeat (1 / 2)%R 5) (repeat (1 / 2)%R 5) = Raised IndexError.
Proof.
  split; [reflexivity|]. split; [reflexivity|].
  unfold gillespie_algo.
  change (mat_add (Matrix 3 [[-2; 0; 0]%Z]) (Matrix 3 [[0; 1; 0]%Z]))
    with (Returned (Matrix 3 [[-2; 1; 0]%Z])).
  cbn [bind]. rewrite simulate_start by (simpl; lia).
  cbn [rows ncols List.length run].
  assert (Hrun : running 10 5 (start [1; 0; 0]%Z 5 3 (synapses [1; 0; 0]%Z))
                 = true).
  { unfold running, start. fields. cbn [xlt].
    destruct (Rlt_dec 0 10); [reflexivity|lra]. }
  rewrite Hrun. reflexivity.
Qed.

(** ** The event sampler *)

(** Claim C2, at draws the sampler fails on.  The claim has [next_values]
    return the first index whose cumulative sum reaches r2 * a0, for every
    propensity vector of positive total and every draw in (0,1); so has
    the comment of the code.  On the floats of the machine the scan
    subtracts rounded numbers: with
    a = [1 + 2^-52, 2^-53, 3 * 2^-53, 3 * 2^-53], a0 = sum(a) and
    r2 = 1 - 2^-53 (the largest draw [random_sample] returns) the deficit
    is still positive after the last cell, and [a[mu]] raises IndexError.
    The same happens in round 0 of the program's own simulation for
    [start = 600] when the draw is this [r2]. *)
Theorem rounded_scan_leaves_the_array :
  (PrimFloat.ltb 0 (sum64 [1 + 0x1p-52; 0x1p-53; 3 * 0x1p-53; 3 * 0x1p-53])
   = true /\
   PrimFloat.ltb 0 (1 - 0x1p-53) = true /\
   PrimFloat.ltb (1 - 0x1p-53) 1 = true /\
   next_r64 (sum64 [1 + 0x1p-52; 0x1p-53; 3 * 0x1p-53; 3 * 0x1p-53])
     [1 + 0x1p-52; 0x1p-53; 3 * 0x1p-53; 3 * 0x1p-53] (1 - 0x1p-53) =
   Raised IndexError)%float /\
  exists a,
    propensities64 receptor_sub Main.rates64 (Main.init1 600) 10 9 =
      Returned a /\
    PrimFloat.ltb 0 (sum64 a) = true /\
    next_r64 (sum64 a) a (1 - 0x1p-53)%float = Raised IndexError.
Proof.
  split; [vm_compute; auto|].
  rewrite propensities64_step.
  eexists. split; [vm_compute; reflexivity|].
  split; vm_compute; reflexivity.
Qed.

(** ** The simulation engine *)

(** Claim C3 as stated fails: the loop tests the clock before a round, so
    the last event may come after the horizon.  With the reaction [0X1->X1],
    rate 1, horizon 1 and the draw r1 = exp(-2), the first event comes at
    time 2, and the run ends with the clock at 2. *)
Lemma clock_passes_horizon :
  exists e,
    simulate [0%Z] [1%R] (Matrix 1 [[0%Z]]) (Matrix 1 [[1%Z]]) 1 3
      [exp (-2); (1 / 2)%R; (1 / 2)%R] (repeat (1 / 2)%R 3) = Returned e /\
    current_time e = Fin 2 /\ n_counter e = 1%nat /\ ~ (2 <= 1)%R.
Proof.
  eexists. split; [exact overshooting_run|].
  split; [reflexivity|]. split; [reflexivity|lra].
Qed.

(** Claim C3, amended.  A run always ends: the loop never uses up the
    [n_max] rounds it is run on, whatever the input.  When
    [gillespie_algo] returns, the loop has fired at least one and at most
    [n_max - 1] events; the arrays, allocated with [n_max] rows, are
    returned cut to the number of events; and every time stamp returned is
    below the horizon (the clock after the last event, which is not
    returned, may be past it). *)
Theorem trajectory_cut_to_events (s_i init : list Z) (rates : list R)
  (sub_stoch prod_stoch stoch : matrix) (tmax : R) (n_max : nat)
  (r1 r2 : list R) (times : list xreal) (states : list (list Z))
  (cv : list xreal) :
  genuine (gillespie_algo s_i init rates sub_stoch prod_stoch tmax n_max
             r1 r2) /\
  (well_shaped sub_stoch -> well_shaped prod_stoch ->
   mat_add sub_stoch prod_stoch = Returned stoch ->
   List.length init = ncols stoch ->
   gillespie_algo s_i init rates sub_stoch prod_stoch tmax n_max r1 r2 =
     Returned (times, states, cv) ->
   exists e,
     simulate init rates sub_stoch stoch tmax n_max r1 r2 = Returned e /\
     times = firstn (n_counter e) (store_time e) /\
     states = firstn (n_counter e) (store_number_molecules e) /\
     (1 <= n_counter e <= n_max - 1)%nat /\
     List.length (store_time e) = n_max /\
     List.length (store_number_molecules e) = n_max /\
     List.length times = n_counter e /\
     List.length states = n_counter e /\
     Forall (fun t => xlt t tmax = true) times).
Proof.
  split; [apply genuine_gillespie|].
  intros Hsub Hprod Hadd Hinit H.
  destruct (gillespie_rounds _ _ _ _ _ _ _ _ _ H)
    as (stoch' & e & Hadd' & Hsim & Htimes & Hstates & Hone).
  assert (stoch' = stoch) by congruence. subst stoch'.
  pose proof (mat_add_shaped Hsub Hprod Hadd) as Hshape.
  destruct (@simulate_keeps init rates sub_stoch stoch tmax n_max r1 r2 e
              Hshape Hinit Hsim) as (Hsized & Hstamped & _ & _).
  pose proof (@stamped_counter stoch tmax n_max e Hsized Hstamped) as Hlt.
  pose proof Hsized as (Ht & Hm & _ & _).
  exists e. split; [exact Hsim|]. split; [exact Htimes|].
  split; [exact Hstates|]. split; [lia|]. split; [exact Ht|].
  split; [exact Hm|].
  split; [rewrite Htimes, length_firstn; lia|].
  split; [rewrite Hstates, length_firstn; lia|].
  rewrite Htimes. apply firstn_stamped, Hstamped.
Qed.

Lemma trajectory_cut_to_events_witness :
  exists times states cv,
    gillespie_algo [20; 40; 60; 80]%Z receptor_init (repeat 1%R 10)
      receptor_sub receptor_prod 60 1000
      (repeat (1 / 2)%R 1000) (repeat (1 / 2)%R 1000) =
      Returned (times, states, cv) /\
    genuine (gillespie_algo [20; 40; 60; 80]%Z receptor_init (repeat 1%R 10)
               receptor_sub receptor_prod 60 1000
               (repeat (1 / 2)%R 1000) (repeat (1 / 2)%R 1000)) /\
    exists e,
      simulate receptor_init (repeat 1%R 10) receptor_sub
        (Matrix 9 (map2 (map2 Z.add) (rows receptor_sub)
                     (rows receptor_prod)))
        60 1000 (repeat (1 / 2)%R 1000) (repeat (1 / 2)%R 1000) =
        Returned e /\
      times = firstn (n_counter e) (store_time e) /\
      states = firstn (n_counter e) (store_number_molecules e) /\
      (1 <= n_counter e <= 1000 - 1)%nat /\
      List.length (store_time e) = 1000%nat /\
      List.length (store_number_molecules e) = 1000%nat /\
      List.length times = n_counter e /\
      List.length states = n_counter e /\
      Forall (fun t => xlt t 60 = true) times.
Proof.
  destruct (valid_run [20; 40; 60; 80]%Z receptor_input_valid) as
    (stoch & e & cv & _ & _ & Hrun & _).
  eexists. eexists. exists cv. split; [exact Hrun|].
  destruct (@trajectory_cut_to_events [20; 40; 60; 80]%Z receptor_init
              (repeat 1%R 10) receptor_sub receptor_prod
              (Matrix 9 (map2 (map2 Z.add) (rows receptor_sub)
                           (rows receptor_prod)))
              60 1000 (repeat (1 / 2)%R 1000) (repeat (1 / 2)%R 1000)
              (firstn (n_counter e) (store_time e))
              (firstn (n_counter e) (store_number_molecules e)) cv)
    as [Hends Hcut].
  split; [exact Hends|]. apply Hcut.
  - unfold well_shaped. simpl. repeat constructor.
  - unfold well_shaped. simpl. repeat constructor.
  - reflexivity.
  - reflexivity.
  - exact Hrun.
Defined.






(** ** The reaction parser *)

(** Claim C4, at a text the parser stores wrongly.  The reaction of
    [X1+2X1->X2] consumes three molecules of X1, so the claim puts -3 in
    the cell of X1.  The parser reads the two terms as the items [1, 1]
    and [2, 1], and its loop over the items assigns the cell for each of
    them: the second term overwrites the first, and the cell holds -2. *)
Theorem repeated_species_overwritten :
  network_text [([Term [] (Py.lit "1"); Term (Py.lit "2") (Py.lit "1")],
                 [Term [] (Py.lit "2")])] = Py.lit "X1+2X1->X2" /\
  side_coefficient 1
    [Term [] (Py.lit "1"); Term (Py.lit "2") (Py.lit "1")] = 3%Z /\
  reactions_stoch (Py.lit "X1+2X1->X2") =
  Returned (Matrix 2 [[-2; 0]%Z], Matrix 2 [[0; 1]%Z]).
Proof. split; [reflexivity|]. split; [reflexivity|]. vm_compute. reflexivity. Qed.

(** Claim C6, on the example of the docstring of [reactions_stoch].  The
    second reaction of [2X1+X2->X3,X1->0,X3+4X2->12X1] has no product and
    the third produces 12 X1; a side without item is not appended to
    [prod_number_reaction], so the items of the third reaction fill row 1:
    the product matrix gives 12 X1 to the second reaction and nothing to
    the third. *)
Theorem empty_side_shifts_rows :
  reactions_stoch (Py.lit "2X1+X2->X3,X1->0,X3+4X2->12X1") =
  Returned (Matrix 3 [[-2; -1; 0]; [-1; 0; 0]; [0; -4; -1]]%Z,
            Matrix 3 [[0; 0; 1]; [12; 0; 0]; [0; 0; 0]]%Z).
Proof. vm_compute. reflexivity. Qed.




(** ** The trajectory statistics *)



